(** * Phone-Tracker: the search pipeline of [server.js] and its helpers

    A shallow embedding of the fuzzy-search, query-optimizer and geospatial
    modules and of the [/api/search] handler, followed by the properties the
    specification states about them.

    Conventions of the embedding.
    - A JavaScript string is the list of its UTF-16 code units ([jsstring]).
    - Similarity scores and thresholds are exact rationals ([Q]); coordinates
      and distances are extended reals ([num]: a real, [NaN], or an infinity).
      Rounding of IEEE doubles is not modelled.
    - A database row and every object spread from it is a finite map from
      field names to values; a missing key is [undefined].
    - Built-ins whose result depends on the engine ([parseFloat], [parseInt],
      number printing, [Array.prototype.sort], [Date] parsing) are the
      operations of the class [JsBuiltins]. *)

From Stdlib Require Import ZArith QArith Reals Lia Lqa Lra.
From Stdlib Require Import Ascii String.
From stdpp Require Import base strings list gmap pretty.

Open Scope Z_scope.

(* ===================================================================== *)
(** * JavaScript values *)
(* ===================================================================== *)

Module Js.

(** A string is its sequence of UTF-16 code units. *)
Definition jsstring := list N.

(** Literal ASCII text as a [jsstring]. *)
Definition js (s : string) : jsstring :=
  (λ a, N_of_ascii a) <$> String.list_ascii_of_string s.

(** [!s] for a string: only the empty string is falsy. *)
Definition strFalsy (s : jsstring) : bool :=
  match s with [] => true | _ => false end.

(** Truthiness of a parameter that is a string or [undefined]. *)
Definition strTruthy (v : option jsstring) : bool :=
  match v with Some s => negb (strFalsy s) | None => false end.

Definition isDigit (c : N) : bool := ((48 <=? c) && (c <=? 57))%N.
Definition isUpperAZ (c : N) : bool := ((65 <=? c) && (c <=? 90))%N.
Definition isLowerAZ (c : N) : bool := ((97 <=? c) && (c <=? 122))%N.

(** The class [\s] of a JavaScript regular expression, which is also what
    [trim] removes. *)
Definition isWhiteSpace (c : N) : bool :=
  ((9 <=? c) && (c <=? 13) || (c =? 32) || (c =? 160) || (c =? 5760)
   || (8192 <=? c) && (c <=? 8202) || (c =? 8232) || (c =? 8233)
   || (c =? 8239) || (c =? 8287) || (c =? 12288) || (c =? 65279))%N.

(** [String.prototype.toLowerCase] on one code unit, for the Basic Latin and
    Latin-1 blocks and for U+0130, whose lower case is the two units
    U+0069 U+0307 (Unicode SpecialCasing).  Code units outside this table
    are kept as they are. *)
Definition lowerUnit (c : N) : list N :=
  if isUpperAZ c then [c + 32]%N
  else if ((192 <=? c) && (c <=? 222) && negb (c =? 215))%N then [c + 32]%N
  else if (c =? 304)%N then [105; 775]%N
  else [c].

Definition toLowerCase (s : jsstring) : jsstring := s ≫= lowerUnit.

(** [String.prototype.toUpperCase] on the same blocks: U+00DF becomes "SS",
    U+00FF becomes U+0178 and U+00B5 becomes U+039C. *)
Definition upperUnit (c : N) : list N :=
  if isLowerAZ c then [c - 32]%N
  else if ((224 <=? c) && (c <=? 254) && negb (c =? 247))%N then [c - 32]%N
  else if (c =? 223)%N then [83; 83]%N
  else if (c =? 255)%N then [376]%N
  else if (c =? 181)%N then [924]%N
  else [c].

Definition toUpperCase (s : jsstring) : jsstring := s ≫= upperUnit.

Fixpoint trimStart (s : jsstring) : jsstring :=
  match s with
  | c :: s' => if isWhiteSpace c then trimStart s' else s
  | [] => []
  end.

Definition trim (s : jsstring) : jsstring :=
  reverse (trimStart (reverse (trimStart s))).

Fixpoint startsWith (p s : jsstring) : bool :=
  match p, s with
  | [], _ => true
  | a :: p', b :: s' => (a =? b)%N && startsWith p' s'
  | _ :: _, [] => false
  end.

(** [s.includes(p)]: [p] occurs somewhere in [s]. *)
Fixpoint includes (s p : jsstring) : bool :=
  startsWith p s || match s with [] => false | _ :: s' => includes s' p end.

Definition strEqb (a b : jsstring) : bool := bool_decide (a = b).

(** [s.split(sep)] for a one-unit separator. *)
Fixpoint split (sep : N) (s : jsstring) : list jsstring :=
  match s with
  | [] => [[]]
  | c :: s' =>
      if (c =? sep)%N then [] :: split sep s'
      else match split sep s' with
           | w :: ws => (c :: w) :: ws
           | [] => [[c]]
           end
  end.

(** [a.join(sep)]. *)
Fixpoint join (sep : jsstring) (parts : list jsstring) : jsstring :=
  match parts with
  | [] => []
  | [p] => p
  | p :: ps => p ++ sep ++ join sep ps
  end.

(** [s.padEnd(n, c)]. *)
Definition padEnd (n : nat) (c : N) (s : jsstring) : jsstring :=
  s ++ replicate (n - length s) c.

(** A number: a finite value, an infinity, or NaN. *)
Inductive num :=
| Fin (x : R)
| PosInf
| NegInf
| NaN.

(** [!x] is false exactly for zero and NaN. *)
Definition numTruthy (x : num) : bool :=
  match x with
  | Fin r => if Req_dec_T r 0 then false else true
  | PosInf | NegInf => true
  | NaN => false
  end.

Definition isNaN (x : num) : bool := match x with NaN => true | _ => false end.

(** [x < y] and [x <= y]; every comparison with NaN is false. *)
Definition numLt (x y : num) : bool :=
  match x, y with
  | NaN, _ | _, NaN => false
  | Fin a, Fin b => if Rlt_dec a b then true else false
  | NegInf, (Fin _ | PosInf) => true
  | Fin _, PosInf => true
  | _, _ => false
  end.

Definition numLe (x y : num) : bool :=
  match x, y with
  | NaN, _ | _, NaN => false
  | Fin a, Fin b => if Rle_dec a b then true else false
  | NegInf, _ => true
  | _, PosInf => true
  | _, _ => false
  end.

(** [x - y]. *)
Definition numSub (x y : num) : num :=
  match x, y with
  | NaN, _ | _, NaN => NaN
  | Fin a, Fin b => Fin (a - b)
  | PosInf, PosInf | NegInf, NegInf => NaN
  | PosInf, _ | _, NegInf => PosInf
  | NegInf, _ | _, PosInf => NegInf
  end.

(** A value held by a field of a row or of a response object.  A number
    that the code computes exactly (a similarity score, a clamped
    threshold) is kept as the rational it is. *)
Inductive value :=
| VNull
| VStr (s : jsstring)
| VNum (x : num)
| VRat (q : Q)
| VCoords (lat lon : num).

(** A row; a key that is not bound reads as [undefined]. *)
Abbreviation Row := (gmap string value).

(** Truthiness of [row[field]]. *)
Definition truthy (v : option value) : bool :=
  match v with
  | Some (VStr s) => negb (strFalsy s)
  | Some (VNum x) => numTruthy x
  | Some (VRat q) => negb (Qeq_bool q 0)
  | Some (VCoords _ _) => true
  | Some VNull | None => false
  end.

(** The string a text field holds; [null], [undefined] and values that are
    not strings give the empty string, as they all fail the guards
    [if (!x) return ''] of the normalisers. *)
Definition strOf (v : option value) : jsstring :=
  match v with Some (VStr s) => s | _ => [] end.

(** Built-ins of the engine.  [parseInt] returns [None] for NaN;
    [toNumber] is [Number(s)]; [dateValue v] is the time value of
    [new Date(v)]; [sort] is [Array.prototype.sort] with a comparator, of
    which only the contract is used: the result is a rearrangement of the
    array. *)
Class JsBuiltins := {
  parseFloat : jsstring → num;
  parseInt : jsstring → option Z;
  toNumber : jsstring → num;
  numToString : num → jsstring;
  dateValue : option value → num;
  sort : ∀ A : Type, (A → A → num) → list A → list A;
  sort_perm : ∀ (A : Type) (c : A → A → num) (l : list A), sort A c l ≡ₚ l
}.
Global Arguments sort {_ _} _ _.

(** [parseFloat(v)], [String(v)] and [Number(v)] for a value read from an
    object. *)
Definition parseFloatV `{JsBuiltins} (v : option value) : num :=
  match v with
  | Some (VNum x) => x
  | Some (VRat q) => Fin (Q2R q)
  | Some (VStr s) => parseFloat s
  | _ => NaN
  end.

Definition ratToString `{JsBuiltins} (q : Q) : jsstring :=
  let r := Qred q in
  if (Qden r =? 1)%positive then js (pretty (Qnum r))
  else numToString (Fin (Q2R q)).

Definition toStringV `{JsBuiltins} (v : option value) : jsstring :=
  match v with
  | Some (VStr s) => s
  | Some (VNum x) => numToString x
  | Some (VRat q) => ratToString q
  | Some (VCoords _ _) => js "[object Object]"
  | Some VNull => js "null"
  | None => js "undefined"
  end.

Definition toNumberV `{JsBuiltins} (v : option value) : num :=
  match v with
  | Some (VNum x) => x
  | Some (VRat q) => Fin (Q2R q)
  | Some (VStr s) => toNumber s
  | Some VNull => Fin 0
  | Some (VCoords _ _) | None => NaN
  end.

End Js.
Export Js.

(* ===================================================================== *)
(** * Fuzzy search utilities *)
(* ===================================================================== *)

Module FuzzySearch.

(** One pass of the inner loop [for j = 1 .. len2] on row [i] of the matrix:
    [diag] is [matrix[i-1][j-1]], [left] is [matrix[i][j-1]] and [ups] holds
    [matrix[i-1][j ..]]. *)
Fixpoint fillRow (c : N) (str2 : jsstring) (diag left : nat) (ups : list nat)
  : list nat :=
  match str2, ups with
  | d :: str2', up :: ups' =>
      let cell :=
        if (c =? d)%N then diag
        else Nat.min (diag + 1) (Nat.min (left + 1) (up + 1)) in
      cell :: fillRow c str2' up cell ups'
  | _, _ => []
  end.

(** Row [i] from row [i-1]; its first cell is [i]. *)
Definition nextRow (i : nat) (c : N) (str2 : jsstring) (prev : list nat)
  : list nat :=
  match prev with
  | diag :: ups => i :: fillRow c str2 diag i ups
  | [] => [i]
  end.

(** The outer loop [for i = 1 .. len1], keeping the last row filled. *)
Fixpoint fillMatrix (i : nat) (str1 str2 : jsstring) (prev : list nat)
  : list nat :=
  match str1 with
  | [] => prev
  | c :: str1' => fillMatrix (S i) str1' str2 (nextRow (S i) c str2 prev)
  end.

Definition levenshteinDistance (str1 str2 : jsstring) : nat :=
  if strFalsy str1 || strFalsy str2 then Nat.max (length str1) (length str2)
  else
    let lastRow := fillMatrix 0 str1 str2 (seq 0 (S (length str2))) in
    default 0%nat (lastRow !! length str2).

(** The score as an exact rational: the code computes it in doubles, where
    the division and the product are rounded. *)
Definition calculateSimilarity (str1 str2 : jsstring) : Q :=
  if strFalsy str1 || strFalsy str2 then 0%Q
  else
    let maxLength := Nat.max (length str1) (length str2) in
    if (maxLength =? 0)%nat then 100%Q
    else
      let distance :=
        levenshteinDistance (toLowerCase str1) (toLowerCase str2) in
      (((inject_Z (Z.of_nat maxLength) - inject_Z (Z.of_nat distance))
        / inject_Z (Z.of_nat maxLength)) * 100)%Q.

Definition isFuzzyMatch (str1 str2 : jsstring) (threshold : Q) : bool :=
  Qle_bool threshold (calculateSimilarity str1 str2).

Definition normalizePhoneNumber (phoneNumber : jsstring) : jsstring :=
  if strFalsy phoneNumber then [] else filter (λ c, isDigit c = true) phoneNumber.

Definition isPhoneSimilar (phone1 phone2 : jsstring) (threshold : Q) : bool :=
  let norm1 := normalizePhoneNumber phone1 in
  let norm2 := normalizePhoneNumber phone2 in
  if strEqb norm1 norm2 then true
  else if (includes norm1 norm2 || includes norm2 norm1)
          && (7 <=? Nat.min (length norm1) (length norm2))%nat then true
  else Qle_bool threshold (calculateSimilarity norm1 norm2).

Definition normalizeIMEI (imei : jsstring) : jsstring :=
  if strFalsy imei then []
  else toUpperCase
         (filter (λ c, (isWhiteSpace c || (c =? 45)%N) = false) imei).

Definition isIMEISimilar (imei1 imei2 : jsstring) (threshold : Q) : bool :=
  let norm1 := normalizeIMEI imei1 in
  let norm2 := normalizeIMEI imei2 in
  if strEqb norm1 norm2 then true
  else Qle_bool threshold (calculateSimilarity norm1 norm2).

(** The inner [fields.forEach]: the best score seen so far and its field. *)
Definition bestMatch `{JsBuiltins} (searchTerm : jsstring) (result : Row)
    (fields : list string) : Q * option string :=
  foldl (λ (best : Q * option string) field,
           let fieldValue := result !! field in
           if truthy fieldValue then
             let similarity :=
               calculateSimilarity searchTerm (toStringV fieldValue) in
             if negb (Qle_bool similarity (fst best))
             then (similarity, Some field) else best
           else best)
        (0%Q, None) fields.

Definition multiFieldFuzzySearch `{JsBuiltins} (results : list Row)
    (searchTerm : jsstring) (fields : list string) (threshold : Q)
  : list Row :=
  if strFalsy searchTerm || bool_decide (results = []) then results
  else
    let scoredResults :=
      omap (λ result,
              let '(bestSimilarity, bestField) :=
                bestMatch searchTerm result fields in
              if Qle_bool threshold bestSimilarity
              then Some (<["_matchField" :=
                             from_option (λ f, VStr (js f)) VNull bestField]>
                         (<["_similarity" := VRat bestSimilarity]> result))
              else None)
           results in
    sort (λ a b, numSub (toNumberV (b !! "_similarity"))
                        (toNumberV (a !! "_similarity")))
         scoredResults.

(** Soundex class of an upper-case letter; ['0'] for the others. *)
Definition mapping (c : N) : N :=
  if bool_decide (c ∈ [66; 70; 80; 86]%N) then 49%N
  else if bool_decide (c ∈ [67; 71; 74; 75; 81; 83; 88; 90]%N) then 50%N
  else if bool_decide (c ∈ [68; 84]%N) then 51%N
  else if (c =? 76)%N then 52%N
  else if bool_decide (c ∈ [77; 78]%N) then 53%N
  else if (c =? 82)%N then 54%N
  else 48%N.

(** The loop [for (i = 1; i < str.length && soundexCode.length < 4; i++)]. *)
Fixpoint soundexLoop (rest : jsstring) (soundexCode : jsstring) (prevCode : N)
  : jsstring :=
  match rest with
  | [] => soundexCode
  | c :: rest' =>
      if (length soundexCode <? 4)%nat then
        let currentCode := mapping c in
        let soundexCode' :=
          if negb (currentCode =? 48)%N && negb (currentCode =? prevCode)%N
          then soundexCode ++ [currentCode] else soundexCode in
        let prevCode' :=
          if negb (currentCode =? 48)%N then currentCode else prevCode in
        soundexLoop rest' soundexCode' prevCode'
      else soundexCode
  end.

Definition soundex (str : jsstring) : jsstring :=
  if strFalsy str then []
  else
    match filter (λ c, isUpperAZ c = true) (toUpperCase str) with
    | [] => []
    | firstLetter :: rest =>
        padEnd 4 48%N (soundexLoop rest [firstLetter] (mapping firstLetter))
    end.

Definition isSoundexMatch (str1 str2 : jsstring) : bool :=
  strEqb (soundex str1) (soundex str2).

End FuzzySearch.

(* ===================================================================== *)
(** * Query optimizer: cache keys, pagination, parameter clean-up *)
(* ===================================================================== *)

Module QueryOptimizer.

(** [v || d] as a key part, then turned into text by [join]. *)
Definition keyPart `{JsBuiltins} (v : option value) (d : string) : jsstring :=
  if truthy v then toStringV v else js d.

Definition generateCacheKey `{JsBuiltins} (params : gmap string value)
  : jsstring :=
  let keyParts :=
    [ keyPart (params !! "query") "no-query";
      keyPart (params !! "type") "all";
      keyPart (params !! "country") "no-country";
      keyPart (params !! "region") "no-region";
      keyPart (params !! "city") "no-city";
      keyPart (params !! "fuzzy") "false";
      keyPart (params !! "threshold") "70";
      keyPart (params !! "phonetic") "false";
      keyPart (params !! "lat") "no-lat";
      keyPart (params !! "lon") "no-lon";
      keyPart (params !! "radius") "10";
      keyPart (params !! "page") "1";
      keyPart (params !! "limit") "50" ] in
  js "search:" ++ join (js ":") keyParts.

(** [Math.ceil(a / b)] on integers, [b] not zero. *)
Definition ceilDiv (a b : Z) : Z := - ((- a) / b).

(** [l.slice(start, end)]; a negative index counts from the end. *)
Definition slice {A} (l : list A) (start final : Z) : list A :=
  let len := Z.of_nat (length l) in
  let from := if start <? 0 then Z.max (len + start) 0 else Z.min start len in
  let to := if final <? 0 then Z.max (len + final) 0 else Z.min final len in
  take (Z.to_nat (to - from)) (drop (Z.to_nat from) l).

Record Pagination := {
  current_page : Z;
  total_pages : Z;
  total_items : Z;
  items_per_page : Z;
  has_next : bool;
  has_previous : bool;
  next_page : option Z;
  previous_page : option Z
}.

Record Paginated (A : Type) := {
  data : list A;
  pagination : Pagination
}.
Global Arguments data {_} _.
Global Arguments pagination {_} _.

(** [page] and [limit] are integers and [limit] is not zero, as
    [validatePaginationParams] produces them. *)
Definition paginateResults {A} (results : list A) (page limit : Z)
  : Paginated A :=
  let totalItems := Z.of_nat (length results) in
  let totalPages := ceilDiv totalItems limit in
  let currentPage := Z.max 1 (Z.min page totalPages) in
  let offset := (currentPage - 1) * limit in
  let paginatedResults := slice results offset (offset + limit) in
  {| data := paginatedResults;
     pagination :=
       {| current_page := currentPage;
          total_pages := totalPages;
          total_items := totalItems;
          items_per_page := limit;
          has_next := currentPage <? totalPages;
          has_previous := 1 <? currentPage;
          next_page :=
            if currentPage <? totalPages then Some (currentPage + 1) else None;
          previous_page :=
            if 1 <? currentPage then Some (currentPage - 1) else None |} |}.

(** [parseInt(s) || d]: NaN and 0 are falsy. *)
Definition intOr (z : option Z) (d : Z) : Z :=
  match z with
  | Some 0 | None => d
  | Some n => n
  end.

(** [parseFloat(s) || d]. *)
Definition numOr (x d : num) : num := if numTruthy x then x else d.

Definition validatePaginationParams `{JsBuiltins} (page limit : jsstring)
  : Z * Z :=
  let validatedPage := Z.max 1 (intOr (parseInt page) 1) in
  let validatedLimit := Z.min 100 (Z.max 1 (intOr (parseInt limit) 50)) in
  (validatedPage, validatedLimit).

(** [Math.min] and [Math.max]; NaN wins. *)
Definition numMin (x y : num) : num :=
  if isNaN x || isNaN y then NaN else if numLe x y then x else y.
Definition numMax (x y : num) : num :=
  if isNaN x || isNaN y then NaN else if numLe x y then y else x.

(** The test [isNaN(lat) || isNaN(lon) || lat < -90 || ...]. *)
Definition invalidCoordinates (lat lon : num) : bool :=
  isNaN lat || isNaN lon || numLt lat (Fin (-90)) || numLt (Fin 90) lat
  || numLt lon (Fin (-180)) || numLt (Fin 180) lon.

(** [params] is [req.query]: every value it holds is a string. *)
Definition optimizeSearchParams `{JsBuiltins} (params : gmap string jsstring)
  : gmap string value :=
  let optimized : gmap string value := VStr <$> params in
  let optimized :=
    if truthy (optimized !! "query")
    then <["query" :=
            VStr (toLowerCase (trim (strOf (optimized !! "query"))))]> optimized
    else optimized in
  let optimized :=
    if truthy (optimized !! "threshold")
    then <["threshold" :=
            VRat (inject_Z
                    (Z.min 100
                       (Z.max 0
                          (intOr (parseInt (strOf (optimized !! "threshold")))
                                 70))))]> optimized
    else optimized in
  let optimized :=
    if truthy (optimized !! "radius")
    then <["radius" :=
            VNum (numMin (Fin 1000)
                    (numMax (Fin (1 / 10))
                       (numOr (parseFloat (strOf (optimized !! "radius")))
                              (Fin 10))))]> optimized
    else optimized in
  if truthy (optimized !! "lat") && truthy (optimized !! "lon") then
    let lat := parseFloatV (optimized !! "lat") in
    let lon := parseFloatV (optimized !! "lon") in
    if invalidCoordinates lat lon
    then delete "lon" (delete "lat" optimized)
    else optimized
  else optimized.

End QueryOptimizer.

(* ===================================================================== *)
(** * Geospatial search *)
(* ===================================================================== *)

Module GeospatialSearch.

Local Open Scope R_scope.

Definition toRadians (degrees : R) : R := degrees * (PI / 180).

(** [Math.atan2(y, x)]. *)
Definition atan2 (y x : R) : R :=
  if Rlt_dec 0 x then atan (y / x)
  else if Rlt_dec x 0 then
    (if Rle_dec 0 y then atan (y / x) + PI else atan (y / x) - PI)
  else if Rlt_dec 0 y then PI / 2
  else if Rlt_dec y 0 then - (PI / 2)
  else 0.

(** The haversine formula of [calculateDistance] on finite coordinates,
    over the real numbers: the code evaluates it in doubles and rounds
    each operation. *)
Definition haversine (lat1 lon1 lat2 lon2 : R) : R :=
  let R' := 6371 in
  let dLat := toRadians (lat2 - lat1) in
  let dLon := toRadians (lon2 - lon1) in
  let a := sin (dLat / 2) * sin (dLat / 2) +
           cos (toRadians lat1) * cos (toRadians lat2) *
           sin (dLon / 2) * sin (dLon / 2) in
  let c := 2 * atan2 (sqrt a) (sqrt (1 - a)) in
  R' * c.

(** A zero or NaN argument takes the guard; with an infinite argument the
    sines are NaN and so is the result. *)
Definition calculateDistance (lat1 lon1 lat2 lon2 : num) : num :=
  if negb (numTruthy lat1) || negb (numTruthy lon1)
     || negb (numTruthy lat2) || negb (numTruthy lon2)
  then PosInf
  else
    match lat1, lon1, lat2, lon2 with
    | Fin a, Fin b, Fin c, Fin d => Fin (haversine a b c d)
    | _, _, _, _ => NaN
    end.

Definition parseLocation `{JsBuiltins} (locationStr : option value)
  : option (num * num) :=
  match locationStr with
  | Some (VStr str) =>
      if strFalsy str then None
      else
        match split 44 (trim str) with
        | [part0; part1] =>
            let lat := parseFloat (trim part0) in
            let lon := parseFloat (trim part1) in
            if QueryOptimizer.invalidCoordinates lat lon then None
            else Some (lat, lon)
        | _ => None
        end
  | _ => None
  end.

Definition coordinateFields : list string :=
  ["coordinates"; "location_coordinates"; "lat_lon"; "position"]%string.

(** The loop over [coordinateFields]: the first field that parses. *)
Fixpoint firstParsed `{JsBuiltins} (record : Row) (fields : list string)
  : option (num * num) :=
  match fields with
  | [] => None
  | field :: fields' =>
      match (if truthy (record !! field)
             then parseLocation (record !! field) else None) with
      | Some coords => Some coords
      | None => firstParsed record fields'
      end
  end.

Definition extractCoordinates `{JsBuiltins} (record : Row)
  : option (num * num) :=
  match firstParsed record coordinateFields with
  | Some coords => Some coords
  | None =>
      if truthy (record !! "latitude") && truthy (record !! "longitude") then
        let lat := parseFloatV (record !! "latitude") in
        let lon := parseFloatV (record !! "longitude") in
        if negb (isNaN lat) && negb (isNaN lon)
           && numLe (Fin (-90)) lat && numLe lat (Fin 90)
           && numLe (Fin (-180)) lon && numLe lon (Fin 180)
        then Some (lat, lon) else None
      else None
  end.

(** [Math.round(distance * 100) / 100]. *)
Definition round2 (distance : num) : num :=
  match distance with
  | Fin d => Fin (IZR (Int_part (d * 100 + 1 / 2)) / 100)
  | other => other
  end.

(** The body of the loop of [filterByProximity] for one record. *)
Definition annotate `{JsBuiltins} (centerLat centerLon radiusKm : num)
    (record : Row) : option Row :=
  match extractCoordinates record with
  | Some (lat, lon) =>
      let distance := calculateDistance centerLat centerLon lat lon in
      if numLe distance radiusKm
      then Some (<["coordinates" := VCoords lat lon]>
                 (<["distance_km" := VNum (round2 distance)]> record))
      else None
  | None => None
  end.

Definition byDistance `{JsBuiltins} (a b : Row) : num :=
  numSub (toNumberV (a !! "distance_km")) (toNumberV (b !! "distance_km")).

Definition filterByProximity `{JsBuiltins} (records : list Row)
    (centerLat centerLon radiusKm : num) : list Row :=
  sort byDistance (omap (annotate centerLat centerLon radiusKm) records).

Record BoundingBox := {
  minLat : R;
  maxLat : R;
  minLon : R;
  maxLon : R
}.

Definition createBoundingBox (centerLat centerLon radiusKm : R) : BoundingBox :=
  let latDegreePerKm := 1 / 111.32 in
  let lonDegreePerKm := 1 / (111.32 * cos (toRadians centerLat)) in
  let latOffset := radiusKm * latDegreePerKm in
  let lonOffset := radiusKm * lonDegreePerKm in
  {| minLat := centerLat - latOffset;
     maxLat := centerLat + latOffset;
     minLon := centerLon - lonOffset;
     maxLon := centerLon + lonOffset |}.

End GeospatialSearch.

(* ===================================================================== *)
(** * The handler of [GET /api/search] *)
(* ===================================================================== *)

Module Server.
Import FuzzySearch QueryOptimizer GeospatialSearch.

Inductive Table := LostPhones | FoundPhones.

(** What [db.all] hands to its callback: an error or the rows. *)
Inductive ScanResult :=
| ScanError (message : jsstring)
| ScanRows (rows : list Row).

(** The record store as one request sees it: the outcome of the query the
    handler issues on each table.  Text columns hold strings or [null]. *)
Definition Store := Table → ScanResult.

Record SearchInfo := {
  info_query : option jsstring;
  info_type : option jsstring;
  fuzzy_enabled : bool;
  phonetic_enabled : bool;
  geospatial_enabled : bool;
  threshold : Z;
  radius_km : option num;
  center_coordinates : option (num * num);
  total_results : nat
}.

Record CacheData := {
  combined_results : list Row;
  search_info : SearchInfo
}.

(** The entries of [searchCache] that are alive when the request arrives. *)
Abbreviation Cache := (gmap jsstring CacheData).

Inductive Body :=
| ErrorBody (error : jsstring) (details : list jsstring)
| PartialBody (lost_phones found_phones : list Row) (info : SearchInfo)
| PageBody (page : Paginated Row) (info : SearchInfo) (cache_hit : bool).

Record Response := {
  status : Z;
  body : Body
}.

(** [s.split(/\s+/)]; [inGap] tells that the previous unit was white space. *)
Fixpoint splitWs (s : jsstring) (inGap : bool) : list jsstring :=
  match s with
  | [] => [[]]
  | c :: s' =>
      if isWhiteSpace c then
        (if inGap then splitWs s' true else [] :: splitWs s' true)
      else
        match splitWs s' false with
        | w :: ws => (c :: w) :: ws
        | [] => [[c]]
        end
  end.

(** [x ? x.split(',') : []] for the array parameters. *)
Definition arrayParam (v : option jsstring) : list jsstring :=
  match v with
  | Some s => if strFalsy s then [] else split 44%N s
  | None => []
  end.

Definition statusCategories : list jsstring :=
  [js "lost"; js "found"; js "returned"; js "claimed"].

(** [advancedFilters.validateFilters]; [now] is the time value of
    [new Date()]. *)
Definition validateFilters `{JsBuiltins} (now : num)
    (dateFrom dateTo : option jsstring) (statusArray : list jsstring)
  : list jsstring :=
  let dateErrors :=
    if strTruthy dateFrom && strTruthy dateTo then
      let fromDate := dateValue (VStr <$> dateFrom) in
      let toDate := dateValue (VStr <$> dateTo) in
      (if numLt toDate fromDate
       then [js "Date from cannot be later than date to"] else [])
      ++ (if numLt now fromDate
          then [js "Date from cannot be in the future"] else [])
    else [] in
  let invalidStatuses :=
    filter (λ st, toLowerCase st ∉ statusCategories) statusArray in
  dateErrors ++
  (if (0 <? length invalidStatuses)%nat
   then [js "Invalid status values: " ++ join (js ", ") invalidStatuses]
   else []).

(** The fuzzy pass on one table; [contact] and [fields] carry the names
    that differ between the two tables. *)
Definition fuzzyPass `{JsBuiltins} (type : option jsstring) (query : jsstring)
    (similarityThreshold : Q) (contact : string) (fields : list string)
    (results : list Row) : list Row :=
  if bool_decide (type = Some (js "phone")) then
    filter (λ row,
              isPhoneSimilar query (strOf (row !! "phone_number"))
                             similarityThreshold
              || isPhoneSimilar query (strOf (row !! contact))
                                similarityThreshold = true) results
  else if bool_decide (type = Some (js "imei")) then
    filter (λ row,
              isIMEISimilar query (strOf (row !! "imei"))
                            similarityThreshold = true) results
  else multiFieldFuzzySearch results query fields similarityThreshold.

(** The phonetic pass on one table. *)
Definition phoneticPass (query : jsstring) (fieldsToCheck : list string)
    (results : list Row) : list Row :=
  let queryPhonetic := soundex query in
  filter (λ row,
            existsb (λ field,
                       if truthy (row !! field) then
                         existsb (λ word, strEqb (soundex word) queryPhonetic)
                                 (splitWs (strOf (row !! field)) false)
                       else false)
                    fieldsToCheck = true) results.

Definition tagSource (source : string) (item : Row) : Row :=
  <["source" := VStr (js source)]> item.

(** The comparator of [combinedResults.sort]. *)
Definition byRelevance `{JsBuiltins} (useGeospatial : bool) (a b : Row) : num :=
  if useGeospatial && bool_decide (is_Some (a !! "distance_km"))
     && bool_decide (is_Some (b !! "distance_km"))
  then numSub (toNumberV (a !! "distance_km")) (toNumberV (b !! "distance_km"))
  else numSub (dateValue (b !! "created_at")) (dateValue (a !! "created_at")).

(** What the handler derives from [req.query] before it queries the store. *)
Record Plan := {
  query : option jsstring;
  type : option jsstring;
  useFuzzy : bool;
  usePhonetic : bool;
  useGeospatial : bool;
  useCache : bool;
  similarityThreshold : Z;
  searchRadius : num;
  centerLat : num;
  centerLon : num;
  validPage : Z;
  validLimit : Z;
  needsFuzzyProcessing : bool;
  needsPhoneticProcessing : bool;
  needsGeospatialProcessing : bool
}.

(** The destructuring of [req.query] with its defaults, and the flags set
    while the WHERE clause is built. *)
Definition plan `{JsBuiltins} (q : gmap string jsstring) : Plan :=
  let query := q !! "query" in
  let type := q !! "type" in
  let fuzzy := default (js "true") (q !! "fuzzy") in
  let threshold := default (js "70") (q !! "threshold") in
  let phonetic := default (js "false") (q !! "phonetic") in
  let radius := default (js "10") (q !! "radius") in
  let page := default (js "1") (q !! "page") in
  let limit := default (js "50") (q !! "limit") in
  let cache := default (js "true") (q !! "cache") in
  let '(validPage, validLimit) := validatePaginationParams page limit in
  let useFuzzy := strEqb fuzzy (js "true") in
  let usePhonetic := strEqb phonetic (js "true") in
  let useGeospatial := strTruthy (q !! "lat") && strTruthy (q !! "lon") in
  let '(needsFuzzy, needsPhonetic) :=
    if strTruthy query then
      if bool_decide (type = Some (js "phone")) then (useFuzzy, false)
      else if bool_decide (type = Some (js "imei")) then (useFuzzy, false)
      else if bool_decide (type = Some (js "email")) then (false, false)
      else if useFuzzy || usePhonetic then (useFuzzy, usePhonetic)
      else (false, false)
    else (false, false) in
  {| query := query;
     type := type;
     useFuzzy := useFuzzy;
     usePhonetic := usePhonetic;
     useGeospatial := useGeospatial;
     useCache := strEqb cache (js "true");
     similarityThreshold := intOr (parseInt threshold) 70;
     searchRadius := numOr (parseFloat radius) (Fin 10);
     centerLat := parseFloat (default [] (q !! "lat"));
     centerLon := parseFloat (default [] (q !! "lon"));
     validPage := validPage;
     validLimit := validLimit;
     needsFuzzyProcessing := needsFuzzy;
     needsPhoneticProcessing := needsPhonetic;
     needsGeospatialProcessing := useGeospatial |}.

(** The callback of the query on [lost_phones], up to the second query. *)
Definition lostPass `{JsBuiltins} (p : Plan) (rows : list Row) : list Row :=
  let results := rows in
  let results :=
    if useFuzzy p && needsFuzzyProcessing p && strTruthy (query p)
    then fuzzyPass (type p) (default [] (query p))
           (inject_Z (similarityThreshold p)) "contact_phone"
           ["phone_number"; "imei"; "email"; "brand"; "model"; "description";
            "location_lost"; "contact_name"]%string results
    else results in
  let results :=
    if usePhonetic p && needsPhoneticProcessing p && strTruthy (query p)
    then phoneticPass (default [] (query p))
           ["contact_name"; "brand"; "model"; "description";
            "location_lost"]%string results
    else results in
  if useGeospatial p && needsGeospatialProcessing p
  then filterByProximity results (centerLat p) (centerLon p) (searchRadius p)
  else results.

(** The callback of the query on [found_phones], up to the merge. *)
Definition foundPass `{JsBuiltins} (p : Plan) (foundRows : list Row)
  : list Row :=
  let foundResults := foundRows in
  let foundResults :=
    if useFuzzy p && needsFuzzyProcessing p && strTruthy (query p)
    then fuzzyPass (type p) (default [] (query p))
           (inject_Z (similarityThreshold p)) "finder_contact"
           ["phone_number"; "imei"; "email"; "brand"; "model"; "description";
            "location_found"; "finder_name"]%string foundResults
    else foundResults in
  if usePhonetic p && needsPhoneticProcessing p && strTruthy (query p)
  then phoneticPass (default [] (query p))
         ["finder_name"; "brand"; "model"; "description";
          "location_found"]%string foundResults
  else foundResults.

(** [combinedResults] after its sort: the merged result set. *)
Definition combine `{JsBuiltins} (p : Plan) (results foundResults : list Row)
  : list Row :=
  sort (byRelevance (useGeospatial p))
       ((tagSource "lost_phones" <$> results)
        ++ (tagSource "found_phones" <$> foundResults)).

Definition searchInfo (p : Plan) (total : nat) : SearchInfo :=
  {| info_query := query p;
     info_type := type p;
     fuzzy_enabled := useFuzzy p;
     phonetic_enabled := usePhonetic p;
     geospatial_enabled := useGeospatial p;
     threshold := similarityThreshold p;
     radius_km := if useGeospatial p then Some (searchRadius p) else None;
     center_coordinates :=
       if useGeospatial p then Some (centerLat p, centerLon p) else None;
     total_results := total |}.

(** The two nested [db.all] callbacks.  The result is the response and the
    entry written to the cache, if any. *)
Definition runQueries `{JsBuiltins} (p : Plan) (db : Store)
  : Response * option CacheData :=
  match db LostPhones with
  | ScanError message =>
      ({| status := 500; body := ErrorBody message [] |}, None)
  | ScanRows rows =>
      let results := lostPass p rows in
      match db FoundPhones with
      | ScanError _ =>
          ({| status := 200;
              body := PartialBody results []
                        (searchInfo p (length results)) |}, None)
      | ScanRows foundRows =>
          let foundResults := foundPass p foundRows in
          let combinedResults := combine p results foundResults in
          let info := searchInfo p (length combinedResults) in
          let cacheData :=
            if useCache p
            then Some {| combined_results := combinedResults;
                         search_info := info |}
            else None in
          ({| status := 200;
              body := PageBody
                        (paginateResults combinedResults
                           (validPage p) (validLimit p))
                        info false |}, cacheData)
      end
  end.

(** [hasAdvancedFilters], over the values of [advancedFilterParams]. *)
Definition hasAdvancedFilters (q : gmap string jsstring) : bool :=
  existsb (λ k, strTruthy (q !! k))
    ["dateFrom"; "dateTo"; "timeRange"; "country"; "region"; "city";
     "imei"; "phoneNumber"]%string
  || existsb (λ a : list jsstring, (0 <? length a)%nat)
       [arrayParam (q !! "status"); arrayParam (q !! "deviceType");
        arrayParam (q !! "brand")].

(** The test that rejects a request without any search criterion. *)
Definition missingCriteria (q : gmap string jsstring) : bool :=
  negb (strTruthy (q !! "query")) && negb (strTruthy (q !! "country"))
  && negb (strTruthy (q !! "region")) && negb (strTruthy (q !! "city"))
  && negb (strTruthy (q !! "lat") && strTruthy (q !! "lon"))
  && negb (hasAdvancedFilters q).

(** The cache entry the handler answers from, if it looks and finds one. *)
Definition cachedFor `{JsBuiltins} (cache : Cache) (q : gmap string jsstring)
  : option CacheData :=
  if strEqb (default (js "true") (q !! "cache")) (js "true")
  then cache !! generateCacheKey (optimizeSearchParams q)
  else None.

(** The handler with the text of its two statements left aside:
    validation, the criteria check, the cache, the two scans.  Between the
    cache and the first scan the handler builds the statements, and that
    step can throw; [QueryText.searchRoute] is the handler with that step,
    and it answers as [search] does whenever it answers.  Performance
    metrics and the analytics event are not part of the model. *)
Definition search `{JsBuiltins} (now : num) (cache : Cache) (db : Store)
    (q : gmap string jsstring) : Response * Cache :=
  let errors :=
    validateFilters now (q !! "dateFrom") (q !! "dateTo")
                    (arrayParam (q !! "status")) in
  if (0 <? length errors)%nat then
    ({| status := 400;
        body := ErrorBody (js "Invalid filter parameters") errors |}, cache)
  else if missingCriteria q then
    ({| status := 400;
        body := ErrorBody
                  (js "Search query, location filter, coordinates, or advanced filters are required")
                  [] |}, cache)
  else
    let p := plan q in
    match cachedFor cache q with
    | Some cachedResults =>
        ({| status := 200;
            body := PageBody
                      (paginateResults (combined_results cachedResults)
                         (validPage p) (validLimit p))
                      (search_info cachedResults) true |}, cache)
    | None =>
        let '(response, written) := runQueries p db in
        (response,
         match written with
         | Some cacheData =>
             <[generateCacheKey (optimizeSearchParams q) := cacheData]> cache
         | None => cache
         end)
    end.

End Server.

(* ===================================================================== *)
(** * The other exports of the three modules *)
(* ===================================================================== *)

Module FuzzyFilters.
Import FuzzySearch.

(** The callback of [results.map] in [filterFuzzyResults].  The outer
    [None] is the [TypeError] of [calculateSimilarity] on a truthy field
    value that is not a string; the inner one is [null]. *)
Definition scoreField (searchTerm : jsstring) (fieldName : string)
    (threshold : Q) (result : Row) : option (option Row) :=
  let fieldValue := result !! fieldName in
  if negb (truthy fieldValue) then Some None
  else
    match fieldValue with
    | Some (VStr str) =>
        let similarity := calculateSimilarity searchTerm str in
        if Qle_bool threshold similarity
        then Some (Some (<["_matchField" := VStr (js fieldName)]>
                         (<["_similarity" := VRat similarity]> result)))
        else Some None
    | _ => None
    end.

Definition filterFuzzyResults `{JsBuiltins} (results : list Row)
    (searchTerm : jsstring) (fieldName : string) (threshold : Q)
  : option (list Row) :=
  if strFalsy searchTerm || bool_decide (results = []) then Some results
  else
    scored ← mapM (scoreField searchTerm fieldName threshold) results;
    Some (sort (λ a b, numSub (toNumberV (b !! "_similarity"))
                              (toNumberV (a !! "_similarity")))
               (omap (λ scoredRow : option Row, scoredRow) scored)).

End FuzzyFilters.

Module QueryPlanner.
Import QueryOptimizer.

(** The options of [optimizeQuery]: [limit] is [null] or an integer. *)
Record Options := {
  orderBy : jsstring;
  limit : option Z;
  useIndex : bool
}.

(** [limit && ...]: [null] and 0 are falsy. *)
Definition limitGiven (limit : option Z) : bool :=
  match limit with
  | Some n => negb (n =? 0)
  | None => false
  end.

Definition optimizeQuery (baseQuery : jsstring) (options : Options)
  : jsstring :=
  let optimizedQuery := baseQuery in
  let optimizedQuery :=
    if useIndex options && includes baseQuery (js "WHERE")
    then js "/* Use available indexes */ " ++ optimizedQuery
    else optimizedQuery in
  let optimizedQuery :=
    if negb (includes (toLowerCase optimizedQuery) (js "order by"))
    then optimizedQuery ++ js " ORDER BY " ++ orderBy options
    else optimizedQuery in
  if limitGiven (limit options)
     && negb (includes (toLowerCase optimizedQuery) (js "limit"))
  then optimizedQuery ++ js " LIMIT "
       ++ js (pretty (default 0 (limit options)))
  else optimizedQuery.

(** [searchCache] as the map from its keys to the values it holds. *)
Definition getCachedResults `{JsBuiltins} {V} (searchCache : gmap jsstring V)
    (params : gmap string value) : option V :=
  searchCache !! generateCacheKey params.

Definition cacheResults `{JsBuiltins} {V} (searchCache : gmap jsstring V)
    (params : gmap string value) (results : V) : gmap jsstring V :=
  <[generateCacheKey params := results]> searchCache.

(** [clearCache(pattern)]: [null] and the empty pattern flush the cache. *)
Definition clearCache {V} (searchCache : gmap jsstring V)
    (pattern : option jsstring) : gmap jsstring V :=
  if strTruthy pattern
  then filter (λ entry, includes entry.1 (default [] pattern) = false)
              searchCache
  else ∅.

End QueryPlanner.

Module Nearby.
Import GeospatialSearch.

(** One criterion of [findNearbyByLocation]: it is tested when both the
    criterion and the field of the record are truthy, and [&&] skips the
    test when [matches] is false already.  [None] is the [TypeError] of
    [toLowerCase] on a field that is not a string. *)
Definition criterion (matches : bool) (wanted : option jsstring)
    (field : option value) : option bool :=
  if strTruthy wanted && truthy field then
    if matches then
      match field with
      | Some (VStr text) =>
          Some (includes (toLowerCase text) (toLowerCase (default [] wanted)))
      | _ => None
      end
    else Some false
  else Some matches.

(** The callback of [records.filter]. *)
Definition matchesLocation (city region country : option jsstring)
    (record : Row) : option bool :=
  matches ← criterion true city (record !! "city");
  matches ← criterion matches region (record !! "region_state");
  criterion matches country (record !! "country").

Definition findNearbyByLocation (records : list Row)
    (city region country : option jsstring) : option (list Row) :=
  flags ← mapM (matchesLocation city region country) records;
  Some (omap (λ flagged : Row * bool,
                if flagged.2 then Some flagged.1 else None)
             (zip records flags)).

(** The condition and the parameters of [getBoundingBoxSQL]. *)
Definition getBoundingBoxSQL (boundingBox : BoundingBox)
    (latField lonField : jsstring) : jsstring * list R :=
  (js "(" ++ latField ++ js " BETWEEN ? AND ? AND " ++ lonField
   ++ js " BETWEEN ? AND ?)",
   [minLat boundingBox; maxLat boundingBox;
    minLon boundingBox; maxLon boundingBox]).

End Nearby.

(* ===================================================================== *)
(** * Advanced filters *)
(* ===================================================================== *)

Module AdvancedFilters.

(** [advancedFilterParams] as the handler builds it: the three array
    parameters are split, the others are strings or [undefined]. *)
Record Filters := {
  dateFrom : option jsstring;
  dateTo : option jsstring;
  timeRange : option jsstring;
  status : list jsstring;
  deviceType : list jsstring;
  brand : list jsstring;
  country : option jsstring;
  region : option jsstring;
  city : option jsstring;
  imei : option jsstring;
  phoneNumber : option jsstring
}.

(** [filterCategories]. *)
Definition statusValues : list jsstring := Server.statusCategories.
Definition deviceTypeValues : list jsstring :=
  [js "smartphone"; js "tablet"; js "laptop"; js "smartwatch"; js "earbuds";
   js "other"].
Definition brandValues : list jsstring :=
  [js "apple"; js "samsung"; js "huawei"; js "xiaomi"; js "oppo"; js "vivo";
   js "oneplus"; js "google"; js "sony"; js "lg"; js "other"].

(** What [timeRanges[name]] reads: the days of a named range, a property
    every object inherits (truthy, without [days]), or [undefined]. *)
Inductive RangeLookup :=
| Days (days : Z)
| Inherited
| Missing.

Definition objectPrototypeKeys : list jsstring :=
  [js "constructor"; js "__defineGetter__"; js "__defineSetter__";
   js "hasOwnProperty"; js "__lookupGetter__"; js "__lookupSetter__";
   js "isPrototypeOf"; js "propertyIsEnumerable"; js "toString";
   js "valueOf"; js "__proto__"; js "toLocaleString"].

Definition timeRanges (name : jsstring) : RangeLookup :=
  if strEqb name (js "today") then Days 0
  else if strEqb name (js "yesterday") then Days 1
  else if strEqb name (js "last_week") then Days 7
  else if strEqb name (js "last_month") then Days 30
  else if strEqb name (js "last_3_months") then Days 90
  else if strEqb name (js "last_6_months") then Days 180
  else if strEqb name (js "last_year") then Days 365
  else if bool_decide (name ∈ objectPrototypeKeys) then Inherited
  else Missing.

(** A condition with its parameters. *)
Definition Condition : Type := jsstring * list jsstring.

(** ["%" + text + "%"]. *)
Definition like (text : jsstring) : jsstring := js "%" ++ text ++ js "%".

(** [buildDateRangeCondition].  [cutoff days] is the day, written
    YYYY-MM-DD, that lies [days] days before now.  The result is [None] when
    [toISOString] throws: the range read is an inherited property, its
    [days] are [undefined] and the date is invalid.  The condition is
    [None] for [null]. *)
Definition buildDateRangeCondition (cutoff : Z → jsstring) (filters : Filters)
  : option (option jsstring * list jsstring) :=
  let named :=
    if strTruthy (timeRange filters)
    then timeRanges (default [] (timeRange filters)) else Missing in
  match named with
  | Inherited => None
  | Days days =>
      Some (Some (js "(" ++ join (js " AND ") [js "created_at >= ?"] ++ js ")"),
            [cutoff days])
  | Missing =>
      let fromPart :=
        if strTruthy (dateFrom filters)
        then [(js "created_at >= ?", default [] (dateFrom filters))] else [] in
      let toPart :=
        if strTruthy (dateTo filters)
        then [(js "created_at <= ?", default [] (dateTo filters))] else [] in
      let conditions := fst <$> (fromPart ++ toPart) in
      let params := snd <$> (fromPart ++ toPart) in
      Some (if (0 <? length conditions)%nat
            then Some (js "(" ++ join (js " AND ") conditions ++ js ")")
            else None,
            params)
  end.

Definition buildStatusCondition (statusArray : list jsstring) : Condition :=
  let validStatuses :=
    filter (λ st, toLowerCase st ∈ statusValues) statusArray in
  if bool_decide (validStatuses = []) then (js "1=1", [])
  else
    let placeholders := join (js ",") ((λ _, js "?") <$> validStatuses) in
    (js "status IN (" ++ placeholders ++ js ")", validStatuses).

Definition buildDeviceTypeCondition (deviceTypes : list jsstring)
  : Condition :=
  let validTypes :=
    filter (λ type, toLowerCase type ∈ deviceTypeValues) deviceTypes in
  if bool_decide (validTypes = []) then (js "1=1", [])
  else
    let conditions := (λ _, js "device_type LIKE ?") <$> validTypes in
    (js "(" ++ join (js " OR ") conditions ++ js ")", like <$> validTypes).

Definition buildBrandCondition (brands : list jsstring) : Condition :=
  let validBrands :=
    filter (λ b, toLowerCase b ∈ brandValues) brands in
  if bool_decide (validBrands = []) then (js "1=1", [])
  else
    let conditions := (λ _, js "brand LIKE ?") <$> validBrands in
    (js "(" ++ join (js " OR ") conditions ++ js ")", like <$> validBrands).

(** The conditions of [buildLocationCondition] with their parameters. *)
Definition locationParts (filters : Filters) : list (jsstring * jsstring) :=
  (if strTruthy (country filters)
   then [(js "country LIKE ?", like (default [] (country filters)))] else [])
  ++ (if strTruthy (region filters)
      then [(js "region_state LIKE ?", like (default [] (region filters)))]
      else [])
  ++ (if strTruthy (city filters)
      then [(js "city LIKE ?", like (default [] (city filters)))] else []).

Definition buildLocationCondition (filters : Filters) : Condition :=
  let conditions := fst <$> locationParts filters in
  let params := snd <$> locationParts filters in
  (if (0 <? length conditions)%nat
   then js "(" ++ join (js " AND ") conditions ++ js ")"
   else js "1=1",
   params).

Record FilterConditions := {
  whereClause : jsstring;
  params : list jsstring
}.

(** [buildFilterConditions]; [None] when the date range throws. *)
Definition buildFilterConditions (cutoff : Z → jsstring) (filters : Filters)
  : option FilterConditions :=
  dates ←
    (if strTruthy (dateFrom filters) || strTruthy (dateTo filters)
        || strTruthy (timeRange filters)
     then
       dateCondition ← buildDateRangeCondition cutoff filters;
       Some match dateCondition.1 with
            | Some condition => [(condition, dateCondition.2)]
            | None => []
            end
     else Some []);
  let statuses :=
    if (0 <? length (status filters))%nat
    then [buildStatusCondition (status filters)] else [] in
  let devices :=
    if (0 <? length (deviceType filters))%nat
    then [buildDeviceTypeCondition (deviceType filters)] else [] in
  let brands :=
    if (0 <? length (brand filters))%nat
    then [buildBrandCondition (brand filters)] else [] in
  let locations :=
    if strTruthy (country filters) || strTruthy (region filters)
       || strTruthy (city filters)
    then [buildLocationCondition filters] else [] in
  let imeis :=
    if strTruthy (imei filters)
    then [(js "imei LIKE ?", [like (default [] (imei filters))])] else [] in
  let phones :=
    if strTruthy (phoneNumber filters)
    then [(js "phone_number LIKE ?",
           [like (default [] (phoneNumber filters))])] else [] in
  let parts :=
    dates ++ statuses ++ devices ++ brands ++ locations ++ imeis ++ phones in
  let conditions := fst <$> parts in
  Some {| whereClause :=
            if (0 <? length conditions)%nat
            then js "WHERE " ++ join (js " AND ") conditions else [];
          params := mjoin (snd <$> parts) |}.

Definition optimizeOrderBy (orderBy : jsstring) (filters : Filters)
  : jsstring :=
  if strTruthy (dateFrom filters) || strTruthy (dateTo filters)
     || strTruthy (timeRange filters)
  then js "created_at DESC, id DESC"
  else if strTruthy (country filters) || strTruthy (region filters)
          || strTruthy (city filters)
  then js "country, region_state, city, created_at DESC"
  else if strFalsy orderBy then js "created_at DESC, id DESC" else orderBy.

Inductive Complexity := simple | moderate | complex.

Record FilterSummary := {
  activeFilters : nat;
  filterTypes : list string;
  complexity : Complexity
}.

(** The keys of [filters], in the order of the object, with the test of
    [generateFilterSummary] on each value. *)
Definition activeKeys (filters : Filters) : list (string * bool) :=
  [("dateFrom", strTruthy (dateFrom filters));
   ("dateTo", strTruthy (dateTo filters));
   ("timeRange", strTruthy (timeRange filters));
   ("status", (0 <? length (status filters))%nat);
   ("deviceType", (0 <? length (deviceType filters))%nat);
   ("brand", (0 <? length (brand filters))%nat);
   ("country", strTruthy (country filters));
   ("region", strTruthy (region filters));
   ("city", strTruthy (city filters));
   ("imei", strTruthy (imei filters));
   ("phoneNumber", strTruthy (phoneNumber filters))]%string.

Definition generateFilterSummary (filters : Filters) : FilterSummary :=
  let active := fst <$> filter (λ key, key.2 = true) (activeKeys filters) in
  let count := length active in
  {| activeFilters := count;
     filterTypes := active;
     complexity := if (5 <? count)%nat then complex
                   else if (2 <? count)%nat then moderate
                   else simple |}.

(** [validateFilters]: the list of errors; [isValid] says it is empty. *)
Definition validateFilters `{JsBuiltins} (now : num) (filters : Filters)
  : list jsstring :=
  Server.validateFilters now (dateFrom filters) (dateTo filters)
                         (status filters).

End AdvancedFilters.

(* ===================================================================== *)
(** * The queries the handler sends *)
(* ===================================================================== *)

Module QueryText.
Import QueryOptimizer GeospatialSearch Server QueryPlanner.

(** Arithmetic of numbers that may be infinite or NaN.  A zero is taken as
    positive zero. *)
Definition sign (x : R) : comparison :=
  if Rlt_dec 0 x then Gt else if Rlt_dec x 0 then Lt else Eq.

Definition numNeg (x : num) : num :=
  match x with
  | Fin a => Fin (- a)
  | PosInf => NegInf
  | NegInf => PosInf
  | NaN => NaN
  end.

Definition numAdd (x y : num) : num := numSub x (numNeg y).

Definition infinite (positive : bool) : num :=
  if positive then PosInf else NegInf.

Definition numMul (x y : num) : num :=
  match x, y with
  | NaN, _ | _, NaN => NaN
  | Fin a, Fin b => Fin (a * b)
  | Fin a, PosInf | PosInf, Fin a =>
      match sign a with Gt => PosInf | Lt => NegInf | Eq => NaN end
  | Fin a, NegInf | NegInf, Fin a =>
      match sign a with Gt => NegInf | Lt => PosInf | Eq => NaN end
  | PosInf, PosInf | NegInf, NegInf => PosInf
  | PosInf, NegInf | NegInf, PosInf => NegInf
  end.

Definition numDiv (x y : num) : num :=
  match x, y with
  | NaN, _ | _, NaN => NaN
  | Fin a, Fin b =>
      match sign b with
      | Eq => match sign a with Gt => PosInf | Lt => NegInf | Eq => NaN end
      | _ => Fin (a / b)
      end
  | Fin _, (PosInf | NegInf) => Fin 0
  | PosInf, Fin b => match sign b with Lt => NegInf | _ => PosInf end
  | NegInf, Fin b => match sign b with Lt => PosInf | _ => NegInf end
  | _, _ => NaN
  end.

Definition numCos (x : num) : num :=
  match x with Fin a => Fin (cos a) | _ => NaN end.

(** [createBoundingBox] on any numbers: [minLat], [maxLat], [minLon],
    [maxLon]. *)
Definition createBoundingBoxN (centerLat centerLon radiusKm : num)
  : list num :=
  let latDegreePerKm := numDiv (Fin 1) (Fin 111.32) in
  let lonDegreePerKm :=
    numDiv (Fin 1)
      (numMul (Fin 111.32) (numCos (numMul centerLat (Fin (PI / 180))))) in
  let latOffset := numMul radiusKm latDegreePerKm in
  let lonOffset := numMul radiusKm lonDegreePerKm in
  [numSub centerLat latOffset; numAdd centerLat latOffset;
   numSub centerLon lonOffset; numAdd centerLon lonOffset].

(** [s.replace(pattern, replacement)] for a string pattern: the first
    occurrence only. *)
Fixpoint replaceFirst (s pattern replacement : jsstring) : jsstring :=
  if startsWith pattern s then replacement ++ drop (length pattern) s
  else match s with
       | [] => []
       | c :: s' => c :: replaceFirst s' pattern replacement
       end.

(** [advancedFilterParams]. *)
Definition filtersOf (q : gmap string jsstring) : AdvancedFilters.Filters :=
  {| AdvancedFilters.dateFrom := q !! "dateFrom";
     AdvancedFilters.dateTo := q !! "dateTo";
     AdvancedFilters.timeRange := q !! "timeRange";
     AdvancedFilters.status := arrayParam (q !! "status");
     AdvancedFilters.deviceType := arrayParam (q !! "deviceType");
     AdvancedFilters.brand := arrayParam (q !! "brand");
     AdvancedFilters.country := q !! "country";
     AdvancedFilters.region := q !! "region";
     AdvancedFilters.city := q !! "city";
     AdvancedFilters.imei := q !! "imei";
     AdvancedFilters.phoneNumber := q !! "phoneNumber" |}.

(** A condition pushed on [whereConditions] with what it pushes on
    [params]. *)
Definition Part : Type := jsstring * list value.

(** The geographic filters: the bounding box, or else the location. *)
Definition geographicParts (p : Plan) (q : gmap string jsstring) : list Part :=
  if useGeospatial p then
    [(js "(latitude BETWEEN ? AND ? AND longitude BETWEEN ? AND ?)",
      VNum <$> createBoundingBoxN (centerLat p) (centerLon p)
                                  (searchRadius p))]
  else
    (if strTruthy (q !! "country")
     then [(js "country LIKE ?",
            [VStr (AdvancedFilters.like (default [] (q !! "country")))])]
     else [])
    ++ (if strTruthy (q !! "region")
        then [(js "region_state LIKE ?",
               [VStr (AdvancedFilters.like (default [] (q !! "region")))])]
        else [])
    ++ (if strTruthy (q !! "city")
        then [(js "city LIKE ?",
               [VStr (AdvancedFilters.like (default [] (q !! "city")))])]
        else []).

(** The filter of the search query, by the [switch] on [type]. *)
Definition queryParts (p : Plan) : list Part :=
  if strTruthy (query p) then
    let pattern := VStr (AdvancedFilters.like (default [] (query p))) in
    if bool_decide (type p = Some (js "phone")) then
      if useFuzzy p
      then [(js "(phone_number IS NOT NULL OR contact_phone IS NOT NULL)", [])]
      else [(js "(phone_number LIKE ? OR contact_phone LIKE ?)",
             [pattern; pattern])]
    else if bool_decide (type p = Some (js "imei")) then
      if useFuzzy p
      then [(js "imei IS NOT NULL", [])]
      else [(js "imei LIKE ?", [pattern])]
    else if bool_decide (type p = Some (js "email")) then
      [(js "email LIKE ?", [pattern])]
    else if useFuzzy p || usePhonetic p then
      [(js "(phone_number IS NOT NULL OR imei IS NOT NULL OR email IS NOT NULL OR brand IS NOT NULL OR model IS NOT NULL OR description IS NOT NULL OR location_lost IS NOT NULL OR contact_name IS NOT NULL)",
        [])]
    else
      [(js "(phone_number LIKE ? OR imei LIKE ? OR email LIKE ? OR brand LIKE ? OR model LIKE ? OR description LIKE ? OR location_lost LIKE ? OR contact_name LIKE ?)",
        replicate 8 pattern)]
  else [].

(** The part the advanced filters add, if any; [None] when building them
    throws. *)
Definition advancedParts (cutoff : Z → jsstring) (q : gmap string jsstring)
  : option (list Part) :=
  if hasAdvancedFilters q then
    conditions ← AdvancedFilters.buildFilterConditions cutoff (filtersOf q);
    Some (if strFalsy (AdvancedFilters.whereClause conditions) then []
          else [(js "(" ++ replaceFirst
                             (AdvancedFilters.whereClause conditions)
                             (js "WHERE ") []
                 ++ js ")",
                 VStr <$> AdvancedFilters.params conditions)])
  else Some [].

(** [whereConditions] and [params] when the first query is sent. *)
Definition whereParts (cutoff : Z → jsstring) (p : Plan)
    (q : gmap string jsstring) : option (list Part) :=
  let parts := geographicParts p q ++ queryParts p in
  let parts := if (length parts =? 0)%nat then [(js "1=1", [])] else parts in
  advanced ← advancedParts cutoff q;
  Some (parts ++ advanced).

Record Queries := {
  sql : jsstring;
  foundSql : jsstring;
  params : list value
}.

(** The column names of [lost_phones] rewritten for [found_phones]. *)
Definition forFound (condition : jsstring) : jsstring :=
  replaceFirst
    (replaceFirst
       (replaceFirst condition (js "location_lost") (js "location_found"))
       (js "contact_name") (js "finder_name"))
    (js "contact_phone") (js "finder_contact").

(** The two statements and the parameters both are run with. *)
Definition buildQueries `{JsBuiltins} (cutoff : Z → jsstring)
    (q : gmap string jsstring) : option Queries :=
  let p := plan q in
  parts ← whereParts cutoff p q;
  let whereConditions := fst <$> parts in
  let options :=
    {| orderBy := AdvancedFilters.optimizeOrderBy (js "created_at DESC")
                    (filtersOf q);
       limit := Some (validLimit p * 3);
       useIndex := true |} in
  Some {| sql := optimizeQuery
                   (js "SELECT * FROM lost_phones WHERE "
                    ++ join (js " AND ") whereConditions) options;
          foundSql := optimizeQuery
                        (js "SELECT * FROM found_phones WHERE "
                         ++ join (js " AND ") (forFound <$> whereConditions))
                        options;
          params := mjoin (snd <$> parts) |}.

(** The handler with the construction of its queries: [None] is the
    exception that, past the cache, the advanced filters may throw before
    any query is sent. *)
Definition searchRoute `{JsBuiltins} (cutoff : Z → jsstring) (now : num)
    (cache : Cache) (db : Store) (q : gmap string jsstring)
  : option (Response * Cache) :=
  let errors :=
    validateFilters now (q !! "dateFrom") (q !! "dateTo")
                    (arrayParam (q !! "status")) in
  if (0 <? length errors)%nat || missingCriteria q
     || bool_decide (is_Some (cachedFor cache q))
  then Some (search now cache db q)
  else
    _ ← buildQueries cutoff q;
    Some (search now cache db q).

End QueryText.

(* ===================================================================== *)
(** * The recurrence behind the distance matrix *)
(* ===================================================================== *)

Module EditRecurrence.

(** The value [matrix[i][j]] as a function of the two prefixes it compares,
    each written last character first: the recurrence that the loops of
    [levenshteinDistance] tabulate. *)
Fixpoint lev (ra rb : jsstring) {struct ra} : nat :=
  match ra with
  | [] => length rb
  | a :: ra' =>
      (fix inner (rb : jsstring) : nat :=
         match rb with
         | [] => S (length ra')
         | b :: rb' =>
             if (a =? b)%N then lev ra' rb'
             else Nat.min (lev ra' rb' + 1)
                    (Nat.min (inner rb' + 1) (lev ra' (b :: rb') + 1))
         end) rb
  end.

(** The cells of the row of prefix [ra] to the right of the column of
    prefix [rp], one for each further character of [rest]. *)
Fixpoint levRow (ra rp rest : jsstring) : list nat :=
  match rest with
  | [] => []
  | d :: rest' => lev ra (d :: rp) :: levRow ra (d :: rp) rest'
  end.

End EditRecurrence.

(* ===================================================================== *)
(** * Vocabulary of the properties and sample data *)
(* ===================================================================== *)

Module Samples.
Import FuzzySearch QueryOptimizer GeospatialSearch Server.

(** Row [i] of the matrix never exceeds [max i j] in column [j]. *)
Definition rowBounded (i : nat) (row : list nat) : Prop :=
  ∀ k x, row !! k = Some x → (x ≤ Nat.max i k)%nat.

(** A latitude and a longitude inside the geographic range. *)
Definition validPair (lat lon : num) : Prop :=
  ∃ a b : R, lat = Fin a ∧ lon = Fin b
             ∧ (-90 <= a <= 90)%R ∧ (-180 <= b <= 180)%R.

(** No textual coordinate field of the record passes the guard
    [if (record[field])]; so it is for the rows of both tables, which have
    no such column. *)
Definition noTextCoordinates (record : Row) : bool :=
  forallb (λ field, negb (truthy (record !! field))) coordinateFields.

(** A search around (14.6, 120.98) with a radius of 5 km, and a found
    report at (14.64, 121.02): inside the bounding box of the query, about
    6.2 km from the centre. *)
Definition nearManila : gmap string jsstring :=
  {[ "lat"%string := js "14.6"; "lon"%string := js "120.98";
     "radius"%string := js "5" ]}.

Definition cornerReport : Row :=
  {[ "id"%string := VNum (Fin 7);
     "latitude"%string := VNum (Fin 14.64);
     "longitude"%string := VNum (Fin 121.02) ]}.

(** A store whose second table cannot be read. *)
Definition lostReport : Row :=
  {[ "id"%string := VNum (Fin 1);
     "brand"%string := VStr (js "iPhone");
     "contact_name"%string := VStr (js "Ana") ]}.

Definition halfBroken : Store :=
  λ table, match table with
           | LostPhones => ScanRows [lostReport]
           | FoundPhones => ScanError (js "SQLITE_ERROR: no such table")
           end.

Definition byBrand : gmap string jsstring :=
  {[ "query"%string := js "iphone"; "fuzzy"%string := js "false" ]}.

End Samples.
Export Samples.

(* ===================================================================== *)
(** * One engine *)
(* ===================================================================== *)

(** An inhabitant of [JsBuiltins] on which the examples run.  It reads plain
    decimal literals (no exponent, no radix prefix), takes a date to be its
    time value written in decimal, sorts by stable insertion, and prints
    only the numbers that are not finite. *)
Module Engine.

Fixpoint takeDigits (s : jsstring) : list N * jsstring :=
  match s with
  | c :: s' =>
      if isDigit c
      then let '(ds, rest) := takeDigits s' in (c :: ds, rest)
      else ([], s)
  | [] => ([], [])
  end.

Definition digitsToZ (ds : list N) : Z :=
  foldl (λ acc c, acc * 10 + Z.of_N (c - 48)) 0 ds.

Definition takeSign (s : jsstring) : bool * jsstring :=
  match s with
  | 45%N :: rest => (true, rest)
  | 43%N :: rest => (false, rest)
  | _ => (false, s)
  end.

(** The longest decimal prefix of [s] and what follows it. *)
Definition readDecimal (s : jsstring) : num * jsstring :=
  let '(negative, s1) := takeSign (trimStart s) in
  if startsWith (js "Infinity") s1
  then (if negative then NegInf else PosInf, drop 8 s1)
  else
    let '(whole, s2) := takeDigits s1 in
    let '(frac, s3) :=
      match s2 with
      | 46%N :: s2' => takeDigits s2'
      | _ => ([], s2)
      end in
    match whole ++ frac with
    | [] => (NaN, s)
    | ds =>
        let m := digitsToZ ds in
        (Fin (IZR (if negative then - m else m)
              / IZR (10 ^ Z.of_nat (length frac))), s3)
    end.

Definition readInt (s : jsstring) : option Z :=
  let '(negative, s1) := takeSign (trimStart s) in
  match fst (takeDigits s1) with
  | [] => None
  | ds => Some (if negative then - digitsToZ ds else digitsToZ ds)
  end.

Definition readNumber (s : jsstring) : num :=
  if strFalsy (trim s) then Fin 0
  else
    let '(x, rest) := readDecimal s in
    if strFalsy (trim rest) then x else NaN.

Definition printNum (x : num) : jsstring :=
  match x with
  | PosInf => js "Infinity"
  | NegInf => js "-Infinity"
  | NaN => js "NaN"
  | Fin _ => js "?"
  end.

Definition readDate (v : option value) : num :=
  match v with
  | Some (VStr s) => readNumber s
  | Some (VNum x) => x
  | _ => NaN
  end.

(** Stable insertion sort: [x] moves right past every [y] with
    [c x y > 0]. *)
Fixpoint insert {A} (c : A → A → num) (x : A) (l : list A) : list A :=
  match l with
  | [] => [x]
  | y :: l' => if numLt (Fin 0) (c x y) then y :: insert c x l' else x :: l
  end.

Definition insertionSort {A} (c : A → A → num) (l : list A) : list A :=
  foldr (insert c) [] l.

#[export, refine] Instance builtins : JsBuiltins := {|
  parseFloat s := fst (readDecimal s);
  parseInt := readInt;
  toNumber := readNumber;
  numToString := printNum;
  dateValue := readDate;
  sort A c l := insertionSort c l
|}.
Proof.
  intros A c l.
  assert (∀ x k, insert c x k ≡ₚ x :: k) as Hinsert.
  { intros x k. induction k as [|y k IH]; cbn [insert]; [reflexivity|].
    destruct (numLt (Fin 0) (c x y)); [|reflexivity].
    rewrite IH. apply Permutation_swap. }
  induction l as [|x l IH]; cbn [insertionSort foldr]; [reflexivity|].
  rewrite Hinsert. by rewrite IH.
Defined.

End Engine.

(* ===================================================================== *)
(** * Further vocabulary *)
(* ===================================================================== *)

Module Terms.
Import QueryOptimizer Server.

(** The parameters [generateCacheKey] reads. *)
Definition keyParams : list string :=
  ["query"; "type"; "country"; "region"; "city"; "fuzzy"; "threshold";
   "phonetic"; "lat"; "lon"; "radius"; "page"; "limit"]%string.

(** The number of [?] in the text of a statement. *)
Definition placeholders (text : jsstring) : nat :=
  length (filter (λ c, c = 63%N) (text : list N)).

(** A condition with as many [?] as it has parameters. *)
Definition balanced {B} (part : jsstring * list B) : Prop :=
  placeholders part.1 = length part.2.

(** [byBrand] with a brand filter added. *)
Definition onlyApple : gmap string jsstring :=
  <["brand"%string := js "Apple"]> byBrand.

(** A store whose two tables can be read. *)
Definition bothTables : Store :=
  λ table, match table with
           | LostPhones => ScanRows [lostReport]
           | FoundPhones => ScanRows []
           end.

(** A request whose [timeRange] names a property that every object
    inherits. *)
Definition inheritedRange : gmap string jsstring :=
  {[ "query"%string := js "iphone"; "timeRange"%string := js "constructor" ]}.

End Terms.
Export Terms.


(* ===================================================================== *)
(** * Properties of the fuzzy search utilities *)
(* ===================================================================== *)

Section EditDistance.
Import FuzzySearch.

Lemma fillRow_bound c str2 :
  ∀ diag left ups i j,
    (diag ≤ Nat.max i j)%nat →
    (∀ k u, ups !! k = Some u → (u ≤ Nat.max i (S j + k))%nat) →
    ∀ k x, fillRow c str2 diag left ups !! k = Some x →
           (x ≤ Nat.max (S i) (S j + k))%nat.
Proof.
  induction str2 as [|d str2 IH]; intros diag left ups i j Hd Hups k x;
    [done|].
  destruct ups as [|up ups]; [done|]. cbn [fillRow].
  destruct k as [|k]; cbn [lookup list_lookup].
  - intros [= <-]. destruct (c =? d)%N; lia.
  - intros Hx. pose proof (Hups 0%nat up eq_refl) as Hup.
    eapply (IH up _ ups i (S j)) in Hx; [lia|lia|].
    intros k' u Hu. specialize (Hups (S k') u Hu). lia.
Qed.

Lemma nextRow_bound i c str2 prev :
  rowBounded i prev → rowBounded (S i) (nextRow (S i) c str2 prev).
Proof.
  intros Hprev k x. destruct prev as [|diag ups]; cbn [nextRow].
  - destruct k; [|done]. intros [= <-]. lia.
  - destruct k as [|k]; cbn [lookup list_lookup].
    + intros [= <-]. lia.
    + intros Hx. pose proof (Hprev 0%nat diag eq_refl) as Hd.
      eapply (fillRow_bound c str2 diag (S i) ups i 0%nat) in Hx; [lia|lia|].
      intros k' u Hu. apply (Hprev (S k') u Hu).
Qed.

Lemma fillMatrix_bound str2 :
  ∀ str1 i prev,
    rowBounded i prev →
    rowBounded (i + length str1) (fillMatrix i str1 str2 prev).
Proof.
  induction str1 as [|c str1 IH]; intros i prev Hprev; cbn [fillMatrix length].
  - by rewrite Nat.add_0_r.
  - replace (i + S (length str1))%nat with (S i + length str1)%nat by lia.
    apply IH. by apply nextRow_bound.
Qed.

(** The distance never exceeds the length of the longer string. *)
Lemma levenshteinDistance_le_max str1 str2 :
  (levenshteinDistance str1 str2
   ≤ Nat.max (length str1) (length str2))%nat.
Proof.
  unfold levenshteinDistance.
  destruct (strFalsy str1 || strFalsy str2); [lia|].
  destruct (fillMatrix 0 str1 str2 (seq 0 (S (length str2))) !! length str2)
    as [x|] eqn:Hx; cbn [default]; [|lia].
  eapply (fillMatrix_bound str2 str1 0%nat) in Hx; [exact Hx|].
  intros k y Hy. apply lookup_seq in Hy. lia.
Qed.
End EditDistance.

Example levenshteinDistance_kitten :
  FuzzySearch.levenshteinDistance (js "kitten") (js "sitting") = 3%nat.
Proof. vm_compute. reflexivity. Qed.

Example soundex_case_stable :
  FuzzySearch.soundex (js "Smith") = FuzzySearch.soundex (js "SMITH").
Proof. vm_compute. reflexivity. Qed.

Section Similarity.
Import FuzzySearch.

(** The last line of [calculateSimilarity] as a function of the two
    lengths it reads. *)
Lemma score_le_100 (m d : nat) :
  m ≠ 0%nat →
  (((inject_Z (Z.of_nat m) - inject_Z (Z.of_nat d))
    / inject_Z (Z.of_nat m)) * 100 <= 100)%Q.
Proof.
  intros Hm. destruct m as [|m]; [done|].
  change (Z.of_nat (S m)) with (Z.pos (Pos.of_succ_nat m)).
  generalize (Pos.of_succ_nat m) as p. intros p.
  unfold Qle, Qdiv, Qmult, Qminus, Qplus, Qopp, Qinv, inject_Z.
  cbn [Qnum Qden Pos.mul]. lia.
Qed.

Lemma score_ge_0 (m d : nat) :
  m ≠ 0%nat → (d ≤ m)%nat →
  (0 <= ((inject_Z (Z.of_nat m) - inject_Z (Z.of_nat d))
         / inject_Z (Z.of_nat m)) * 100)%Q.
Proof.
  intros Hm Hd. destruct m as [|m]; [done|].
  assert (Z.of_nat d ≤ Z.pos (Pos.of_succ_nat m)) as Hd' by lia.
  change (Z.of_nat (S m)) with (Z.pos (Pos.of_succ_nat m)).
  revert Hd'. generalize (Pos.of_succ_nat m) as p. intros p Hd'.
  unfold Qle, Qdiv, Qmult, Qminus, Qplus, Qopp, Qinv, inject_Z.
  cbn [Qnum Qden Pos.mul]. lia.
Qed.

(** No score is above 100. *)
Lemma calculateSimilarity_le_100 str1 str2 :
  (calculateSimilarity str1 str2 <= 100)%Q.
Proof.
  unfold calculateSimilarity.
  destruct (strFalsy str1 || strFalsy str2); [done|].
  destruct (Nat.max (length str1) (length str2) =? 0)%nat eqn:Hm.
  - apply Qle_refl.
  - apply Nat.eqb_neq in Hm. by apply score_le_100.
Qed.

(** A score is not negative when lower-casing does not lengthen the longer
    string. *)
Lemma calculateSimilarity_ge_0 str1 str2 :
  (Nat.max (length (toLowerCase str1)) (length (toLowerCase str2))
   ≤ Nat.max (length str1) (length str2))%nat →
  (0 <= calculateSimilarity str1 str2)%Q.
Proof.
  intros Hlen. unfold calculateSimilarity.
  destruct (strFalsy str1 || strFalsy str2); [done|].
  destruct (Nat.max (length str1) (length str2) =? 0)%nat eqn:Hm; [done|].
  apply Nat.eqb_neq in Hm. apply score_ge_0; [done|].
  etrans; [apply levenshteinDistance_le_max|done].
Qed.

(** Lower-casing keeps the length of a string without U+0130, so of every
    ASCII string. *)
Lemma toLowerCase_length s :
  304%N ∉ s → length (toLowerCase s) = length s.
Proof.
  induction s as [|c s IH]; [done|]. intros Hc.
  apply not_elem_of_cons in Hc as [Hc Hs].
  unfold toLowerCase in *. cbn [mbind list_bind]. rewrite length_app, IH by done.
  unfold lowerUnit. repeat case_match; try done.
  apply N.eqb_eq in H1. congruence.
Qed.
End Similarity.

Section SimilarityClaims.
Import FuzzySearch.

(** When exactly one of the two strings is empty the score is 0. *)
Lemma calculateSimilarity_one_empty str :
  calculateSimilarity [] str = 0%Q ∧ calculateSimilarity str [] = 0%Q.
Proof.
  split; [reflexivity|].
  unfold calculateSimilarity. by rewrite orb_true_r.
Qed.

(** C2.  Two empty strings are both falsy, so the first guard of
    [calculateSimilarity] answers 0 before the test [maxLength === 0],
    which would answer 100, is reached. *)
Theorem calculateSimilarity_both_empty :
  calculateSimilarity [] [] = 0%Q ∧ ¬ (calculateSimilarity [] [] == 100)%Q.
Proof. split; [reflexivity|]. vm_compute. discriminate. Qed.

(** C8.  [maxLength] is read before the strings are lower-cased: for the
    two-unit string U+0130 U+0130 against "xy" the lower-cased form has
    four units, the distance is 4 and the score is -100. *)
Theorem calculateSimilarity_negative :
  (calculateSimilarity [304; 304]%N (js "xy") == -100)%Q
  ∧ (calculateSimilarity [304; 304]%N (js "xy") < 0)%Q.
Proof. split; vm_compute; reflexivity. Qed.

(** On strings without U+0130 the score lies in [[0,100]]. *)
Lemma calculateSimilarity_range str1 str2 :
  304%N ∉ str1 → 304%N ∉ str2 →
  (0 <= calculateSimilarity str1 str2 <= 100)%Q.
Proof.
  intros H1 H2. split; [|apply calculateSimilarity_le_100].
  apply calculateSimilarity_ge_0. by rewrite !toLowerCase_length.
Qed.

(** The best score kept by [multiFieldFuzzySearch] starts at 0 and is only
    replaced by a larger one, so it lies in [[0,100]] for every input. *)
Lemma bestMatch_range `{JsBuiltins} searchTerm (result : Row) fields :
  (0 <= fst (bestMatch searchTerm result fields) <= 100)%Q.
Proof.
  unfold bestMatch.
  assert (0 <= fst (0%Q, @None string) <= 100)%Q as Hinit by done.
  revert Hinit. generalize (0%Q, @None string).
  induction fields as [|field fields IH]; intros best Hbest; [done|].
  cbn [foldl]. apply IH.
  destruct (truthy (result !! field)); [|done].
  destruct (Qle_bool _ (fst best)) eqn:Hle; cbn [negb]; [done|].
  cbn [fst]. split; [|apply calculateSimilarity_le_100].
  destruct (Qlt_le_dec (fst best)
              (calculateSimilarity searchTerm (toStringV (result !! field))))
    as [Hlt|Hge].
  - eapply Qle_trans; [apply Hbest|by apply Qlt_le_weak].
  - apply Qle_bool_iff in Hge. congruence.
Qed.

(** Every [_similarity] attached by [multiFieldFuzzySearch] to a result it
    ranks lies in [[0,100]]. *)
Lemma multiFieldFuzzySearch_scores `{JsBuiltins}
    (results : list Row) searchTerm fields threshold (item : Row) :
  strFalsy searchTerm = false →
  item ∈ multiFieldFuzzySearch results searchTerm fields threshold →
  ∃ q, item !! "_similarity" = Some (VRat q) ∧ (0 <= q <= 100)%Q.
Proof.
  intros Hterm. unfold multiFieldFuzzySearch. rewrite Hterm. cbn [orb].
  case_bool_decide as Hnil; [subst; by intros ?%elem_of_nil|].
  rewrite sort_perm. intros (result & _ & Hitem)%list_elem_of_omap.
  pose proof (bestMatch_range searchTerm result fields) as Hrange.
  destruct (bestMatch searchTerm result fields) as [q f].
  destruct (Qle_bool threshold q); [|done].
  injection Hitem as <-. exists q. split; [|done].
  rewrite lookup_insert_ne by done. by rewrite lookup_insert_eq.
Qed.

Lemma startsWith_app p r : startsWith p (p ++ r) = true.
Proof.
  induction p as [|c p IH]; [done|]. cbn. by rewrite N.eqb_refl, IH.
Qed.

Lemma includes_app k p r : includes (k ++ p ++ r) p = true.
Proof.
  induction k as [|c k IH]; cbn [app].
  - destruct (p ++ r) eqn:E; cbn [includes]; rewrite <- E;
      by rewrite startsWith_app.
  - cbn [includes]. rewrite IH. apply orb_true_r.
Qed.

Lemma includes_suffix s p : p `suffix_of` s → includes s p = true.
Proof.
  intros [k ->]. rewrite <- (app_nil_r p) at 1. apply includes_app.
Qed.

(** C9.  When the shorter of the two normalised phone numbers is a suffix
    of the longer and has at least 7 digits, [isPhoneSimilar] is true
    whatever the threshold. *)
Theorem isPhoneSimilar_suffix phone1 phone2 (threshold : Q) :
  (normalizePhoneNumber phone2 `suffix_of` normalizePhoneNumber phone1
   ∧ (7 ≤ length (normalizePhoneNumber phone2))%nat)
  ∨ (normalizePhoneNumber phone1 `suffix_of` normalizePhoneNumber phone2
     ∧ (7 ≤ length (normalizePhoneNumber phone1))%nat) →
  isPhoneSimilar phone1 phone2 threshold = true.
Proof.
  intros Hsuffix. unfold isPhoneSimilar.
  destruct (strEqb _ _); [done|].
  assert ((includes (normalizePhoneNumber phone1) (normalizePhoneNumber phone2)
           || includes (normalizePhoneNumber phone2)
                       (normalizePhoneNumber phone1))
          && (7 <=? Nat.min (length (normalizePhoneNumber phone1))
                            (length (normalizePhoneNumber phone2)))%nat
          = true) as ->; [|done].
  apply andb_true_iff.
  destruct Hsuffix as [[Hs Hlen]|[Hs Hlen]];
    pose proof (suffix_length _ _ Hs) as Hle;
    (split; [rewrite (includes_suffix _ _ Hs); by rewrite ?orb_true_r
            |apply Nat.leb_le; lia]).
Qed.

(** The example of the specification: "+1 555 123 4567" against
    "5551234567" at threshold 85. *)
Lemma isPhoneSimilar_suffix_witness :
  ((normalizePhoneNumber (js "5551234567")
      `suffix_of` normalizePhoneNumber (js "+1 555 123 4567")
    ∧ (7 ≤ length (normalizePhoneNumber (js "5551234567")))%nat)
   ∨ (normalizePhoneNumber (js "+1 555 123 4567")
        `suffix_of` normalizePhoneNumber (js "5551234567")
      ∧ (7 ≤ length (normalizePhoneNumber (js "+1 555 123 4567")))%nat))
  ∧ isPhoneSimilar (js "+1 555 123 4567") (js "5551234567") 85 = true.
Proof.
  assert (normalizePhoneNumber (js "5551234567")
            `suffix_of` normalizePhoneNumber (js "+1 555 123 4567")
          ∧ (7 ≤ length (normalizePhoneNumber (js "5551234567")))%nat) as Hs.
  { split; [exists [49%N]; vm_compute; reflexivity|vm_compute; lia]. }
  split; [by left|].
  apply (isPhoneSimilar_suffix (js "+1 555 123 4567") (js "5551234567") 85).
  by left.
Defined.
End SimilarityClaims.

(* ===================================================================== *)
(** * Properties of the query optimizer *)
(* ===================================================================== *)

Section Pagination.
Import QueryOptimizer.

(** C5, as the specification words it: page 2 of 50 items at 20 per page
    would have no next page.  The handler computes three pages, so page 2
    has one. *)
Lemma paginateResults_page2_has_next :
  ¬ (let page2 := paginateResults (seq 0 50) 2 20 in
     let page3 := paginateResults (seq 0 50) 3 20 in
     length (data page2) = 20%nat
     ∧ current_page (pagination page2) = 2
     ∧ has_previous (pagination page2) = true
     ∧ has_next (pagination page2) = false
     ∧ length (data page3) = 10%nat
     ∧ has_next (pagination page3) = false).
Proof. vm_compute. intros (_ & _ & _ & Hnext & _). discriminate. Qed.

(** C5, amended: page 2 of 50 items at 20 per page holds 20 items, is page
    2, has a previous page and has a next page; page 3 holds the last 10
    items and has no next page. *)
Theorem paginateResults_fifty {A} (results : list A) :
  length results = 50%nat →
  let page2 := paginateResults results 2 20 in
  let page3 := paginateResults results 3 20 in
  length (data page2) = 20%nat
  ∧ current_page (pagination page2) = 2
  ∧ has_previous (pagination page2) = true
  ∧ has_next (pagination page2) = true
  ∧ length (data page3) = 10%nat
  ∧ has_next (pagination page3) = false.
Proof.
  intros Hlen. unfold paginateResults, slice, ceilDiv.
  cbn [data pagination current_page has_previous has_next].
  rewrite !length_take, !length_drop, !Hlen. vm_compute. done.
Qed.

Lemma paginateResults_fifty_witness :
  length (seq 0 50) = 50%nat
  ∧ (let page2 := paginateResults (seq 0 50) 2 20 in
     let page3 := paginateResults (seq 0 50) 3 20 in
     length (data page2) = 20%nat
     ∧ current_page (pagination page2) = 2
     ∧ has_previous (pagination page2) = true
     ∧ has_next (pagination page2) = true
     ∧ length (data page3) = 10%nat
     ∧ has_next (pagination page3) = false).
Proof.
  split; [reflexivity|].
  apply (paginateResults_fifty (seq 0 50)). reflexivity.
Defined.
End Pagination.

Section Coordinates.
Import QueryOptimizer.
Context `{JsBuiltins}.

Lemma numLt_Fin_false a b : numLt (Fin a) (Fin b) = false → (b <= a)%R.
Proof. cbn. destruct (Rlt_dec a b); [done|lra]. Qed.

Lemma invalidCoordinates_false lat lon :
  invalidCoordinates lat lon = false → validPair lat lon.
Proof.
  unfold invalidCoordinates. rewrite !orb_false_iff.
  intros (((((Hn1 & Hn2) & H1) & H2) & H3) & H4).
  destruct lat as [a| | |]; try done; destruct lon as [b| | |]; try done.
  exists a, b. repeat split; try done; by apply numLt_Fin_false.
Qed.

Lemma lookup_if_insert (b : bool) (k k' : string) (v : value)
    (m : gmap string value) :
  k ≠ k' → (if b then <[k := v]> m else m) !! k' = m !! k'.
Proof. intros. destruct b; [by rewrite lookup_insert_ne|done]. Qed.

(** What [optimizeSearchParams] leaves under ["lat"] and ["lon"]: nothing
    when both were supplied and the pair is invalid, else the strings of
    the request. *)
Lemma optimizeSearchParams_lat_lon (q : gmap string jsstring) (k : string) :
  k = "lat"%string ∨ k = "lon"%string →
  optimizeSearchParams q !! k =
    if strTruthy (q !! "lat") && strTruthy (q !! "lon")
       && invalidCoordinates (parseFloat (default [] (q !! "lat")))
                             (parseFloat (default [] (q !! "lon")))
    then None else VStr <$> q !! k.
Proof.
  intros Hk. unfold optimizeSearchParams.
  rewrite !lookup_if_insert by done. rewrite !lookup_fmap.
  assert (∀ s : option jsstring, truthy (VStr <$> s) = strTruthy s) as Ht
    by (by intros [?|]).
  assert (∀ s : option jsstring,
            parseFloatV (VStr <$> s) = parseFloat (default [] s)
            ∨ strTruthy s = false) as Hp
    by (intros [?|]; [by left|by right]).
  rewrite !Ht.
  destruct (strTruthy (q !! "lat")) eqn:Hlat; cbn [andb];
    [|destruct Hk as [-> | ->];
      by rewrite !lookup_if_insert, lookup_fmap by done].
  destruct (strTruthy (q !! "lon")) eqn:Hlon; cbn [andb];
    [|destruct Hk as [-> | ->];
      by rewrite !lookup_if_insert, lookup_fmap by done].
  destruct (Hp (q !! "lat")) as [-> | ?]; [|congruence].
  destruct (Hp (q !! "lon")) as [-> | ?]; [|congruence].
  destruct (invalidCoordinates _ _).
  - destruct Hk as [-> | ->].
    + rewrite lookup_delete_ne by done. by rewrite lookup_delete_eq.
    + by rewrite lookup_delete_eq.
  - destruct Hk as [-> | ->];
      by rewrite !lookup_if_insert, lookup_fmap by done.
Qed.
End Coordinates.

Section CoordinateClaims.
Import QueryOptimizer.

(** C6, as the specification words it, fails on a request that carries a
    latitude and no longitude: the guard [optimized.lat && optimized.lon]
    skips the validation, and the latitude stays, here out of range. *)
Lemma optimizeSearchParams_lone_latitude :
  let out := optimizeSearchParams (H := Engine.builtins)
               {[ "lat"%string := js "95" ]} in
  ¬ (is_Some (out !! "lat") ↔ is_Some (out !! "lon")).
Proof.
  intros out [Hlon _].
  assert (out !! "lat" = Some (VStr (js "95"))) as Hlat
    by (vm_compute; reflexivity).
  assert (out !! "lon" = None) as Hnone by (vm_compute; reflexivity).
  destruct Hlon as [v Hv]; [by eexists|]. congruence.
Qed.

(** A coordinate that comes without the other one is left as it is. *)
Lemma optimizeSearchParams_lone `{JsBuiltins} (q : gmap string jsstring) :
  strTruthy (q !! "lat") && strTruthy (q !! "lon") = false →
  optimizeSearchParams q !! "lat" = VStr <$> q !! "lat"
  ∧ optimizeSearchParams q !! "lon" = VStr <$> q !! "lon".
Proof.
  intros Hboth.
  rewrite (optimizeSearchParams_lat_lon q "lat") by (by left).
  rewrite (optimizeSearchParams_lat_lon q "lon") by (by right).
  by rewrite Hboth.
Qed.

(** C6, amended: when the request carries both a latitude and a longitude
    (neither empty), the output contains a latitude if and only if it
    contains a longitude, and a pair that is kept parses to
    [-90 <= lat <= 90] and [-180 <= lon <= 180]. *)
Theorem optimizeSearchParams_pair `{JsBuiltins} (q : gmap string jsstring) :
  strTruthy (q !! "lat") = true →
  strTruthy (q !! "lon") = true →
  let out := optimizeSearchParams q in
  (is_Some (out !! "lat") ↔ is_Some (out !! "lon"))
  ∧ (is_Some (out !! "lat") →
     validPair (parseFloatV (out !! "lat")) (parseFloatV (out !! "lon"))).
Proof.
  intros Hlat Hlon out. subst out.
  rewrite (optimizeSearchParams_lat_lon q "lat") by (by left).
  rewrite (optimizeSearchParams_lat_lon q "lon") by (by right).
  rewrite Hlat, Hlon. cbn [andb].
  destruct (q !! "lat") as [lat|]; [|done].
  destruct (q !! "lon") as [lon|]; [|done].
  cbn [default fmap option_fmap option_map].
  destruct (invalidCoordinates _ _) eqn:Hvalid.
  - split; [by split; intros [? [=]]|by intros [? [=]]].
  - split; [by split; eexists|].
    intros _. by apply invalidCoordinates_false.
Qed.

Lemma optimizeSearchParams_pair_witness :
  let q : gmap string jsstring :=
    {[ "lat"%string := js "14.6"; "lon"%string := js "120.98" ]} in
  strTruthy (q !! "lat") = true
  ∧ strTruthy (q !! "lon") = true
  ∧ (let out := optimizeSearchParams (H := Engine.builtins) q in
     (is_Some (out !! "lat") ↔ is_Some (out !! "lon"))
     ∧ (is_Some (out !! "lat") →
        validPair (parseFloatV (H := Engine.builtins) (out !! "lat"))
                  (parseFloatV (H := Engine.builtins) (out !! "lon")))).
Proof.
  intros q. split; [reflexivity|]. split; [reflexivity|].
  apply (optimizeSearchParams_pair (H := Engine.builtins) q); reflexivity.
Defined.
End CoordinateClaims.

Section CacheKey.
Import QueryOptimizer Server.

(** C3.  A request without [fuzzy] and the same request with
    [fuzzy=true], the default of the handler, are planned alike, yet their
    cache keys differ: the key writes a missing [fuzzy] as "false". *)
Theorem generateCacheKey_default_fuzzy `{JsBuiltins} :
  let absent : gmap string jsstring := {[ "query"%string := js "iphone" ]} in
  let explicit : gmap string jsstring :=
    {[ "query"%string := js "iphone"; "fuzzy"%string := js "true" ]} in
  plan absent = plan explicit
  ∧ generateCacheKey (optimizeSearchParams absent)
    = js "search:iphone:all:no-country:no-region:no-city:false:70:false:no-lat:no-lon:10:1:50"
  ∧ generateCacheKey (optimizeSearchParams explicit)
    = js "search:iphone:all:no-country:no-region:no-city:true:70:false:no-lat:no-lon:10:1:50"
  ∧ generateCacheKey (optimizeSearchParams absent)
    ≠ generateCacheKey (optimizeSearchParams explicit).
Proof.
  assert (∀ a b c : jsstring, b ≠ c → a = b → a ≠ c) as Hne by congruence.
  repeat split; try (vm_compute; reflexivity).
  eapply Hne; [|vm_compute; reflexivity]. vm_compute. discriminate.
Qed.

(** The same slip the other way round: a request that turns fuzzy search
    off shares its key with the request that leaves it on by default. *)
Lemma generateCacheKey_collision `{JsBuiltins} :
  let absent : gmap string jsstring := {[ "query"%string := js "iphone" ]} in
  let off : gmap string jsstring :=
    {[ "query"%string := js "iphone"; "fuzzy"%string := js "false" ]} in
  useFuzzy (plan absent) = true
  ∧ useFuzzy (plan off) = false
  ∧ generateCacheKey (optimizeSearchParams absent)
    = generateCacheKey (optimizeSearchParams off).
Proof. repeat split; vm_compute; reflexivity. Qed.
Lemma clamp_radius_10 :
  numMin (Fin 1000) (numMax (Fin (1 / 10)) (numOr (Fin 10) (Fin 10))) = Fin 10.
Proof.
  unfold numOr, numTruthy. destruct (Req_dec_T 10 0); [lra|].
  unfold numMax, numMin, isNaN, numLe. cbn [orb].
  destruct (Rle_dec (1 / 10) 10); [|lra].
  destruct (Rle_dec 1000 10); [lra|done].
Qed.

(** The other defaults of the key are those of the handler: on an engine
    that reads "70" and "10" as 70 and 10 and prints 10 as "10", spelling
    out the threshold, the phonetic switch, the radius, the page and the
    page size leaves the plan and the key as they were. *)
Lemma generateCacheKey_other_defaults `{JsBuiltins} :
  parseInt (js "70") = Some 70 →
  parseFloat (js "10") = Fin 10 →
  numToString (Fin 10) = js "10" →
  let absent : gmap string jsstring := {[ "query"%string := js "iphone" ]} in
  let explicit : gmap string jsstring :=
    {[ "query"%string := js "iphone"; "threshold"%string := js "70";
       "phonetic"%string := js "false"; "radius"%string := js "10";
       "page"%string := js "1"; "limit"%string := js "50" ]} in
  plan absent = plan explicit
  ∧ generateCacheKey (optimizeSearchParams absent)
    = generateCacheKey (optimizeSearchParams explicit).
Proof.
  intros Hint Hfloat Hprint absent explicit.
  split; [vm_compute; reflexivity|].
  assert (optimizeSearchParams explicit =
          <["radius"%string := VNum (numMin (Fin 1000) (numMax (Fin (1 / 10))
               (numOr (parseFloat (js "10")) (Fin 10))))]>
          (<["threshold"%string := VRat (inject_Z (Z.min 100 (Z.max 0
               (intOr (parseInt (js "70")) 70))))]>
           (<["query"%string := VStr (js "iphone")]> (VStr <$> explicit)))) as ->
    by reflexivity.
  rewrite Hint, Hfloat, clamp_radius_10.
  unfold generateCacheKey.
  repeat (rewrite lookup_insert_eq || rewrite lookup_insert_ne by done).
  assert (keyPart (Some (VNum (Fin 10))) "10" = js "10") as ->.
  { unfold keyPart, truthy, numTruthy, toStringV.
    destruct (Req_dec_T 10 0); [lra|]. exact Hprint. }
  vm_compute. reflexivity.
Qed.
End CacheKey.

(* ===================================================================== *)
(** * Properties of the geospatial module *)
(* ===================================================================== *)

Section Haversine.
Import GeospatialSearch.
Local Open Scope R_scope.

(** Bounds on [PI] from the first terms of Machin's series. *)
Lemma PI_upper : PI < 3.1421.
Proof.
  destruct (PI_2_3_7_ineq 1) as [_ Hub].
  unfold sum_f_R0, tg_alt, PI_2_3_7_tg, Ratan_seq in Hub.
  simpl in Hub. lra.
Qed.

Lemma PI_lower : 3.1415 < PI.
Proof.
  destruct (PI_2_3_7_ineq 1) as [Hlb _].
  unfold sum_f_R0, tg_alt, PI_2_3_7_tg, Ratan_seq in Hlb.
  simpl in Hlb. lra.
Qed.

Lemma atan2_sin_cos x : 0 <= x < PI / 2 → atan2 (sin x) (cos x) = x.
Proof.
  intros [Hx0 Hx1]. unfold atan2.
  assert (0 < cos x) as Hcos by (apply cos_gt_0; lra).
  destruct (Rlt_dec 0 (cos x)); [|lra].
  change (sin x / cos x) with (tan x). apply atan_tan. lra.
Qed.

(** Along a meridian, going north by less than 180 degrees, the formula
    returns the arc length: the Earth radius times the angle. *)
Lemma haversine_meridian lat1 lat2 lon :
  0 <= lat2 - lat1 < 180 →
  haversine lat1 lon lat2 lon = 6371 * toRadians (lat2 - lat1).
Proof.
  intros [Hlo Hhi]. unfold haversine.
  pose proof PI_RGT_0 as Hpi.
  set (x := toRadians (lat2 - lat1) / 2).
  assert (0 <= x < PI / 2) as Hx.
  { unfold x, toRadians. split; [|nra].
    apply Rmult_le_pos; [|lra]. apply Rmult_le_pos; lra. }
  replace (toRadians (lon - lon) / 2) with 0
    by (unfold toRadians; lra).
  rewrite sin_0, !Rmult_0_r, Rplus_0_r.
  assert (0 <= sin x) as Hsin by (apply sin_ge_0; lra).
  assert (0 < cos x) as Hcos by (apply cos_gt_0; lra).
  replace (1 - sin x * sin x) with (cos x * cos x)
    by (pose proof (sin2_cos2 x) as Hsc; unfold Rsqr in Hsc; lra).
  rewrite !sqrt_square by lra.
  rewrite atan2_sin_cos by done. unfold x. lra.
Qed.

(** C4.  Around the centre (10, 10) with a radius of 10 km, the point
    (10.0899, 10) is closer than 10 km to the centre, and north of the
    box: the box takes 111.32 km for a degree of latitude, the distance
    6371 * PI / 180, which is less. *)
Theorem createBoundingBox_excludes_inner_point :
  let box := createBoundingBox 10 10 10 in
  calculateDistance (Fin 10) (Fin 10) (Fin 10.0899) (Fin 10)
    = Fin (6371 * toRadians (10.0899 - 10))
  ∧ 6371 * toRadians (10.0899 - 10) < 10
  ∧ maxLat box < 10.0899.
Proof.
  pose proof PI_upper as Hpi. pose proof PI_RGT_0 as Hpos.
  split; [|split].
  - unfold calculateDistance, numTruthy.
    repeat match goal with
           | |- context [Req_dec_T ?a ?b] => destruct (Req_dec_T a b); [lra|]
           end.
    cbn [negb orb]. f_equal. apply haversine_meridian. lra.
  - unfold toRadians. lra.
  - unfold createBoundingBox. cbn [maxLat]. lra.
Qed.
(** The same holds around every centre and for every radius: the point
    [r / 111.25] degrees north of the centre is closer than [r] and north
    of the box. *)
Lemma createBoundingBox_too_short lat lon r :
  0 < r < 20000 →
  haversine lat lon (lat + r / 111.25) lon < r
  ∧ maxLat (createBoundingBox lat lon r) < lat + r / 111.25.
Proof.
  intros Hr. pose proof PI_upper as Hpi. pose proof PI_RGT_0 as Hpos.
  split.
  - rewrite haversine_meridian by lra. unfold toRadians.
    assert (6371 * (1 / 111.25 * (PI / 180)) < 1) as Hk by lra.
    replace (6371 * ((lat + r / 111.25 - lat) * (PI / 180)))
      with (r * (6371 * (1 / 111.25 * (PI / 180)))) by (field; lra).
    nra.
  - unfold createBoundingBox. cbn [maxLat]. lra.
Qed.

(** Lower bounds of the sine and the cosine from their series. *)
Lemma sin_lower x lo : 0 <= lo → lo <= x → x <= PI / 2 → sin_lb lo <= sin x.
Proof.
  intros H0 H1 H2. pose proof PI_RGT_0.
  eapply Rle_trans; [apply SIN; lra|].
  apply sin_incr_1; lra.
Qed.

Lemma cos_lower x hi : 0 <= x → x <= hi → hi <= PI / 2 → cos_lb hi <= cos x.
Proof.
  intros H0 H1 H2. pose proof PI_RGT_0.
  eapply Rle_trans; [apply COS; lra|].
  apply cos_decr_1; lra.
Qed.

(** The angle [atan2 (sqrt a) (sqrt (1 - a))] grows with [a]: it exceeds
    every [t] whose tangent is below a lower bound of [sqrt a]. *)
Lemma atan2_sqrt_lower a s t :
  0 < s → s * s <= a → 0 < t < PI / 2 → tan t < s →
  t < atan2 (sqrt a) (sqrt (1 - a)).
Proof.
  intros Hs Ha Ht Htan.
  assert (s <= sqrt a) as Hsa.
  { rewrite <- (sqrt_square s) by lra. apply sqrt_le_1_alt. lra. }
  pose proof (sqrt_pos (1 - a)) as Hx0.
  unfold atan2. destruct (Rlt_dec 0 (sqrt (1 - a))) as [Hx|Hx].
  - assert (sqrt (1 - a) <= 1) as Hx1.
    { rewrite <- sqrt_1 at 2. apply sqrt_le_1_alt. nra. }
    assert (sqrt a <= sqrt a / sqrt (1 - a)) as Hu.
    { apply (Rmult_le_reg_r (sqrt (1 - a))); [lra|].
      replace (sqrt a / sqrt (1 - a) * sqrt (1 - a)) with (sqrt a)
        by (field; lra).
      nra. }
    rewrite <- (atan_tan t) at 1 by lra.
    apply atan_increasing. lra.
  - destruct (Rlt_dec (sqrt (1 - a)) 0); [lra|].
    destruct (Rlt_dec 0 (sqrt a)); lra.
Qed.

Lemma tan_5_km : tan (5 / 12742) < 0.000485.
Proof.
  pose proof PI_RGT_0. pose proof PI_lower as Hpi.
  assert (sin (5 / 12742) < 5 / 12742) as Hsin by (apply sin_lt_x; lra).
  assert (0.9999 <= cos (5 / 12742)) as Hcos.
  { eapply Rle_trans; [|apply (cos_lower (5 / 12742) (5 / 12742)); lra].
    unfold cos_lb, cos_approx, sum_f_R0, cos_term. simpl. lra. }
  unfold tan. apply (Rmult_lt_reg_r (cos (5 / 12742))); [lra|].
  replace (sin (5 / 12742) / cos (5 / 12742) * cos (5 / 12742))
    with (sin (5 / 12742)) by (field; lra).
  nra.
Qed.

Lemma cos_manila :
  0.9675 <= cos (toRadians 14.6) <= 1 ∧ 0.9675 <= cos (toRadians 14.64).
Proof.
  pose proof PI_lower as Hlo. pose proof PI_upper as Hhi.
  assert (0.9675 <= cos_lb 0.2556) as Hlb
    by (unfold cos_lb, cos_approx, sum_f_R0, cos_term; simpl; lra).
  pose proof (COS_bound (toRadians 14.6)) as [_ Hle].
  repeat split; try done;
    (eapply Rle_trans; [apply Hlb|]; apply cos_lower; unfold toRadians; lra).
Qed.

(** The corner of a box: (14.64, 121.02) is more than 5 km away from
    (14.6, 120.98), and inside the box drawn around it for 5 km. *)
Lemma corner_outside_radius : 5 < haversine 14.6 120.98 14.64 121.02.
Proof.
  pose proof PI_lower as Hlo. pose proof PI_upper as Hhi.
  destruct cos_manila as [[Hc1 _] Hc2].
  unfold haversine.
  replace (toRadians (121.02 - 120.98) / 2) with (toRadians (14.64 - 14.6) / 2)
    by (unfold toRadians; lra).
  set (x := toRadians (14.64 - 14.6) / 2).
  assert (0.000349 <= x <= 0.00035) as Hx by (unfold x, toRadians; lra).
  assert (0.00034899 <= sin x) as Hsin.
  { eapply Rle_trans; [|apply (sin_lower x 0.000349); lra].
    unfold sin_lb, sin_approx, sum_f_R0, sin_term. simpl. lra. }
  set (a := sin x * sin x
            + cos (toRadians 14.6) * cos (toRadians 14.64) * sin x * sin x).
  assert (0.000485 * 0.000485 <= a) as Ha.
  { assert (0.00034899 * 0.00034899 <= sin x * sin x) as Hss by nra.
    assert (0.9675 * 0.9675 * (0.00034899 * 0.00034899)
            <= cos (toRadians 14.6) * cos (toRadians 14.64) * (sin x * sin x))
      as Hprod by (apply Rmult_le_compat; nra).
    unfold a. lra. }
  assert (5 / 12742 < atan2 (sqrt a) (sqrt (1 - a))) as Hc.
  { apply (atan2_sqrt_lower a 0.000485); [lra|lra|lra|apply tan_5_km]. }
  lra.
Qed.

Lemma corner_inside_box :
  let box := createBoundingBox 14.6 120.98 5 in
  minLat box <= 14.64 <= maxLat box ∧ minLon box <= 121.02 <= maxLon box.
Proof.
  destruct cos_manila as [[Hc1 Hc] _].
  unfold createBoundingBox. cbn [minLat maxLat minLon maxLon].
  set (c := cos (toRadians 14.6)) in *.
  assert (5 / 111.32 <= 5 * (1 / (111.32 * c))) as Hoff.
  { apply (Rmult_le_reg_r (111.32 * c)); [lra|].
    replace (5 * (1 / (111.32 * c)) * (111.32 * c)) with 5 by (field; lra).
    nra. }
  lra.
Qed.
End Haversine.

Section ZeroCoordinates.
Import QueryOptimizer GeospatialSearch.
Context `{JsBuiltins}.

Lemma firstParsed_none (record : Row) fields :
  forallb (λ field, negb (truthy (record !! field))) fields = true →
  firstParsed record fields = None.
Proof.
  induction fields as [|field fields IH]; [done|].
  cbn [forallb firstParsed]. intros [Hf Hrest]%andb_true_iff.
  apply negb_true_iff in Hf. rewrite Hf. by apply IH.
Qed.

Lemma numTruthy_zero : numTruthy (Fin 0) = false.
Proof. cbn. destruct (Req_dec_T 0 0); [done|lra]. Qed.

(** A zero among the four arguments takes the guard of
    [calculateDistance]. *)
Lemma calculateDistance_zero lat1 lon1 lat2 lon2 :
  lat1 = Fin 0 ∨ lon1 = Fin 0 ∨ lat2 = Fin 0 ∨ lon2 = Fin 0 →
  calculateDistance lat1 lon1 lat2 lon2 = PosInf.
Proof.
  unfold calculateDistance.
  intros [-> | [-> | [-> | ->]]]; rewrite numTruthy_zero; cbn [negb];
    by rewrite ?orb_true_r.
Qed.

(** Coordinates with a zero, whatever field they were read from, are
    never within a finite radius. *)
Lemma annotate_zero centerLat centerLon radiusKm (record : Row) lat lon :
  extractCoordinates record = Some (lat, lon) →
  lat = Fin 0 ∨ lon = Fin 0 →
  radiusKm ≠ PosInf →
  annotate centerLat centerLon radiusKm record = None.
Proof.
  intros Hc Hz Hr. unfold annotate. rewrite Hc.
  rewrite calculateDistance_zero by tauto.
  by destruct radiusKm.
Qed.

(** C10.  A zero argument makes [calculateDistance] infinite; a record
    whose stored latitude or longitude is the number 0 has no coordinates
    for [extractCoordinates]; and [filterByProximity] passes over it. *)
Theorem zero_coordinate_is_missing (record : Row) (records : list Row)
    (centerLat centerLon radiusKm : num) :
  noTextCoordinates record = true →
  record !! "latitude" = Some (VNum (Fin 0))
  ∨ record !! "longitude" = Some (VNum (Fin 0)) →
  (∀ lat1 lon1 lat2 lon2,
      lat1 = Fin 0 ∨ lon1 = Fin 0 ∨ lat2 = Fin 0 ∨ lon2 = Fin 0 →
      calculateDistance lat1 lon1 lat2 lon2 = PosInf)
  ∧ extractCoordinates record = None
  ∧ filterByProximity (record :: records) centerLat centerLon radiusKm
    = filterByProximity records centerLat centerLon radiusKm.
Proof.
  intros Htext Hzero.
  assert (extractCoordinates record = None) as Hnone.
  { unfold extractCoordinates.
    rewrite (firstParsed_none record coordinateFields Htext).
    destruct Hzero as [-> | ->]; cbn [truthy]; rewrite numTruthy_zero;
      by rewrite ?andb_false_r. }
  split; [exact calculateDistance_zero|]. split; [exact Hnone|].
  unfold filterByProximity. cbn [omap list_omap].
  unfold annotate at 1. by rewrite Hnone.
Qed.
End ZeroCoordinates.

(** A report filed on the equator, against a search around (0.01, 120.98). *)
Lemma zero_coordinate_is_missing_witness :
  let record : Row :=
    {[ "id"%string := VNum (Fin 1); "latitude"%string := VNum (Fin 0);
       "longitude"%string := VNum (Fin 120.98) ]} in
  noTextCoordinates record = true
  ∧ (record !! "latitude" = Some (VNum (Fin 0))
     ∨ record !! "longitude" = Some (VNum (Fin 0)))
  ∧ GeospatialSearch.extractCoordinates (H := Engine.builtins) record = None
  ∧ GeospatialSearch.filterByProximity (H := Engine.builtins)
      [record] (Fin 0.01) (Fin 120.98) (Fin 10) = [].
Proof.
  intros record.
  assert (noTextCoordinates record = true) as Htext by reflexivity.
  assert (record !! "latitude" = Some (VNum (Fin 0))
          ∨ record !! "longitude" = Some (VNum (Fin 0))) as Hzero
    by (left; reflexivity).
  destruct (zero_coordinate_is_missing (H := Engine.builtins)
              record [] (Fin 0.01) (Fin 120.98) (Fin 10) Htext Hzero)
    as (_ & Hnone & Hskip).
  split; [exact Htext|]. split; [exact Hzero|]. split; [exact Hnone|].
  rewrite Hskip. reflexivity.
Defined.

(* ===================================================================== *)
(** * Properties of the search handler *)
(* ===================================================================== *)

Section Proximity.
Import GeospatialSearch Server.
Context `{JsBuiltins}.

(** Every record that [filterByProximity] returns was read within the
    radius and carries its rounded distance. *)
Lemma filterByProximity_sound (records : list Row)
    (centerLat centerLon radiusKm : num) (item : Row) :
  item ∈ filterByProximity records centerLat centerLon radiusKm →
  ∃ record lat lon,
    record ∈ records
    ∧ extractCoordinates record = Some (lat, lon)
    ∧ numLe (calculateDistance centerLat centerLon lat lon) radiusKm = true
    ∧ item !! "distance_km"
      = Some (VNum (round2 (calculateDistance centerLat centerLon lat lon))).
Proof.
  unfold filterByProximity. rewrite sort_perm.
  intros (record & Hin & Hitem)%list_elem_of_omap.
  unfold annotate in Hitem.
  destruct (extractCoordinates record) as [[lat lon]|] eqn:Hc; [|done].
  destruct (numLe _ radiusKm) eqn:Hle; [|done].
  injection Hitem as <-. exists record, lat, lon.
  repeat split; try done.
  rewrite lookup_insert_ne by done. by rewrite lookup_insert_eq.
Qed.

(** The lost half of C1: in a geospatial search every result read from
    [lost_phones] is within the radius and carries [distance_km]. *)
Lemma lostPass_within_radius (p : Plan) (rows : list Row) (item : Row) :
  useGeospatial p = true →
  needsGeospatialProcessing p = true →
  item ∈ lostPass p rows →
  ∃ lat lon,
    numLe (calculateDistance (centerLat p) (centerLon p) lat lon)
          (searchRadius p) = true
    ∧ item !! "distance_km"
      = Some (VNum (round2 (calculateDistance (centerLat p) (centerLon p)
                                              lat lon))).
Proof.
  intros Hgeo Hneeds. unfold lostPass. rewrite Hgeo, Hneeds. cbn [andb].
  intros (record & lat & lon & _ & _ & Hle & Hd)%filterByProximity_sound.
  by exists lat, lon.
Qed.

Lemma plan_needsGeospatial (q : gmap string jsstring) :
  needsGeospatialProcessing (plan q) = useGeospatial (plan q).
Proof. unfold plan. by repeat case_match. Qed.

(** C1.  The callback for [found_phones] has no proximity pass: a row the
    second query returns, once past the fuzzy and phonetic passes, enters
    the merged result set tagged [found_phones] with whatever it held
    under [distance_km], which is nothing for a row of the table. *)
Theorem found_results_skip_proximity (p : Plan)
    (results foundRows : list Row) (row : Row) :
  useGeospatial p = true →
  row ∈ foundPass p foundRows →
  row !! "distance_km" = None →
  ∃ item,
    item ∈ combine p results (foundPass p foundRows)
    ∧ item !! "source" = Some (VStr (js "found_phones"))
    ∧ item !! "distance_km" = None.
Proof.
  intros _ Hrow Hnone. exists (tagSource "found_phones" row).
  split; [|split].
  - unfold combine. rewrite sort_perm. apply elem_of_app. right.
    by apply list_elem_of_fmap_2.
  - unfold tagSource. by rewrite lookup_insert_eq.
  - unfold tagSource. by rewrite lookup_insert_ne.
Qed.
End Proximity.

Section PartialFailure.
Import QueryOptimizer Server.
Context `{JsBuiltins}.

(** The branch of the inner callback taken on an error. *)
Lemma runQueries_found_error (p : Plan) (db : Store) rows message :
  db LostPhones = ScanRows rows →
  db FoundPhones = ScanError message →
  runQueries p db =
    ({| status := 200;
        body := PartialBody (lostPass p rows) []
                  (searchInfo p (length (lostPass p rows))) |}, None).
Proof. intros Hl Hf. unfold runQueries. by rewrite Hl, Hf. Qed.

(** Past the construction of the statements: the answer when the second
    scan fails. *)
Lemma search_second_scan_error (now : num) (cache : Cache) (db : Store)
    (q : gmap string jsstring) (rows : list Row) (message : jsstring) :
  validateFilters now (q !! "dateFrom") (q !! "dateTo")
                  (arrayParam (q !! "status")) = [] →
  missingCriteria q = false →
  cachedFor cache q = None →
  db LostPhones = ScanRows rows →
  db FoundPhones = ScanError message →
  search now cache db q =
    ({| status := 200;
        body := PartialBody (lostPass (plan q) rows) []
                  (searchInfo (plan q) (length (lostPass (plan q) rows))) |},
     cache).
Proof.
  intros Hvalid Hcrit Hmiss Hl Hf. unfold search.
  rewrite Hvalid, Hcrit, Hmiss. cbn [length Nat.ltb Nat.leb].
  by rewrite (runQueries_found_error _ _ _ _ Hl Hf).
Qed.

(** The handler reaches its scans exactly when it does not stop before
    them: on a request that passes validation, names a criterion and is
    not answered from the cache, it answers as [search] does if the
    statements can be built, and throws otherwise. *)
Lemma searchRoute_past_cache (cutoff : Z → jsstring) (now : num)
    (cache : Cache) (db : Store) (q : gmap string jsstring) :
  validateFilters now (q !! "dateFrom") (q !! "dateTo")
                  (arrayParam (q !! "status")) = [] →
  missingCriteria q = false →
  cachedFor cache q = None →
  QueryText.searchRoute cutoff now cache db q =
    match QueryText.buildQueries cutoff q with
    | Some _ => Some (search now cache db q)
    | None => None
    end.
Proof.
  intros Hvalid Hcrit Hmiss. unfold QueryText.searchRoute.
  rewrite Hvalid, Hcrit, Hmiss. cbn [length Nat.ltb Nat.leb orb].
  rewrite bool_decide_eq_false_2 by (by intros [? ?]).
  by destruct (QueryText.buildQueries cutoff q).
Qed.

(** The statements are built unless [timeRange] names a property that
    every object inherits. *)
Lemma buildQueries_is_Some (cutoff : Z → jsstring) (q : gmap string jsstring) :
  AdvancedFilters.timeRanges (default [] (q !! "timeRange"))
    ≠ AdvancedFilters.Inherited →
  is_Some (QueryText.buildQueries cutoff q).
Proof.
  intros Hrange.
  assert (is_Some (AdvancedFilters.buildDateRangeCondition cutoff
                     (QueryText.filtersOf q))) as [dates Hdates].
  { unfold AdvancedFilters.buildDateRangeCondition.
    cbn [AdvancedFilters.timeRange QueryText.filtersOf].
    match goal with
    | |- context [if strTruthy ?given then _ else AdvancedFilters.Missing] =>
        destruct (strTruthy given)
    end; [|by eexists].
    match goal with
    | |- context [AdvancedFilters.timeRanges ?name] =>
        destruct (AdvancedFilters.timeRanges name) eqn:Hnamed
    end; [by eexists| |by eexists].
    exfalso. apply Hrange. exact Hnamed. }
  assert (is_Some (AdvancedFilters.buildFilterConditions cutoff
                     (QueryText.filtersOf q))) as [conditions Hc].
  { unfold AdvancedFilters.buildFilterConditions. rewrite Hdates.
    match goal with
    | |- context [if ?given then _ else Some []] => destruct given
    end; by eexists. }
  unfold QueryText.buildQueries, QueryText.whereParts,
    QueryText.advancedParts.
  rewrite Hc. destruct (hasAdvancedFilters q); by eexists.
Qed.

(** C7.  For a request that passes validation, names a criterion, is not
    answered from the cache and for which the handler has built the two
    statements it sends: when the query on [lost_phones] returns rows and
    the query on [found_phones] fails, the handler answers with status 200,
    the processed lost results and an empty found list, and writes nothing
    to the cache. *)
Theorem search_found_scan_failure (cutoff : Z → jsstring) (now : num)
    (cache : Cache) (db : Store) (q : gmap string jsstring)
    (queries : QueryText.Queries) (rows : list Row) (message : jsstring) :
  validateFilters now (q !! "dateFrom") (q !! "dateTo")
                  (arrayParam (q !! "status")) = [] →
  missingCriteria q = false →
  cachedFor cache q = None →
  QueryText.buildQueries cutoff q = Some queries →
  db LostPhones = ScanRows rows →
  db FoundPhones = ScanError message →
  QueryText.searchRoute cutoff now cache db q =
    Some ({| status := 200;
             body := PartialBody (lostPass (plan q) rows) []
                       (searchInfo (plan q)
                          (length (lostPass (plan q) rows))) |},
          cache).
Proof.
  intros Hvalid Hcrit Hmiss Hbuilt Hl Hf.
  rewrite searchRoute_past_cache by done. rewrite Hbuilt. f_equal.
  by apply (search_second_scan_error now cache db q rows message).
Qed.
End PartialFailure.

Section HandlerExamples.
Import QueryOptimizer GeospatialSearch Server.

Lemma found_results_skip_proximity_witness :
  let p := plan (H := Engine.builtins) nearManila in
  useGeospatial p = true
  ∧ cornerReport ∈ foundPass (H := Engine.builtins) p [cornerReport]
  ∧ cornerReport !! "distance_km" = None
  ∧ ∃ item : Row,
      item ∈ combine (H := Engine.builtins) p []
               (foundPass (H := Engine.builtins) p [cornerReport])
      ∧ item !! "source" = Some (VStr (js "found_phones"))
      ∧ item !! "distance_km" = None.
Proof.
  intros p.
  assert (useGeospatial p = true) as Hgeo by reflexivity.
  assert (cornerReport ∈ foundPass (H := Engine.builtins) p [cornerReport])
    as Hin by (apply list_elem_of_singleton; reflexivity).
  assert (cornerReport !! "distance_km" = None) as Hnone by reflexivity.
  split; [exact Hgeo|]. split; [exact Hin|]. split; [exact Hnone|].
  exact (found_results_skip_proximity (H := Engine.builtins)
           p [] [cornerReport] cornerReport Hgeo Hin Hnone).
Defined.

(** What the handler reads from that request. *)
Lemma nearManila_plan :
  let p := plan (H := Engine.builtins) nearManila in
  centerLat p = Fin 14.6 ∧ centerLon p = Fin 120.98 ∧ searchRadius p = Fin 5.
Proof.
  repeat split; try reflexivity.
  transitivity (numOr (Fin (5 / 1)) (Fin 10)); [reflexivity|].
  unfold numOr, numTruthy.
  destruct (Req_dec_T (5 / 1) 0) as [Hz|_]; [lra|]. f_equal. lra.
Qed.

(** The report lies in the bounding box the query is built from, so the
    store returns it, and it is farther away than the radius. *)
Lemma cornerReport_outside_radius :
  let p := plan (H := Engine.builtins) nearManila in
  extractCoordinates (H := Engine.builtins) cornerReport
    = Some (Fin 14.64, Fin 121.02)
  ∧ numLe (calculateDistance (centerLat p) (centerLon p)
             (Fin 14.64) (Fin 121.02)) (searchRadius p) = false.
Proof.
  intros p. subst p.
  pose proof nearManila_plan as Hplan. cbv zeta in Hplan.
  destruct Hplan as (-> & -> & ->). split.
  - unfold extractCoordinates.
    assert (firstParsed (H := Engine.builtins) cornerReport coordinateFields
            = None) as -> by reflexivity.
    assert (cornerReport !! "latitude" = Some (VNum (Fin 14.64))) as ->
      by reflexivity.
    assert (cornerReport !! "longitude" = Some (VNum (Fin 121.02))) as ->
      by reflexivity.
    unfold truthy, numTruthy, parseFloatV, isNaN, numLe.
    repeat match goal with
           | |- context [Req_dec_T ?a ?b] => destruct (Req_dec_T a b); [lra|]
           | |- context [Rle_dec ?a ?b] => destruct (Rle_dec a b); [|lra]
           end.
    reflexivity.
  - pose proof corner_outside_radius as Hfar.
    unfold calculateDistance, numTruthy.
    repeat match goal with
           | |- context [Req_dec_T ?a ?b] => destruct (Req_dec_T a b); [lra|]
           end.
    cbn. destruct (Rle_dec _ _); [lra|done].
Qed.

(** With no lost report and this found report in the store, the page the
    handler answers holds the found report, tagged and nothing else. *)
Example search_returns_cornerReport :
  let db : Store :=
    λ table, match table with
             | LostPhones => ScanRows []
             | FoundPhones => ScanRows [cornerReport]
             end in
  match body (search (H := Engine.builtins) (Fin 0) ∅ db nearManila).1 with
  | PageBody page _ _ => data page = [tagSource "found_phones" cornerReport]
  | _ => False
  end.
Proof. vm_compute. reflexivity. Qed.

Lemma search_found_scan_failure_witness :
  validateFilters (H := Engine.builtins) (Fin 0)
    (byBrand !! "dateFrom") (byBrand !! "dateTo")
    (arrayParam (byBrand !! "status")) = []
  ∧ missingCriteria byBrand = false
  ∧ cachedFor (H := Engine.builtins) ∅ byBrand = None
  ∧ is_Some (QueryText.buildQueries (H := Engine.builtins)
               (λ _, js "2026-01-01") byBrand)
  ∧ halfBroken LostPhones = ScanRows [lostReport]
  ∧ halfBroken FoundPhones = ScanError (js "SQLITE_ERROR: no such table")
  ∧ QueryText.searchRoute (H := Engine.builtins) (λ _, js "2026-01-01")
      (Fin 0) ∅ halfBroken byBrand =
      Some ({| status := 200;
               body := PartialBody
                         (lostPass (H := Engine.builtins)
                            (plan (H := Engine.builtins) byBrand)
                            [lostReport])
                         []
                         (searchInfo (plan (H := Engine.builtins) byBrand)
                            (length (lostPass (H := Engine.builtins)
                                       (plan (H := Engine.builtins) byBrand)
                                       [lostReport]))) |}, ∅).
Proof.
  assert (is_Some (QueryText.buildQueries (H := Engine.builtins)
                     (λ _, js "2026-01-01") byBrand)) as Hbuilt
    by (eexists; reflexivity).
  assert (validateFilters (H := Engine.builtins) (Fin 0)
            (byBrand !! "dateFrom") (byBrand !! "dateTo")
            (arrayParam (byBrand !! "status")) = []) as Hvalid
    by reflexivity.
  assert (missingCriteria byBrand = false) as Hcrit by reflexivity.
  assert (cachedFor (H := Engine.builtins) ∅ byBrand = None) as Hmiss
    by (unfold cachedFor; case_match; [apply lookup_empty|reflexivity]).
  split; [exact Hvalid|]. split; [exact Hcrit|]. split; [exact Hmiss|].
  split; [exact Hbuilt|]. split; [reflexivity|]. split; [reflexivity|].
  destruct Hbuilt as [queries Hqueries].
  exact (search_found_scan_failure (H := Engine.builtins)
           (λ _, js "2026-01-01") (Fin 0) ∅ halfBroken byBrand queries
           [lostReport] (js "SQLITE_ERROR: no such table")
           Hvalid Hcrit Hmiss Hqueries eq_refl eq_refl).
Defined.

(** In that example the lost report comes back as it was read. *)
Example halfBroken_lost_kept :
  lostPass (H := Engine.builtins) (plan (H := Engine.builtins) byBrand)
           [lostReport] = [lostReport].
Proof. reflexivity. Qed.
End HandlerExamples.

(* ===================================================================== *)
(** * More on the edit distance and the scores *)
(* ===================================================================== *)

Section Recurrence.
Import FuzzySearch EditRecurrence.

Lemma lev_nil_r ra : lev ra [] = length ra.
Proof. by destruct ra. Qed.

Lemma lev_cons a ra b rb :
  lev (a :: ra) (b :: rb) =
    if (a =? b)%N then lev ra rb
    else Nat.min (lev ra rb + 1)
           (Nat.min (lev (a :: ra) rb + 1) (lev ra (b :: rb) + 1)).
Proof. reflexivity. Qed.

Lemma fillRow_levRow c ra rest :
  ∀ rp, fillRow c rest (lev ra rp) (lev (c :: ra) rp) (levRow ra rp rest)
        = levRow (c :: ra) rp rest.
Proof.
  induction rest as [|d rest IH]; intros rp; [done|].
  cbn [levRow fillRow]. rewrite lev_cons.
  f_equal. rewrite <- (IH (d :: rp)). by rewrite lev_cons.
Qed.

Lemma nextRow_levRow c ra str2 :
  nextRow (S (length ra)) c str2 (lev ra [] :: levRow ra [] str2)
  = lev (c :: ra) [] :: levRow (c :: ra) [] str2.
Proof.
  cbn [nextRow]. f_equal.
  rewrite <- (fillRow_levRow c ra str2 []). by rewrite lev_nil_r.
Qed.

Lemma fillMatrix_levRow str2 :
  ∀ str1 ra,
    fillMatrix (length ra) str1 str2 (lev ra [] :: levRow ra [] str2)
    = lev (reverse str1 ++ ra) [] :: levRow (reverse str1 ++ ra) [] str2.
Proof.
  induction str1 as [|c str1 IH]; intros ra; [done|].
  cbn [fillMatrix]. rewrite nextRow_levRow.
  change (S (length ra)) with (length (c :: ra)).
  rewrite (IH (c :: ra)). by rewrite reverse_cons, <- app_assoc.
Qed.

Lemma levRow_nil rest : ∀ rp, levRow [] rp rest = seq (S (length rp)) (length rest).
Proof.
  induction rest as [|d rest IH]; intros rp; [done|].
  cbn [levRow length seq lev]. f_equal. apply (IH (d :: rp)).
Qed.

Lemma levRow_lookup ra rest :
  ∀ rp k, (k < length rest)%nat →
    levRow ra rp rest !! k = Some (lev ra (reverse (take (S k) rest) ++ rp)).
Proof.
  induction rest as [|d rest IH]; intros rp k Hk; [cbn in Hk; lia|].
  destruct k as [|k]; cbn [levRow lookup list_lookup].
  - done.
  - cbn [length] in Hk. etrans; [apply (IH (d :: rp) k); lia|].
    do 2 f_equal. cbn [take]. rewrite reverse_cons, <- app_assoc. done.
Qed.

(** The loops compute the recurrence on the whole strings. *)
Lemma levenshteinDistance_lev str1 str2 :
  levenshteinDistance str1 str2 = lev (reverse str1) (reverse str2).
Proof.
  unfold levenshteinDistance.
  destruct str1 as [|c1 str1].
  { cbn [strFalsy orb]. change (reverse (@nil N)) with (@nil N).
    cbn [lev length Nat.max]. by rewrite length_reverse. }
  destruct str2 as [|c2 str2].
  { cbn [strFalsy orb]. rewrite lev_nil_r, length_reverse. cbn [length]. lia. }
  cbn [strFalsy orb].
  change (seq 0 (S (length (c2 :: str2))))
    with (lev [] [] :: seq (S (length (@nil N))) (length (c2 :: str2))).
  rewrite <- (levRow_nil (c2 :: str2) []).
  pose proof (fillMatrix_levRow (c2 :: str2) (c1 :: str1) []) as Hm.
  change (length (@nil N)) with 0%nat in Hm. rewrite Hm.
  rewrite !app_nil_r.
  assert (∀ (x : nat) l k, (x :: l) !! S k = l !! k) as Hcons by done.
  cbn [length]. rewrite Hcons.
  rewrite (levRow_lookup (reverse (c1 :: str1)) (c2 :: str2) []
             (length str2)) by (cbn [length]; lia).
  cbn [default].
  change (S (length str2)) with (length (c2 :: str2)).
  by rewrite firstn_all, app_nil_r.
Qed.

Lemma lev_sym : ∀ ra rb, lev ra rb = lev rb ra.
Proof.
  induction ra as [|a ra IHa]; intros rb; [by rewrite lev_nil_r|].
  induction rb as [|b rb IHb]; [by rewrite lev_nil_r|].
  rewrite !lev_cons, (N.eqb_sym b a), IHb, (IHa rb), (IHa (b :: rb)).
  destruct (a =? b)%N; lia.
Qed.

Lemma lev_zero : ∀ ra rb, lev ra rb = 0%nat ↔ ra = rb.
Proof.
  induction ra as [|a ra IHa]; intros rb.
  { cbn. split; [by intros ->%nil_length_inv|by intros <-]. }
  induction rb as [|b rb IHb]; [done|].
  rewrite lev_cons. destruct (a =? b)%N eqn:Hab.
  - apply N.eqb_eq in Hab as ->. rewrite IHa. split; congruence.
  - apply N.eqb_neq in Hab. split; [lia|congruence].
Qed.

Lemma lev_length_diff : ∀ ra rb, (length ra - length rb ≤ lev ra rb)%nat.
Proof.
  induction ra as [|a ra IHa]; intros rb; [cbn; lia|].
  induction rb as [|b rb IHb]; [cbn; lia|].
  rewrite lev_cons. cbn [length] in *.
  pose proof (IHa rb). pose proof (IHa (b :: rb)). cbn [length] in *.
  destruct (a =? b)%N; lia.
Qed.
End Recurrence.

Section DistanceLaws.
Import FuzzySearch EditRecurrence.

(** X1.  The distance does not depend on the order of its two arguments. *)
Theorem levenshteinDistance_symmetric str1 str2 :
  levenshteinDistance str1 str2 = levenshteinDistance str2 str1.
Proof. rewrite !levenshteinDistance_lev. apply lev_sym. Qed.

(** X2.  The distance is 0 exactly between a string and itself. *)
Theorem levenshteinDistance_zero_iff str1 str2 :
  levenshteinDistance str1 str2 = 0%nat ↔ str1 = str2.
Proof.
  rewrite levenshteinDistance_lev, lev_zero. split; [|by intros ->].
  intros Hrev. apply (f_equal reverse) in Hrev.
  by rewrite !reverse_involutive in Hrev.
Qed.

(** X3.  The distance lies between the difference of the two lengths and
    the length of the longer string. *)
Theorem levenshteinDistance_bounds str1 str2 :
  (length str1 - length str2 ≤ levenshteinDistance str1 str2)%nat
  ∧ (length str2 - length str1 ≤ levenshteinDistance str1 str2)%nat
  ∧ (levenshteinDistance str1 str2
     ≤ Nat.max (length str1) (length str2))%nat.
Proof.
  split; [|split; [|apply levenshteinDistance_le_max]].
  - rewrite levenshteinDistance_lev.
    rewrite <- (length_reverse str1), <- (length_reverse str2).
    apply lev_length_diff.
  - rewrite levenshteinDistance_lev, lev_sym.
    rewrite <- (length_reverse str1), <- (length_reverse str2).
    apply lev_length_diff.
Qed.

(** The score of two strings does not depend on their order. *)
Lemma calculateSimilarity_symmetric str1 str2 :
  calculateSimilarity str1 str2 = calculateSimilarity str2 str1.
Proof.
  unfold calculateSimilarity.
  rewrite (orb_comm (strFalsy str2)), (Nat.max_comm (length str2)).
  assert (levenshteinDistance (toLowerCase str2) (toLowerCase str1)
          = levenshteinDistance (toLowerCase str1) (toLowerCase str2)) as ->
    by (rewrite !levenshteinDistance_lev; apply lev_sym).
  done.
Qed.

(** X4.  A string that is not empty scores 100 against itself, whatever
    its characters. *)
Theorem calculateSimilarity_self str :
  str ≠ [] → (calculateSimilarity str str == 100)%Q.
Proof.
  intros Hne. unfold calculateSimilarity.
  destruct str as [|c str]; [done|]. cbn [strFalsy orb].
  rewrite Nat.max_id. cbn [length Nat.eqb].
  assert (levenshteinDistance (toLowerCase (c :: str)) (toLowerCase (c :: str))
          = 0%nat) as -> by (rewrite levenshteinDistance_lev; by apply lev_zero).
  change (inject_Z (Z.of_nat 0)) with 0%Q.
  generalize (Z.of_nat (S (length str))) (Nat2Z.is_nonneg (S (length str)))
             (Nat2Z.inj_succ (length str)).
  intros m Hm Hs. assert (0 < m) as Hpos by lia.
  assert (¬ (inject_Z m == 0)%Q) as Hnz.
  { unfold Qeq, inject_Z. cbn. lia. }
  field. exact Hnz.
Qed.

Lemma calculateSimilarity_self_witness :
  js "Nokia" ≠ [] ∧ (calculateSimilarity (js "Nokia") (js "Nokia") == 100)%Q.
Proof.
  assert (js "Nokia" ≠ []) as Hne by (vm_compute; discriminate).
  split; [exact Hne|]. exact (calculateSimilarity_self (js "Nokia") Hne).
Defined.

Lemma strEqb_sym a b : strEqb a b = strEqb b a.
Proof. unfold strEqb. repeat case_bool_decide; congruence. Qed.

(** X5.  The score of two strings does not depend on their order, and
    both identifier matchers give the same answer when their two
    identifiers are exchanged. *)
Theorem identifier_match_symmetric id1 id2 (threshold : Q) :
  calculateSimilarity id1 id2 = calculateSimilarity id2 id1
  ∧ isPhoneSimilar id1 id2 threshold = isPhoneSimilar id2 id1 threshold
  ∧ isIMEISimilar id1 id2 threshold = isIMEISimilar id2 id1 threshold.
Proof.
  split; [apply calculateSimilarity_symmetric|].
  unfold isPhoneSimilar, isIMEISimilar. split.
  - rewrite (strEqb_sym (normalizePhoneNumber id2)).
    rewrite (orb_comm (includes (normalizePhoneNumber id2) _)).
    rewrite (Nat.min_comm (length (normalizePhoneNumber id2))).
    by rewrite (calculateSimilarity_symmetric (normalizePhoneNumber id2)).
  - rewrite (strEqb_sym (normalizeIMEI id2)).
    by rewrite (calculateSimilarity_symmetric (normalizeIMEI id2)).
Qed.

(** X6.  A normalised phone number holds digits only, and normalising it
    again changes nothing. *)
Theorem normalizePhoneNumber_digits phoneNumber :
  Forall (λ c, isDigit c = true) (normalizePhoneNumber phoneNumber)
  ∧ normalizePhoneNumber (normalizePhoneNumber phoneNumber)
    = normalizePhoneNumber phoneNumber.
Proof.
  assert (∀ l : jsstring,
            filter (λ c, isDigit c = true) (filter (λ c, isDigit c = true) l)
            = filter (λ c, isDigit c = true) l) as Hidem.
  { intros l. by apply list_filter_filter_l. }
  unfold normalizePhoneNumber. split.
  - destruct (strFalsy phoneNumber); [constructor|].
    apply Forall_forall. by intros c [Hc _]%list_elem_of_filter.
  - destruct (strFalsy phoneNumber) eqn:Hf; [done|].
    destruct (strFalsy (filter _ phoneNumber)) eqn:Hf'.
    + by destruct (filter _ phoneNumber).
    + apply Hidem.
Qed.
End DistanceLaws.

Section Phonetic.
Import FuzzySearch.

Lemma mapping_range c : (48 ≤ mapping c ≤ 54)%N.
Proof. unfold mapping. repeat case_match; lia. Qed.

Lemma soundexLoop_shape rest :
  ∀ soundexCode prevCode,
    (length soundexCode ≤ 4)%nat →
    ∃ digits,
      soundexLoop rest soundexCode prevCode = soundexCode ++ digits
      ∧ Forall (λ d, (49 ≤ d ≤ 54)%N) digits
      ∧ (length (soundexCode ++ digits) ≤ 4)%nat.
Proof.
  induction rest as [|c rest IH]; intros code prev Hlen; cbn [soundexLoop].
  { exists []. rewrite app_nil_r. by repeat split. }
  destruct (length code <? 4)%nat eqn:Hlt;
    [|exists []; rewrite app_nil_r; by repeat split].
  apply Nat.ltb_lt in Hlt. pose proof (mapping_range c) as Hm.
  destruct (negb (mapping c =? 48)%N && negb (mapping c =? prev)%N) eqn:Hadd.
  - apply andb_true_iff in Hadd as [Hz%negb_true_iff%N.eqb_neq _].
    destruct (IH (code ++ [mapping c])
                 (if negb (mapping c =? 48)%N then mapping c else prev))
      as (ds & -> & Hds & Hl); [rewrite length_app; cbn; lia|].
    exists (mapping c :: ds). rewrite <- app_assoc in *.
    repeat split; [|done]. constructor; [lia|done].
  - destruct (IH code (if negb (mapping c =? 48)%N then mapping c else prev)
                 Hlen) as (ds & -> & Hds & Hl).
    by exists ds.
Qed.

(** X7.  A Soundex code is empty or has exactly four characters: a capital
    letter A to Z followed by three digits 0 to 6. *)
Theorem soundex_shape str :
  soundex str = []
  ∨ ∃ first digits,
      soundex str = first :: digits
      ∧ isUpperAZ first = true
      ∧ length digits = 3%nat
      ∧ Forall (λ d, (48 ≤ d ≤ 54)%N) digits.
Proof.
  unfold soundex. destruct (strFalsy str); [by left|].
  destruct (filter _ (toUpperCase str)) as [|first rest] eqn:Hf; [by left|].
  right.
  assert (isUpperAZ first = true) as Hup.
  { assert (first ∈ filter (λ c, isUpperAZ c = true) (toUpperCase str)) as Hin
      by (rewrite Hf; left).
    by apply list_elem_of_filter in Hin as [? _]. }
  destruct (soundexLoop_shape rest [first] (mapping first))
    as (ds & -> & Hds & Hl); [cbn; lia|].
  cbn [app length] in *. unfold padEnd. cbn [app length].
  exists first, (ds ++ replicate (4 - S (length ds)) 48%N).
  repeat split; [done| |].
  - rewrite length_app, length_replicate. lia.
  - apply Forall_app. split.
    + eapply Forall_impl; [exact Hds|]. cbn. lia.
    + apply Forall_replicate. lia.
Qed.

Lemma lowerUnit_ascii c :
  (c < 128)%N → lowerUnit c = if isUpperAZ c then [(c + 32)%N] else [c].
Proof.
  intros Hc. unfold lowerUnit. destruct (isUpperAZ c); [done|].
  assert ((192 <=? c)%N = false) as -> by (apply N.leb_gt; lia).
  assert ((c =? 304)%N = false) as -> by (apply N.eqb_neq; lia).
  done.
Qed.

Lemma upperUnit_ascii c :
  (c < 128)%N → upperUnit c = if isLowerAZ c then [(c - 32)%N] else [c].
Proof.
  intros Hc. unfold upperUnit. destruct (isLowerAZ c); [done|].
  assert ((224 <=? c)%N = false) as -> by (apply N.leb_gt; lia).
  assert ((c =? 223)%N = false) as -> by (apply N.eqb_neq; lia).
  assert ((c =? 255)%N = false) as -> by (apply N.eqb_neq; lia).
  assert ((c =? 181)%N = false) as -> by (apply N.eqb_neq; lia).
  done.
Qed.

Lemma isUpperAZ_spec c : isUpperAZ c = true ↔ (65 ≤ c ≤ 90)%N.
Proof. unfold isUpperAZ. rewrite andb_true_iff, !N.leb_le. lia. Qed.

Lemma isLowerAZ_spec c : isLowerAZ c = true ↔ (97 ≤ c ≤ 122)%N.
Proof. unfold isLowerAZ. rewrite andb_true_iff, !N.leb_le. lia. Qed.

Lemma isLowerAZ_false c : ¬ (97 ≤ c ≤ 122)%N → isLowerAZ c = false.
Proof.
  intros Hc. destruct (isLowerAZ c) eqn:E; [|done].
  by apply isLowerAZ_spec in E.
Qed.

(** On a unit of the Basic Latin block, changing the case first does not
    change the upper-case form. *)
Lemma upperUnit_after_case c :
  (c < 128)%N →
  (lowerUnit c ≫= upperUnit) = upperUnit c
  ∧ (upperUnit c ≫= upperUnit) = upperUnit c.
Proof.
  intros Hc. rewrite lowerUnit_ascii, (upperUnit_ascii c) by done.
  pose proof (isUpperAZ_spec c) as Hu. pose proof (isLowerAZ_spec c) as Hl.
  destruct (isUpperAZ c) eqn:Eu; destruct (isLowerAZ c) eqn:El;
    cbn [mbind list_bind app];
    rewrite ?app_nil_r, !upperUnit_ascii by lia.
  - lia.
  - assert (isLowerAZ (c + 32) = true) as -> by (apply isLowerAZ_spec; lia).
    rewrite El. split; [|done]. f_equal. lia.
  - rewrite El. rewrite isLowerAZ_false by lia. done.
  - by rewrite El.
Qed.
Lemma toUpperCase_after_case str :
  Forall (λ c, (c < 128)%N) str →
  toUpperCase (toLowerCase str) = toUpperCase str
  ∧ toUpperCase (toUpperCase str) = toUpperCase str
  ∧ strFalsy (toLowerCase str) = strFalsy str
  ∧ strFalsy (toUpperCase str) = strFalsy str.
Proof.
  unfold toUpperCase, toLowerCase.
  induction 1 as [|c str Hc _ (IH1 & IH2 & _ & _)]; [done|].
  rewrite !bind_cons, !bind_app, IH1, IH2.
  destruct (upperUnit_after_case c Hc) as [-> ->].
  repeat split; try done.
  - rewrite lowerUnit_ascii by done. by destruct (isUpperAZ c).
  - rewrite upperUnit_ascii by done. by destruct (isLowerAZ c).
Qed.

(** X8.  On text of the Basic Latin block the Soundex code does not depend
    on the case of the letters. *)
Theorem soundex_case_insensitive str :
  Forall (λ c, (c < 128)%N) str →
  soundex (toLowerCase str) = soundex str
  ∧ soundex (toUpperCase str) = soundex str.
Proof.
  intros Hascii.
  destruct (toUpperCase_after_case str Hascii) as (H1 & H2 & H3 & H4).
  unfold soundex. by rewrite H1, H2, H3, H4.
Qed.

Lemma soundex_case_insensitive_witness :
  Forall (λ c, (c < 128)%N) (js "Smith")
  ∧ soundex (toLowerCase (js "Smith")) = soundex (js "Smith")
  ∧ soundex (toUpperCase (js "Smith")) = soundex (js "Smith").
Proof.
  assert (Forall (λ c, (c < 128)%N) (js "Smith")) as Hascii
    by (repeat constructor).
  split; [exact Hascii|]. exact (soundex_case_insensitive (js "Smith") Hascii).
Defined.
End Phonetic.

(* ===================================================================== *)
(** * More on pagination *)
(* ===================================================================== *)

Section Pages.
Import QueryOptimizer.

(** X9.  Whatever the two parameters hold and however the engine reads
    them, the page is at least 1 and the page size between 1 and 100. *)
Theorem validatePaginationParams_range `{JsBuiltins} (page limit : jsstring) :
  1 ≤ (validatePaginationParams page limit).1
  ∧ 1 ≤ (validatePaginationParams page limit).2 ≤ 100.
Proof. unfold validatePaginationParams. cbn [fst snd]. lia. Qed.

Lemma ceilDiv_spec a b : 0 ≤ a → 1 ≤ b → (ceilDiv a b - 1) * b < a ≤ ceilDiv a b * b ∨ (a = 0 ∧ ceilDiv a b = 0).
Proof.
  intros Ha Hb. unfold ceilDiv.
  destruct (decide (a = 0)) as [->|Hne]; [right; split; [done|]; by rewrite Z.div_0_l by lia|].
  left. pose proof (Z.div_mod (- a) b ltac:(lia)) as Hdm.
  pose proof (Z.mod_pos_bound (- a) b ltac:(lia)) as Hm. nia.
Qed.

Lemma slice_take_drop {A} (l : list A) (from count : Z) :
  0 ≤ from → 0 ≤ count →
  slice l from (from + count) = take (Z.to_nat count) (drop (Z.to_nat from) l).
Proof.
  intros Hf Hc. unfold slice.
  assert ((from <? 0) = false) as -> by lia.
  assert ((from + count <? 0) = false) as -> by lia.
  set (len := Z.of_nat (length l)).
  destruct (decide (from ≤ len)) as [Hle|Hgt].
  - rewrite (Z.min_l from) by lia.
    destruct (decide (from + count ≤ len)) as [Hle2|Hgt2].
    + rewrite Z.min_l by lia. do 2 f_equal. lia.
    + rewrite Z.min_r by lia.
      rewrite !take_ge; [done| |]; rewrite length_drop; unfold len in *; lia.
  - rewrite !Z.min_r by lia.
    rewrite !drop_ge by (unfold len in *; lia). by rewrite !take_nil.
Qed.

(** The page that is returned, for a page size of at least 1. *)
Lemma paginateResults_data {A} (results : list A) (page limit : Z) :
  1 ≤ limit →
  let shown := paginateResults results page limit in
  data shown
  = take (Z.to_nat limit)
         (drop (Z.to_nat ((current_page (pagination shown) - 1) * limit))
               results).
Proof.
  intros Hl. cbn -[Z.mul]. rewrite slice_take_drop; [done| |lia]. nia.
Qed.

(** X10.  For a page size of at least 1 and a list that is not empty, the
    page holds at least one result and at most the page size, and its
    number lies between 1 and the number of pages, whatever page is asked
    for. *)
Theorem paginateResults_page {A} (results : list A) (page limit : Z) :
  1 ≤ limit →
  results ≠ [] →
  let shown := paginateResults results page limit in
  (1 ≤ length (data shown) ≤ Z.to_nat limit)%nat
  ∧ 1 ≤ current_page (pagination shown) ≤ total_pages (pagination shown).
Proof.
  intros Hl Hne shown.
  pose proof (paginateResults_data results page limit Hl) as Hdata.
  fold shown in Hdata. rewrite Hdata.
  assert (0 ≤ Z.of_nat (length results)) as Hlen by lia.
  pose proof (ceilDiv_spec _ _ Hlen Hl) as Hceil.
  subst shown. cbn -[Z.mul take drop] in *.
  set (total := ceilDiv (Z.of_nat (length results)) limit) in *.
  assert (0 < length results)%nat by (destruct results; cbn; [done|lia]).
  destruct Hceil as [Hceil|[? ?]]; [|lia].
  assert (1 ≤ total) by nia.
  split; [|lia].
  rewrite length_take, length_drop.
  assert ((1 `max` (page `min` total) - 1) * limit ≤ (total - 1) * limit)
    as Hoff by nia.
  revert Hoff. generalize ((1 `max` (page `min` total) - 1) * limit).
  intros off Hoff. lia.
Qed.

Lemma paginateResults_page_witness :
  1 ≤ 20 ∧ seq 0 50 ≠ []
  ∧ (let shown := paginateResults (seq 0 50) 7 20 in
     (1 ≤ length (data shown) ≤ Z.to_nat 20)%nat
     ∧ 1 ≤ current_page (pagination shown) ≤ total_pages (pagination shown)).
Proof.
  split; [lia|]. split; [discriminate|].
  apply (paginateResults_page (seq 0 50) 7 20); [lia|discriminate].
Defined.

Lemma chunks_join {A} (size : nat) :
  (0 < size)%nat →
  ∀ n (l : list A),
    (length l ≤ n * size)%nat →
    mjoin ((λ i, take size (drop (i * size) l)) <$> seq 0 n) = l.
Proof.
  intros Hsize. induction n as [|n IH]; intros l Hlen.
  { destruct l; [done|cbn in Hlen; lia]. }
  cbn [seq fmap list_fmap mjoin list_join]. rewrite <- fmap_S_seq, <- list_fmap_compose.
  cbn [Nat.mul Nat.add drop].
  rewrite <- (take_drop size l) at 2. f_equal.
  rewrite <- (IH (drop size l)) by (rewrite length_drop; lia).
  f_equal. apply list_fmap_ext. intros _ i _. cbn.
  by rewrite drop_drop.
Qed.

(** X11.  The pages 1 to [total_pages] of a list, one after the other, are
    the list: no result is lost or shown twice. *)
Theorem paginateResults_partition {A} (results : list A) (limit : Z) :
  1 ≤ limit →
  mjoin ((λ page, data (paginateResults results page limit))
         <$> seqZ 1 (ceilDiv (Z.of_nat (length results)) limit))
  = results.
Proof.
  intros Hl.
  assert (0 ≤ Z.of_nat (length results)) as Hlen by lia.
  pose proof (ceilDiv_spec _ _ Hlen Hl) as Hceil.
  set (total := ceilDiv (Z.of_nat (length results)) limit) in *.
  assert (0 ≤ total) as Htotal by (destruct Hceil as [?|[? ?]]; nia).
  etrans; [|apply (chunks_join (Z.to_nat limit) ltac:(lia) (Z.to_nat total));
            destruct Hceil as [?|[? ?]]; nia].
  unfold seqZ. rewrite <- list_fmap_compose. f_equal.
  apply list_fmap_ext. intros k i Hi. apply lookup_seq in Hi as [-> Hk].
  cbn [compose]. rewrite paginateResults_data by done.
  cbn -[Z.mul take drop]. fold total.
  do 2 f_equal. nia.
Qed.

Lemma paginateResults_partition_witness :
  1 ≤ 20
  ∧ mjoin ((λ page, data (paginateResults (seq 0 50) page 20))
           <$> seqZ 1 (ceilDiv (Z.of_nat (length (seq 0 50))) 20))
    = seq 0 50.
Proof.
  split; [lia|]. apply (paginateResults_partition (seq 0 50) 20). lia.
Defined.

(** X12.  A page number outside the range is clamped: a request for any
    page shows the page in range that is nearest to it, the first one
    below 1 and the last one above the number of pages; an empty list has
    0 pages and shows an empty page 1. *)
Theorem paginateResults_clamped {A} (results : list A) (page limit : Z) :
  1 ≤ limit →
  let total := ceilDiv (Z.of_nat (length results)) limit in
  paginateResults results page limit
  = paginateResults results (Z.max 1 (Z.min page total)) limit
  ∧ (let shown := paginateResults (@nil A) page limit in
     data shown = [] ∧ total_pages (pagination shown) = 0
     ∧ current_page (pagination shown) = 1
     ∧ has_next (pagination shown) = false
     ∧ has_previous (pagination shown) = false).
Proof.
  intros Hl total. split.
  - unfold paginateResults. fold total.
    assert (1 `max` ((1 `max` (page `min` total)) `min` total)
            = 1 `max` (page `min` total)) as -> by lia.
    done.
  - unfold paginateResults, ceilDiv. cbn [length Z.of_nat Z.opp].
    rewrite Z.div_0_l by lia. cbn [data pagination total_pages current_page
      has_next has_previous].
    assert (1 `max` (page `min` (- 0)) = 1) as -> by lia.
    repeat split; try done.
    rewrite slice_take_drop by lia. by rewrite drop_nil, take_nil.
Qed.

Lemma paginateResults_clamped_witness :
  1 ≤ 20
  ∧ paginateResults (seq 0 50) 99 20 = paginateResults (seq 0 50) 3 20
  ∧ (let shown := paginateResults (@nil nat) 99 20 in
     data shown = [] ∧ total_pages (pagination shown) = 0
     ∧ current_page (pagination shown) = 1
     ∧ has_next (pagination shown) = false
     ∧ has_previous (pagination shown) = false).
Proof.
  split; [lia|]. apply (paginateResults_clamped (seq 0 50) 99 20). lia.
Defined.
End Pages.

(* ===================================================================== *)
(** * More on the query optimizer *)
(* ===================================================================== *)

Section Substrings.

Lemma startsWith_prefix p s : startsWith p s = true ↔ ∃ r, s = p ++ r.
Proof.
  revert s. induction p as [|a p IH]; intros s; cbn [startsWith].
  { split; [by exists s|done]. }
  destruct s as [|b s]; [split; [done|by intros [r [=]]]|].
  rewrite andb_true_iff, N.eqb_eq, IH. split.
  - intros [-> [r ->]]. by exists r.
  - intros [r [= -> ->]]. split; [done|by exists r].
Qed.

(** [s.includes(p)] holds exactly when [p] occurs in [s]. *)
Lemma includes_infix s p : includes s p = true ↔ ∃ k r, s = k ++ p ++ r.
Proof.
  induction s as [|c s IH]; cbn [includes].
  - rewrite orb_false_r, startsWith_prefix. split.
    + intros [r Hr]. by exists [], r.
    + intros (k & r & Hs). symmetry in Hs.
      apply app_eq_nil in Hs as [-> Hs]. by exists r.
  - rewrite orb_true_iff, startsWith_prefix, IH. split.
    + intros [[r ->]|(k & r & ->)]; [by exists [], r|by exists (c :: k), r].
    + intros ([|c' k] & r & Hs); [left; by exists r|].
      injection Hs as -> ->. right. by exists k, r.
Qed.

Lemma includes_app_l s t p : includes s p = true → includes (s ++ t) p = true.
Proof.
  rewrite !includes_infix. intros (k & r & ->).
  exists k, (r ++ t). by rewrite <- !app_assoc.
Qed.

Lemma includes_app_r s t p : includes t p = true → includes (s ++ t) p = true.
Proof.
  rewrite !includes_infix. intros (k & r & ->).
  exists (s ++ k), r. by rewrite <- !app_assoc.
Qed.

Lemma startsWith_app_includes p r : includes (p ++ r) p = true.
Proof. apply includes_infix. by exists [], r. Qed.

Lemma toLowerCase_app s t : toLowerCase (s ++ t) = toLowerCase s ++ toLowerCase t.
Proof. apply bind_app. Qed.
End Substrings.

Section Statements.
Import QueryOptimizer QueryPlanner.

(** The text of the query before the LIMIT clause is considered. *)
Lemma optimizeQuery_ordered baseQuery options :
  ∃ ordered,
    includes (toLowerCase ordered) (js "order by") = true
    ∧ (∃ before after, ordered = before ++ baseQuery ++ after)
    ∧ optimizeQuery baseQuery options =
        if limitGiven (limit options)
           && negb (includes (toLowerCase ordered) (js "limit"))
        then ordered ++ js " LIMIT " ++ js (pretty (default 0 (limit options)))
        else ordered.
Proof.
  unfold optimizeQuery.
  set (hinted := if useIndex options && includes baseQuery (js "WHERE")
                 then js "/* Use available indexes */ " ++ baseQuery
                 else baseQuery).
  assert (∃ before, hinted = before ++ baseQuery) as [before Hh].
  { unfold hinted. destruct (_ && _); [by eexists|by exists []]. }
  destruct (includes (toLowerCase hinted) (js "order by")) eqn:Ho; cbn [negb].
  - exists hinted. split; [done|]. split; [|done].
    exists before, []. by rewrite app_nil_r.
  - exists (hinted ++ js " ORDER BY " ++ orderBy options).
    split; [|split; [|done]].
    + rewrite !toLowerCase_app. apply includes_app_r, includes_app_l.
      vm_compute. reflexivity.
    + exists before, (js " ORDER BY " ++ orderBy options).
      by rewrite Hh, <- !app_assoc.
Qed.

(** X13.  The statement [optimizeQuery] returns contains the base query
    untouched, always has an ORDER BY clause and, when a limit other than
    0 is given, has a LIMIT. *)
Theorem optimizeQuery_clauses baseQuery options :
  let statement := optimizeQuery baseQuery options in
  (∃ before after, statement = before ++ baseQuery ++ after)
  ∧ includes (toLowerCase statement) (js "order by") = true
  ∧ (limitGiven (limit options) = false
     ∨ includes (toLowerCase statement) (js "limit") = true).
Proof.
  destruct (optimizeQuery_ordered baseQuery options)
    as (ordered & Ho & (before & after & Hb) & ->).
  destruct (limitGiven (limit options)) eqn:Hl; cbn [andb].
  - destruct (includes (toLowerCase ordered) (js "limit")) eqn:Hin; cbn [negb].
    + split; [by exists before, after|]. split; [done|by right].
    + split; [|split].
      * exists before, (after ++ js " LIMIT " ++ js (pretty (default 0 (limit options)))).
        by rewrite Hb, <- !app_assoc.
      * rewrite toLowerCase_app. by apply includes_app_l.
      * right. rewrite !toLowerCase_app.
        apply includes_app_r, includes_app_l. vm_compute. reflexivity.
  - split; [by exists before, after|]. split; [done|by left].
Qed.

(** X14.  The test for a LIMIT clause is a search for the word: a base
    query that mentions "limit" anywhere, in any case, is returned without
    a LIMIT clause, whatever limit is asked for. *)
Theorem optimizeQuery_limit_word baseQuery options :
  includes (toLowerCase baseQuery) (js "limit") = true →
  optimizeQuery baseQuery options
  = optimizeQuery baseQuery
      {| orderBy := orderBy options; limit := None;
         useIndex := useIndex options |}.
Proof.
  intros Hword. unfold optimizeQuery. cbn [limit orderBy useIndex limitGiven andb].
  set (hinted := if useIndex options && includes baseQuery (js "WHERE")
                 then js "/* Use available indexes */ " ++ baseQuery
                 else baseQuery).
  assert (includes (toLowerCase hinted) (js "limit") = true) as Hh.
  { unfold hinted. destruct (_ && _); [|done].
    rewrite toLowerCase_app. by apply includes_app_r. }
  set (ordered := if negb (includes (toLowerCase hinted) (js "order by"))
                  then hinted ++ js " ORDER BY " ++ orderBy options
                  else hinted).
  assert (includes (toLowerCase ordered) (js "limit") = true) as ->.
  { unfold ordered. destruct (negb _); [|done].
    rewrite toLowerCase_app. by apply includes_app_l. }
  by rewrite andb_false_r.
Qed.

Lemma optimizeQuery_limit_word_witness :
  let baseQuery := js "SELECT * FROM cards WHERE credit_limit > 0" in
  let options := {| orderBy := js "id"; limit := Some 10; useIndex := true |} in
  includes (toLowerCase baseQuery) (js "limit") = true
  ∧ optimizeQuery baseQuery options
    = optimizeQuery baseQuery
        {| orderBy := orderBy options; limit := None;
           useIndex := useIndex options |}.
Proof.
  intros baseQuery options.
  assert (includes (toLowerCase baseQuery) (js "limit") = true) as Hword
    by (vm_compute; reflexivity).
  split; [exact Hword|]. exact (optimizeQuery_limit_word baseQuery options Hword).
Defined.
End Statements.

Section Normalisation.
Import QueryOptimizer.
Context `{JsBuiltins}.

Lemma lookup_if_insert_eq (b : bool) (k : string) (v : value)
    (m : gmap string value) :
  (if b then <[k := v]> m else m) !! k = if b then Some v else m !! k.
Proof. destruct b; [by rewrite lookup_insert_eq|done]. Qed.

Lemma truthy_VStr (s : option jsstring) : truthy (VStr <$> s) = strTruthy s.
Proof. by destruct s. Qed.

Lemma strOf_VStr (s : option jsstring) : strOf (VStr <$> s) = default [] s.
Proof. by destruct s. Qed.

(** Dropping the coordinates does not touch the other keys. *)
Lemma lookup_drop_coordinates (c1 c2 : bool) (m : gmap string value)
    (k : string) :
  k ≠ "lat"%string → k ≠ "lon"%string →
  (if c1 then if c2 then delete "lon" (delete "lat" m) else m else m) !! k
  = m !! k.
Proof.
  intros. destruct c1, c2; try done. by rewrite !lookup_delete_ne.
Qed.

(** What [optimizeSearchParams] leaves under the three keys it rewrites and
    under the keys it does not know. *)
Lemma optimizeSearchParams_query (q : gmap string jsstring) :
  optimizeSearchParams q !! "query" =
    if strTruthy (q !! "query")
    then Some (VStr (toLowerCase (trim (default [] (q !! "query")))))
    else VStr <$> q !! "query".
Proof.
  unfold optimizeSearchParams. rewrite lookup_drop_coordinates by done.
  rewrite !lookup_if_insert by done. rewrite lookup_if_insert_eq.
  by rewrite !lookup_fmap, truthy_VStr, strOf_VStr.
Qed.

Lemma optimizeSearchParams_threshold (q : gmap string jsstring) :
  optimizeSearchParams q !! "threshold" =
    if strTruthy (q !! "threshold")
    then Some (VRat (inject_Z (Z.min 100 (Z.max 0
           (intOr (parseInt (default [] (q !! "threshold"))) 70)))))
    else VStr <$> q !! "threshold".
Proof.
  unfold optimizeSearchParams. rewrite lookup_drop_coordinates by done.
  rewrite !lookup_if_insert by done. rewrite lookup_if_insert_eq.
  rewrite !lookup_if_insert by done.
  by rewrite !lookup_fmap, truthy_VStr, strOf_VStr.
Qed.

Lemma optimizeSearchParams_radius (q : gmap string jsstring) :
  optimizeSearchParams q !! "radius" =
    if strTruthy (q !! "radius")
    then Some (VNum (numMin (Fin 1000) (numMax (Fin (1 / 10))
           (numOr (parseFloat (default [] (q !! "radius"))) (Fin 10)))))
    else VStr <$> q !! "radius".
Proof.
  unfold optimizeSearchParams. rewrite lookup_drop_coordinates by done.
  rewrite lookup_if_insert_eq. rewrite !lookup_if_insert by done.
  by rewrite !lookup_fmap, truthy_VStr, strOf_VStr.
Qed.

Lemma optimizeSearchParams_other (q : gmap string jsstring) (k : string) :
  k ∉ ["query"; "threshold"; "radius"; "lat"; "lon"]%string →
  optimizeSearchParams q !! k = VStr <$> q !! k.
Proof.
  intros Hk. repeat (apply not_elem_of_cons in Hk as [? Hk]).
  unfold optimizeSearchParams. rewrite lookup_drop_coordinates by done.
  rewrite !lookup_if_insert by done. by rewrite lookup_fmap.
Qed.

Lemma clamp_radius x :
  numTruthy x = true →
  ∃ r, numMin (Fin 1000) (numMax (Fin (1 / 10)) x) = Fin r
       ∧ (1 / 10 <= r <= 1000)%R.
Proof.
  intros Hx. unfold numMin, numMax.
  destruct x as [a| | |]; [| | |done]; cbn [isNaN orb numLe].
  - destruct (Rle_dec (1 / 10) a); cbn [isNaN orb numLe].
    + destruct (Rle_dec 1000 a); eexists; (split; [done|lra]).
    + destruct (Rle_dec 1000 (1 / 10)); [lra|]. eexists; (split; [done|lra]).
  - eexists; (split; [done|lra]).
  - destruct (Rle_dec 1000 (1 / 10)); [lra|]. eexists; (split; [done|lra]).
Qed.

(** X15.  A threshold that is supplied comes out as an integer between 0
    and 100, and a radius that is supplied as a finite number between 0.1
    and 1000, whatever the text and however the engine reads it. *)
Theorem optimizeSearchParams_clamps (q : gmap string jsstring) :
  (strTruthy (q !! "threshold") = true →
   ∃ z, optimizeSearchParams q !! "threshold" = Some (VRat (inject_Z z))
        ∧ 0 ≤ z ≤ 100)
  ∧ (strTruthy (q !! "radius") = true →
     ∃ r, optimizeSearchParams q !! "radius" = Some (VNum (Fin r))
          ∧ (1 / 10 <= r <= 1000)%R).
Proof.
  split; intros Hs.
  - rewrite optimizeSearchParams_threshold, Hs. eexists. split; [done|lia].
  - rewrite optimizeSearchParams_radius, Hs.
    destruct (clamp_radius (numOr (parseFloat (default [] (q !! "radius")))
                                  (Fin 10))) as (r & -> & Hr).
    { unfold numOr. destruct (numTruthy (parseFloat _)) eqn:Ht; [done|].
      cbn. destruct (Req_dec_T 10 0); [lra|done]. }
    by exists r.
Qed.
End Normalisation.

Lemma optimizeSearchParams_clamps_witness :
  let q : gmap string jsstring :=
    {[ "threshold"%string := js "250"; "radius"%string := js "-3" ]} in
  strTruthy (q !! "threshold") = true
  ∧ strTruthy (q !! "radius") = true
  ∧ (∃ z, QueryOptimizer.optimizeSearchParams (H := Engine.builtins) q
            !! "threshold" = Some (VRat (inject_Z z)) ∧ 0 ≤ z ≤ 100)
  ∧ (∃ r, QueryOptimizer.optimizeSearchParams (H := Engine.builtins) q
            !! "radius" = Some (VNum (Fin r)) ∧ (1 / 10 <= r <= 1000)%R).
Proof.
  intros q.
  destruct (optimizeSearchParams_clamps (H := Engine.builtins) q) as [Ht Hr].
  split; [reflexivity|]. split; [reflexivity|].
  split; [apply Ht; reflexivity|apply Hr; reflexivity].
Defined.

Section CacheKeys.
Import QueryOptimizer QueryPlanner Server.
Context `{JsBuiltins}.

(** X16.  The key is taken from the trimmed, lower-cased query: writing the
    query in another case or with white space around it gives the same
    key. *)
Theorem generateCacheKey_query_case (q : gmap string jsstring)
    (query query' : jsstring) :
  q !! "query" = Some query →
  strFalsy query = false →
  strFalsy query' = false →
  toLowerCase (trim query') = toLowerCase (trim query) →
  generateCacheKey (optimizeSearchParams (<["query" := query']> q))
  = generateCacheKey (optimizeSearchParams q).
Proof.
  intros Hq Hs Hs' Hsame. f_equal. unfold optimizeSearchParams.
  rewrite fmap_insert, lookup_insert_eq, lookup_fmap, Hq.
  cbn [truthy fmap option_fmap option_map strOf]. rewrite Hs, Hs'. cbn [negb].
  by rewrite insert_insert_eq, Hsame.
Qed.

(** The key is a function of the thirteen parameters it names. *)
Lemma generateCacheKey_reads (q q' : gmap string jsstring) :
  (∀ k, k ∈ keyParams → q !! k = q' !! k) →
  generateCacheKey (optimizeSearchParams q)
  = generateCacheKey (optimizeSearchParams q').
Proof.
  intros Hsame. unfold generateCacheKey.
  assert (∀ k, k ∈ keyParams →
            optimizeSearchParams q !! k = optimizeSearchParams q' !! k) as Hk.
  { intros k Hin.
    assert (q !! "lat" = q' !! "lat") as Hlat
      by (apply Hsame; unfold keyParams; repeat constructor).
    assert (q !! "lon" = q' !! "lon") as Hlon
      by (apply Hsame; unfold keyParams; repeat constructor).
    pose proof (Hsame k Hin) as Hv.
    destruct (decide (k = "lat"%string)) as [->|?].
    { rewrite (optimizeSearchParams_lat_lon q "lat") by (by left).
      rewrite (optimizeSearchParams_lat_lon q' "lat") by (by left).
      unfold jsstring in *. by rewrite Hlat, Hlon. }
    destruct (decide (k = "lon"%string)) as [->|?].
    { rewrite (optimizeSearchParams_lat_lon q "lon") by (by right).
      rewrite (optimizeSearchParams_lat_lon q' "lon") by (by right).
      unfold jsstring in *. by rewrite Hlat, Hlon. }
    destruct (decide (k = "query"%string)) as [->|?];
      [rewrite !optimizeSearchParams_query; unfold jsstring in *; by rewrite Hv|].
    destruct (decide (k = "threshold"%string)) as [->|?];
      [rewrite !optimizeSearchParams_threshold; unfold jsstring in *; by rewrite Hv|].
    destruct (decide (k = "radius"%string)) as [->|?];
      [rewrite !optimizeSearchParams_radius; unfold jsstring in *; by rewrite Hv|].
    rewrite !optimizeSearchParams_other
      by (rewrite !not_elem_of_cons; repeat split; try done;
          apply not_elem_of_nil).
    unfold jsstring in *. by rewrite Hv. }
  by rewrite !Hk by (unfold keyParams; repeat constructor).
Qed.

(** X17.  The advanced filters are not part of the key: two requests that
    agree on the thirteen parameters of the key and on [cache] are answered
    from the same cache entry, whatever their dates, status, device types,
    brands, IMEI or phone number filters. *)
Theorem cachedFor_ignores_filters (cache : Cache) (q q' : gmap string jsstring) :
  (∀ k, k ∈ keyParams → q !! k = q' !! k) →
  q !! "cache" = q' !! "cache" →
  cachedFor cache q' = cachedFor cache q.
Proof.
  intros Hsame Hcache. unfold cachedFor.
  by rewrite Hcache, (generateCacheKey_reads q q' Hsame).
Qed.

(** The answer computed from the two tables, and the cache after it. *)
Lemma search_both_tables (now : num) (cache : Cache) (db : Store)
    (q : gmap string jsstring) (rows foundRows : list Row) :
  validateFilters now (q !! "dateFrom") (q !! "dateTo")
                  (arrayParam (q !! "status")) = [] →
  missingCriteria q = false →
  cachedFor cache q = None →
  db LostPhones = ScanRows rows →
  db FoundPhones = ScanRows foundRows →
  let merged :=
    combine (plan q) (lostPass (plan q) rows) (foundPass (plan q) foundRows) in
  let info := searchInfo (plan q) (length merged) in
  search now cache db q =
    ({| status := 200;
        body := PageBody
                  (paginateResults merged (validPage (plan q))
                                   (validLimit (plan q)))
                  info false |},
     if useCache (plan q)
     then <[generateCacheKey (optimizeSearchParams q) :=
              {| combined_results := merged; search_info := info |}]> cache
     else cache).
Proof.
  intros Hv Hc Hmiss Hl Hf. cbn zeta. unfold search.
  rewrite Hv, Hc, Hmiss. cbn [length Nat.ltb Nat.leb].
  unfold runQueries. rewrite Hl, Hf. by destruct (useCache (plan q)).
Qed.

(** X18.  After an answer computed from the two tables with the cache on,
    the same request is answered from the cache: the same page and search
    information, flagged as a cache hit, whatever the store holds by then
    and without building any statement.  The first request is one for
    which the handler has built its two statements. *)
Theorem search_again_from_cache (cutoff cutoff' : Z → jsstring)
    (now now' : num) (cache : Cache) (db db' : Store)
    (q : gmap string jsstring) (queries : QueryText.Queries)
    (rows foundRows : list Row) :
  validateFilters now (q !! "dateFrom") (q !! "dateTo")
                  (arrayParam (q !! "status")) = [] →
  validateFilters now' (q !! "dateFrom") (q !! "dateTo")
                  (arrayParam (q !! "status")) = [] →
  missingCriteria q = false →
  useCache (plan q) = true →
  cachedFor cache q = None →
  QueryText.buildQueries cutoff q = Some queries →
  db LostPhones = ScanRows rows →
  db FoundPhones = ScanRows foundRows →
  ∃ page info cache',
    QueryText.searchRoute cutoff now cache db q
      = Some ({| status := 200; body := PageBody page info false |}, cache')
    ∧ QueryText.searchRoute cutoff' now' cache' db' q
      = Some ({| status := 200; body := PageBody page info true |}, cache').
Proof.
  intros Hv Hv' Hc Hu Hmiss Hbuilt Hl Hf.
  assert (strEqb (default (js "true") (q !! "cache")) (js "true") = true)
    as Hflag.
  { revert Hu. unfold plan. by repeat case_match. }
  rewrite searchRoute_past_cache by done. rewrite Hbuilt.
  rewrite (search_both_tables now cache db q rows foundRows) by done.
  cbn zeta. rewrite Hu. do 3 eexists. split; [done|].
  unfold QueryText.searchRoute. rewrite Hv', Hc.
  cbn [length Nat.ltb Nat.leb orb].
  assert (∀ entry,
            cachedFor (<[generateCacheKey (optimizeSearchParams q) := entry]>
                         cache) q = Some entry) as Hhit.
  { intros entry. unfold cachedFor. by rewrite Hflag, lookup_insert_eq. }
  rewrite Hhit. rewrite bool_decide_eq_true_2 by (by eexists).
  unfold search. rewrite Hv', Hc. cbn [length Nat.ltb Nat.leb].
  by rewrite Hhit.
Qed.

(** X19.  [clearCache] with a pattern removes exactly the entries whose key
    contains it; with the pattern "search:" it removes every entry that
    [cacheResults] has stored; without a pattern, or with the empty
    pattern, it removes everything. *)
Theorem clearCache_entries {V} (searchCache : gmap jsstring V)
    (pattern key : jsstring) (params params' : gmap string value)
    (results : V) :
  clearCache searchCache (Some pattern) !! key
    = (if strFalsy pattern || includes key pattern
       then None else searchCache !! key)
  ∧ getCachedResults
      (clearCache (cacheResults searchCache params results)
                  (Some (js "search:"))) params' = None
  ∧ clearCache searchCache None = ∅.
Proof.
  split; [|split; [|done]].
  - unfold clearCache. cbn [strTruthy default].
    destruct (strFalsy pattern); [apply lookup_empty|]. cbn [negb orb].
    rewrite map_lookup_filter.
    destruct (searchCache !! key) as [v|] eqn:Hk; cbn.
    + destruct (includes key pattern) eqn:Hi.
      * by rewrite option_guard_False by (cbn; congruence).
      * by rewrite option_guard_True.
    + by destruct (includes key pattern).
  - unfold getCachedResults, cacheResults, clearCache.
    replace (strTruthy (Some (js "search:"))) with true by reflexivity.
    apply map_lookup_filter_None. right. intros v _.
    unfold generateCacheKey. cbn [fst default].
    by rewrite (startsWith_app_includes (js "search:")).
Qed.
End CacheKeys.

Lemma generateCacheKey_query_case_witness :
  byBrand !! "query" = Some (js "iphone")
  ∧ strFalsy (js "iphone") = false
  ∧ strFalsy (js "  iPhone ") = false
  ∧ toLowerCase (trim (js "  iPhone ")) = toLowerCase (trim (js "iphone"))
  ∧ QueryOptimizer.generateCacheKey (H := Engine.builtins)
      (QueryOptimizer.optimizeSearchParams (H := Engine.builtins)
         (<["query" := js "  iPhone "]> byBrand))
    = QueryOptimizer.generateCacheKey (H := Engine.builtins)
        (QueryOptimizer.optimizeSearchParams (H := Engine.builtins) byBrand).
Proof.
  assert (byBrand !! "query" = Some (js "iphone")) as Hq by reflexivity.
  assert (toLowerCase (trim (js "  iPhone "))
          = toLowerCase (trim (js "iphone"))) as Hsame by reflexivity.
  split; [exact Hq|]. split; [reflexivity|]. split; [reflexivity|].
  split; [exact Hsame|].
  exact (generateCacheKey_query_case (H := Engine.builtins) byBrand
           (js "iphone") (js "  iPhone ") Hq eq_refl eq_refl Hsame).
Defined.

Lemma cachedFor_ignores_filters_witness :
  (∀ k, k ∈ keyParams → byBrand !! k = onlyApple !! k)
  ∧ byBrand !! "cache" = onlyApple !! "cache"
  ∧ ∀ cache : Server.Cache,
      Server.cachedFor (H := Engine.builtins) cache onlyApple
      = Server.cachedFor (H := Engine.builtins) cache byBrand.
Proof.
  assert (∀ k, k ∈ keyParams → byBrand !! k = onlyApple !! k) as Hsame.
  { intros k Hk. unfold onlyApple.
    rewrite lookup_insert_ne; [done|]. intros <-.
    unfold keyParams in Hk.
    repeat (apply elem_of_cons in Hk as [Hk|Hk]; [discriminate Hk|]).
    by apply elem_of_nil in Hk. }
  assert (byBrand !! "cache" = onlyApple !! "cache") as Hcache by reflexivity.
  split; [exact Hsame|]. split; [exact Hcache|]. intros cache.
  exact (cachedFor_ignores_filters (H := Engine.builtins) cache byBrand
           onlyApple Hsame Hcache).
Defined.

Lemma search_again_from_cache_witness :
  Server.validateFilters (H := Engine.builtins) (Fin 0)
    (byBrand !! "dateFrom") (byBrand !! "dateTo")
    (Server.arrayParam (byBrand !! "status")) = []
  ∧ Server.missingCriteria byBrand = false
  ∧ Server.useCache (Server.plan (H := Engine.builtins) byBrand) = true
  ∧ Server.cachedFor (H := Engine.builtins) ∅ byBrand = None
  ∧ is_Some (QueryText.buildQueries (H := Engine.builtins)
               (λ _, js "2026-01-01") byBrand)
  ∧ ∃ page info cache',
      QueryText.searchRoute (H := Engine.builtins) (λ _, js "2026-01-01")
        (Fin 0) ∅ bothTables byBrand
        = Some ({| Server.status := 200;
                   Server.body := Server.PageBody page info false |}, cache')
      ∧ QueryText.searchRoute (H := Engine.builtins) (λ _, js "2026-01-02")
          (Fin 86400000) cache' halfBroken byBrand
        = Some ({| Server.status := 200;
                   Server.body := Server.PageBody page info true |}, cache').
Proof.
  assert (∀ now, Server.validateFilters (H := Engine.builtins) now
            (byBrand !! "dateFrom") (byBrand !! "dateTo")
            (Server.arrayParam (byBrand !! "status")) = []) as Hvalid
    by reflexivity.
  assert (Server.missingCriteria byBrand = false) as Hcrit by reflexivity.
  assert (Server.useCache (Server.plan (H := Engine.builtins) byBrand) = true)
    as Huse by reflexivity.
  assert (Server.cachedFor (H := Engine.builtins) ∅ byBrand = None) as Hmiss
    by (unfold Server.cachedFor; case_match; [apply lookup_empty|reflexivity]).
  assert (is_Some (QueryText.buildQueries (H := Engine.builtins)
                     (λ _, js "2026-01-01") byBrand)) as Hbuilt
    by (eexists; reflexivity).
  split; [exact (Hvalid (Fin 0))|]. split; [exact Hcrit|].
  split; [exact Huse|]. split; [exact Hmiss|]. split; [exact Hbuilt|].
  destruct Hbuilt as [queries Hqueries].
  exact (search_again_from_cache (H := Engine.builtins)
           (λ _, js "2026-01-01") (λ _, js "2026-01-02") (Fin 0)
           (Fin 86400000) ∅ bothTables halfBroken byBrand queries
           [lostReport] []
           (Hvalid (Fin 0)) (Hvalid (Fin 86400000)) Hcrit Huse Hmiss
           Hqueries eq_refl eq_refl).
Defined.

(* ===================================================================== *)
(** * Distances, coordinates and boxes *)
(* ===================================================================== *)

Section Geodesy.
Import QueryOptimizer GeospatialSearch.
Local Open Scope R_scope.

Lemma haversine_comm a b c d : haversine a b c d = haversine c d a b.
Proof.
  unfold haversine, toRadians.
  replace ((c - a) * (PI / 180) / 2) with (- ((a - c) * (PI / 180) / 2))
    by lra.
  replace ((d - b) * (PI / 180) / 2) with (- ((b - d) * (PI / 180) / 2))
    by lra.
  rewrite !sin_neg.
  set (s1 := sin ((a - c) * (PI / 180) / 2)).
  set (s2 := sin ((b - d) * (PI / 180) / 2)).
  set (c1 := cos (a * (PI / 180))). set (c2 := cos (c * (PI / 180))).
  replace (- s1 * - s1 + c1 * c2 * - s2 * - s2)
    with (s1 * s1 + c2 * c1 * s2 * s2) by ring.
  done.
Qed.

(** X20.  The distance does not depend on the order of the two points,
    whatever the four numbers are. *)
Theorem calculateDistance_symmetric (lat1 lon1 lat2 lon2 : num) :
  calculateDistance lat1 lon1 lat2 lon2
  = calculateDistance lat2 lon2 lat1 lon1.
Proof.
  unfold calculateDistance.
  destruct (numTruthy lat1) eqn:H1, (numTruthy lon1) eqn:H2,
           (numTruthy lat2) eqn:H3, (numTruthy lon2) eqn:H4;
    cbn [negb orb]; try done.
  destruct lat1 as [a| | |], lon1 as [b| | |], lat2 as [c| | |],
           lon2 as [d| | |]; try done.
  by rewrite haversine_comm.
Qed.

Lemma atan2_quadrant y x : 0 <= y → 0 <= x → 0 <= atan2 y x <= PI / 2.
Proof.
  intros Hy Hx. pose proof PI_RGT_0 as Hpi. unfold atan2.
  destruct (Rlt_dec 0 x) as [Hpos|Hnpos].
  - assert (0 <= y / x) as Hq
      by (apply Rmult_le_pos; [done|left; by apply Rinv_0_lt_compat]).
    split.
    + rewrite <- atan_0. destruct Hq as [Hq| <-]; [|lra].
      left. by apply atan_increasing.
    + left. apply atan_bound.
  - destruct (Rlt_dec x 0); [lra|].
    destruct (Rlt_dec 0 y); [lra|]. destruct (Rlt_dec y 0); lra.
Qed.

Lemma haversine_not_negative a b c d : 0 <= haversine a b c d.
Proof.
  unfold haversine. cbn zeta.
  match goal with
  | |- 0 <= 6371 * (2 * atan2 (sqrt ?x) (sqrt ?y)) =>
      pose proof (atan2_quadrant (sqrt x) (sqrt y) (sqrt_pos _) (sqrt_pos _))
  end.
  lra.
Qed.

Lemma haversine_self a b : haversine a b a b = 0.
Proof.
  unfold haversine, toRadians. cbn zeta.
  replace ((a - a) * (PI / 180) / 2) with 0 by lra.
  replace ((b - b) * (PI / 180) / 2) with 0 by lra.
  rewrite sin_0.
  replace (0 * 0 + _ * 0 * 0) with 0 by ring.
  rewrite sqrt_0. replace (1 - 0) with 1 by lra. rewrite sqrt_1.
  unfold atan2. destruct (Rlt_dec 0 1); [|lra].
  replace (0 / 1) with 0 by lra. rewrite atan_0. lra.
Qed.

(** A distance is never below 0: it is a number that is not negative,
    [Infinity] or NaN. *)
Lemma calculateDistance_not_negative (lat1 lon1 lat2 lon2 : num) :
  numLt (calculateDistance lat1 lon1 lat2 lon2) (Fin 0) = false.
Proof.
  unfold calculateDistance.
  destruct (negb (numTruthy lat1) || negb (numTruthy lon1)
            || negb (numTruthy lat2) || negb (numTruthy lon2)); [done|].
  destruct lat1 as [a| | |], lon1 as [b| | |], lat2 as [c| | |],
           lon2 as [d| | |]; try done.
  cbn [numLt]. pose proof (haversine_not_negative a b c d).
  destruct (Rlt_dec (haversine a b c d) 0); [lra|done].
Qed.

(** X21.  [calculateDistance] never returns a negative number, whatever
    its four arguments; and from a point to itself it returns 0 when both
    coordinates are finite and not zero, [Infinity] when one of them is
    zero or NaN, and NaN when one of them is infinite. *)
Theorem calculateDistance_sign (lat1 lon1 lat2 lon2 : num) :
  numLt (calculateDistance lat1 lon1 lat2 lon2) (Fin 0) = false
  ∧ calculateDistance lat1 lon1 lat1 lon1
    = (if negb (numTruthy lat1) || negb (numTruthy lon1) then PosInf
       else match lat1, lon1 with
            | Fin _, Fin _ => Fin 0
            | _, _ => NaN
            end).
Proof.
  split; [apply calculateDistance_not_negative|].
  unfold calculateDistance.
  destruct (numTruthy lat1), (numTruthy lon1); cbn [negb orb]; try done.
  destruct lat1 as [a| | |], lon1 as [b| | |]; try done.
  by rewrite haversine_self.
Qed.
End Geodesy.

Section Records.
Import QueryOptimizer GeospatialSearch.
Context `{JsBuiltins}.

Lemma parseLocation_valid (field : option value) (lat lon : num) :
  parseLocation field = Some (lat, lon) → validPair lat lon.
Proof.
  unfold parseLocation. intros Hp.
  destruct field as [[| str | | |]|]; try done.
  destruct (strFalsy str); [done|].
  destruct (split 44 (trim str)) as [|part0 [|part1 [|? ?]]]; try done.
  destruct (invalidCoordinates _ _) eqn:Hinv; [done|].
  injection Hp as <- <-. by apply invalidCoordinates_false.
Qed.

Lemma firstParsed_valid (record : Row) (fields : list string)
    (lat lon : num) :
  firstParsed record fields = Some (lat, lon) → validPair lat lon.
Proof.
  induction fields as [|field fields IH]; [done|]. cbn [firstParsed].
  destruct (truthy (record !! field)); [|apply IH].
  destruct (parseLocation (record !! field)) as [[lat' lon']|] eqn:Hp;
    [|apply IH].
  intros [= -> ->]. by apply (parseLocation_valid (record !! field)).
Qed.

Lemma numLe_Fin_l a y : numLe (Fin a) y = true → isNaN y = false →
  y = PosInf ∨ ∃ b, y = Fin b ∧ (a <= b)%R.
Proof.
  destruct y as [b| | |]; cbn; try done; [|by left].
  destruct (Rle_dec a b); [|done]. right. by exists b.
Qed.

(** X22.  Whatever field they are read from, the coordinates that
    [extractCoordinates] returns are two finite numbers, a latitude between
    -90 and 90 and a longitude between -180 and 180. *)
Theorem extractCoordinates_valid (record : Row) (lat lon : num) :
  extractCoordinates record = Some (lat, lon) → validPair lat lon.
Proof.
  unfold extractCoordinates.
  destruct (firstParsed record coordinateFields) as [[lat' lon']|] eqn:Hf.
  { intros [= <- <-]. by apply (firstParsed_valid record coordinateFields). }
  destruct (truthy (record !! "latitude") && truthy (record !! "longitude"));
    [|done].
  set (x := parseFloatV (record !! "latitude")).
  set (y := parseFloatV (record !! "longitude")).
  destruct (negb (isNaN x) && negb (isNaN y) && numLe (Fin (-90)) x
            && numLe x (Fin 90) && numLe (Fin (-180)) y && numLe y (Fin 180))
    eqn:Hok; [|done].
  intros [= <- <-].
  apply andb_true_iff in Hok as [Hok Hy2].
  apply andb_true_iff in Hok as [Hok Hy1].
  apply andb_true_iff in Hok as [Hok Hx2].
  apply andb_true_iff in Hok as [Hok Hx1].
  apply andb_true_iff in Hok as [Hnx Hny].
  destruct x as [a| | |]; try done; destruct y as [b| | |]; try done.
  exists a, b. cbn in Hx1, Hx2, Hy1, Hy2.
  repeat case_match; try done.
Qed.

Lemma numLe_negative (distance radiusKm : num) :
  numLt distance (Fin 0) = false → numLt radiusKm (Fin 0) = true →
  numLe distance radiusKm = false.
Proof.
  destruct distance as [d| | |], radiusKm as [r| | |]; cbn; try done.
  repeat destruct Rlt_dec; try done. destruct Rle_dec; [lra|done].
Qed.

(** X23.  What [filterByProximity] returns are records of its input whose
    coordinates could be read, each with a distance and those coordinates
    added and nothing else changed; it never returns more records than it
    was given, and none at all when the radius is negative. *)
Theorem filterByProximity_items (records : list Row)
    (centerLat centerLon radiusKm : num) :
  Forall (λ item : Row,
            ∃ (record : Row) (lat lon distance : num),
              record ∈ records
              ∧ extractCoordinates record = Some (lat, lon)
              ∧ item = <["coordinates" := VCoords lat lon]>
                         (<["distance_km" := VNum distance]> record))
         (filterByProximity records centerLat centerLon radiusKm)
  ∧ (length (filterByProximity records centerLat centerLon radiusKm)
     ≤ length records)%nat
  ∧ (filterByProximity records centerLat centerLon radiusKm = []
     ∨ numLt radiusKm (Fin 0) = false).
Proof.
  unfold filterByProximity. split; [|split].
  - apply Forall_forall. intros item. rewrite sort_perm.
    intros (record & Hin & Hitem)%list_elem_of_omap.
    unfold annotate in Hitem.
    destruct (extractCoordinates record) as [[lat lon]|] eqn:Hc; [|done].
    destruct (numLe _ radiusKm); [|done]. injection Hitem as <-.
    by exists record, lat, lon, (round2 (calculateDistance centerLat centerLon
                                                           lat lon)).
  - rewrite sort_perm. induction records as [|r rs IH]; [done|].
    cbn [omap list_omap]. destruct (annotate _ _ _ r); cbn [length]; lia.
  - destruct (numLt radiusKm (Fin 0)) eqn:Hneg; [left|by right].
    apply Permutation_nil_r. rewrite sort_perm.
    induction records as [|r rs IH]; [done|].
    cbn [omap list_omap]. unfold annotate at 1.
    destruct (extractCoordinates r) as [[lat lon]|]; [|done].
    by rewrite (numLe_negative _ _
                  (calculateDistance_not_negative centerLat centerLon lat lon)
                  Hneg).
Qed.
End Records.

Lemma cornerReport_coordinates :
  GeospatialSearch.extractCoordinates (H := Engine.builtins) cornerReport
  = Some (Fin 14.64, Fin 121.02).
Proof.
  unfold GeospatialSearch.extractCoordinates.
  replace (GeospatialSearch.firstParsed cornerReport
             GeospatialSearch.coordinateFields) with (@None (num * num))
    by reflexivity.
  replace (cornerReport !! "latitude") with (Some (VNum (Fin 14.64)))
    by reflexivity.
  replace (cornerReport !! "longitude") with (Some (VNum (Fin 121.02)))
    by reflexivity.
  cbn. repeat (destruct Req_dec_T; [lra|]).
  repeat (destruct Rle_dec; [|lra]). reflexivity.
Qed.

Lemma extractCoordinates_valid_witness :
  GeospatialSearch.extractCoordinates (H := Engine.builtins) cornerReport
    = Some (Fin 14.64, Fin 121.02)
  ∧ validPair (Fin 14.64) (Fin 121.02).
Proof.
  split; [exact cornerReport_coordinates|].
  exact (extractCoordinates_valid (H := Engine.builtins) cornerReport
           (Fin 14.64) (Fin 121.02) cornerReport_coordinates).
Defined.

(** A report is found at its own coordinates: read around (14.64, 121.02)
    with a radius of 5 km, [cornerReport] comes back at distance 0. *)
Example filterByProximity_keeps_centre :
  GeospatialSearch.filterByProximity (H := Engine.builtins)
    [cornerReport] (Fin 14.64) (Fin 121.02) (Fin 5)
  = [<["coordinates" := VCoords (Fin 14.64) (Fin 121.02)]>
       (<["distance_km" := VNum (Fin 0)]> cornerReport)].
Proof.
  apply Permutation_singleton_r. unfold GeospatialSearch.filterByProximity.
  rewrite sort_perm.
  cbn [omap list_omap]. unfold GeospatialSearch.annotate.
  rewrite cornerReport_coordinates.
  assert (GeospatialSearch.calculateDistance (Fin 14.64) (Fin 121.02)
            (Fin 14.64) (Fin 121.02) = Fin 0) as ->.
  { unfold GeospatialSearch.calculateDistance. cbn [numTruthy].
    repeat (destruct Req_dec_T; [lra|]). cbn [negb orb].
    by rewrite haversine_self. }
  cbn [numLe]. destruct (Rle_dec 0 5); [|lra].
  cbn [GeospatialSearch.round2].
  rewrite <- (Int_part_spec (0 * 100 + 1 / 2) 0) by lra.
  replace (IZR 0 / 100)%R with 0%R by lra. done.
Qed.

Section Boxes.
Import GeospatialSearch.
Local Open Scope R_scope.

(** X24.  Away from the poles the box of [createBoundingBox] with a radius
    that is not negative contains its centre, and it grows with the
    radius. *)
Theorem createBoundingBox_centre (centerLat centerLon radiusKm larger : R) :
  -90 < centerLat < 90 → 0 <= radiusKm <= larger →
  let box := createBoundingBox centerLat centerLon radiusKm in
  let outer := createBoundingBox centerLat centerLon larger in
  (minLat box <= centerLat <= maxLat box
   ∧ minLon box <= centerLon <= maxLon box)
  ∧ (minLat outer <= minLat box ∧ maxLat box <= maxLat outer
     ∧ minLon outer <= minLon box ∧ maxLon box <= maxLon outer).
Proof.
  intros Hlat Hr. unfold createBoundingBox.
  cbn [minLat maxLat minLon maxLon] in *; cbn zeta.
  assert (0 < cos (toRadians centerLat)) as Hcos.
  { pose proof PI_RGT_0. unfold toRadians. apply cos_gt_0; nra. }
  set (c := cos (toRadians centerLat)) in *.
  assert (0 < 1 / (111.32 * c)) as Hinv
    by (apply Rdiv_lt_0_compat; nra).
  set (k := 1 / (111.32 * c)) in *.
  assert (0 <= radiusKm * k) by nra.
  assert (radiusKm * k <= larger * k) by nra.
  lra.
Qed.

Lemma createBoundingBox_centre_witness :
  -90 < 14.6 < 90 ∧ 0 <= 5 <= 10
  ∧ (let box := createBoundingBox 14.6 120.98 5 in
     let outer := createBoundingBox 14.6 120.98 10 in
     (minLat box <= 14.6 <= maxLat box
      ∧ minLon box <= 120.98 <= maxLon box)
     ∧ (minLat outer <= minLat box ∧ maxLat box <= maxLat outer
        ∧ minLon outer <= minLon box ∧ maxLon box <= maxLon outer)).
Proof.
  split; [lra|]. split; [lra|].
  apply (createBoundingBox_centre 14.6 120.98 5 10); lra.
Defined.
End Boxes.

(* ===================================================================== *)
(** * The statements and their parameters *)
(* ===================================================================== *)

Section Placeholders.
Import QueryOptimizer Server QueryPlanner AdvancedFilters QueryText.

Lemma placeholders_app s t :
  placeholders (s ++ t) = (placeholders s + placeholders t)%nat.
Proof. unfold placeholders. by rewrite filter_app, length_app. Qed.

Lemma placeholders_join sep parts :
  placeholders sep = 0%nat →
  placeholders (join sep parts) = sum_list (placeholders <$> parts).
Proof.
  intros Hsep. induction parts as [|p [|p' ps] IH]; [done| |].
  - cbn [join fmap list_fmap]. unfold sum_list. cbn [sum_list_with].
    unfold Datatypes.id. lia.
  - change (join sep (p :: p' :: ps)) with (p ++ sep ++ join sep (p' :: ps)).
    rewrite !placeholders_app, IH, Hsep. unfold sum_list.
    cbn [fmap list_fmap sum_list_with]. unfold Datatypes.id. lia.
Qed.

Lemma placeholders_join_parts {B} sep (parts : list (jsstring * list B)) :
  placeholders sep = 0%nat →
  Forall balanced parts →
  placeholders (join sep (fst <$> parts)) = length (mjoin (snd <$> parts)).
Proof.
  intros Hsep Hall. rewrite placeholders_join by done.
  induction Hall as [|[c ps] parts Hb _ IH]; [done|].
  cbn [fmap list_fmap sum_list sum_list_with mjoin list_join fst snd].
  rewrite length_app, IH. unfold balanced in Hb. cbn [fst snd] in Hb.
  unfold Datatypes.id. by rewrite Hb.
Qed.

Lemma placeholders_join_const sep text {B} (l : list B) :
  placeholders sep = 0%nat →
  placeholders (join sep ((λ _, text) <$> l))
  = (length l * placeholders text)%nat.
Proof.
  intros Hsep. rewrite placeholders_join by done.
  induction l as [|x l IH]; [done|]. unfold sum_list in *.
  cbn [fmap list_fmap sum_list_with length Nat.mul]. rewrite IH.
  unfold Datatypes.id. lia.
Qed.

Lemma placeholders_replaceFirst s pattern replacement :
  placeholders pattern = 0%nat → placeholders replacement = 0%nat →
  placeholders (replaceFirst s pattern replacement) = placeholders s.
Proof.
  intros Hp Hr. induction s as [|c s IH].
  - cbn [replaceFirst]. destruct (startsWith pattern []); [|done].
    rewrite placeholders_app, Hr. by destruct pattern.
  - cbn [replaceFirst].
    destruct (startsWith pattern (c :: s)) eqn:Hs.
    + apply startsWith_prefix in Hs as [r Hs]. rewrite Hs.
      rewrite drop_app_length, !placeholders_app. lia.
    + change (c :: replaceFirst s pattern replacement)
        with ([c] ++ replaceFirst s pattern replacement).
      change (c :: s) with ([c] ++ s). by rewrite !placeholders_app, IH.
Qed.

Lemma placeholders_forFound condition :
  placeholders (forFound condition) = placeholders condition.
Proof.
  unfold forFound. by rewrite !placeholders_replaceFirst by reflexivity.
Qed.

Lemma placeholders_limit (n : Z) :
  0 ≤ n ≤ 300 → placeholders (js (pretty n)) = 0%nat.
Proof.
  intros Hn.
  assert (forallb (λ k, Nat.eqb (placeholders (js (pretty (Z.of_nat k)))) 0)
                  (seq 0 301) = true) as Hall by (vm_compute; reflexivity).
  rewrite forallb_forall in Hall.
  specialize (Hall (Z.to_nat n)). rewrite Z2Nat.id in Hall by lia.
  apply Nat.eqb_eq, Hall, in_seq. lia.
Qed.

Lemma placeholders_optimizeQuery baseQuery options :
  placeholders (orderBy options) = 0%nat →
  placeholders (js (pretty (default 0 (limit options)))) = 0%nat →
  placeholders (optimizeQuery baseQuery options) = placeholders baseQuery.
Proof.
  intros Ho Hl. unfold optimizeQuery.
  repeat match goal with
         | |- context [if ?b then _ else _] => destruct b
         end;
    rewrite ?placeholders_app, ?Ho, ?Hl;
    repeat match goal with
           | |- context [placeholders (js ?s)] =>
               change (placeholders (js s)) with 0%nat
           end; lia.
Qed.

Lemma placeholders_optimizeOrderBy filters :
  placeholders (optimizeOrderBy (js "created_at DESC") filters) = 0%nat.
Proof. unfold optimizeOrderBy. by repeat case_match. Qed.

Lemma balanced_status statusArray : balanced (buildStatusCondition statusArray).
Proof.
  unfold buildStatusCondition, balanced. case_bool_decide; [done|].
  cbn [fst snd]. rewrite !placeholders_app.
  rewrite placeholders_join_const by reflexivity.
  change (placeholders (js "status IN (")) with 0%nat.
  change (placeholders (js ")")) with 0%nat.
  change (placeholders (js "?")) with 1%nat. lia.
Qed.

Lemma balanced_deviceType deviceTypes :
  balanced (buildDeviceTypeCondition deviceTypes).
Proof.
  unfold buildDeviceTypeCondition, balanced. case_bool_decide; [done|].
  cbn [fst snd]. rewrite !placeholders_app.
  rewrite placeholders_join_const by reflexivity.
  rewrite length_fmap.
  change (placeholders (js "(")) with 0%nat.
  change (placeholders (js ")")) with 0%nat.
  change (placeholders (js "device_type LIKE ?")) with 1%nat. lia.
Qed.

Lemma balanced_brand brands : balanced (buildBrandCondition brands).
Proof.
  unfold buildBrandCondition, balanced. case_bool_decide; [done|].
  cbn [fst snd]. rewrite !placeholders_app.
  rewrite placeholders_join_const by reflexivity.
  rewrite length_fmap.
  change (placeholders (js "(")) with 0%nat.
  change (placeholders (js ")")) with 0%nat.
  change (placeholders (js "brand LIKE ?")) with 1%nat. lia.
Qed.

Lemma balanced_location filters : balanced (buildLocationCondition filters).
Proof.
  unfold buildLocationCondition, balanced, locationParts. cbn [fst snd].
  destruct (strTruthy (country filters)), (strTruthy (region filters)),
           (strTruthy (city filters)); reflexivity.
Qed.

Lemma balanced_dates cutoff filters condition :
  buildDateRangeCondition cutoff filters = Some condition →
  match condition.1 with
  | Some text => placeholders text = length condition.2
  | None => condition.2 = []
  end.
Proof.
  unfold buildDateRangeCondition.
  destruct (if strTruthy (timeRange filters) then _ else _);
    [intros [= <-]; reflexivity|done|].
  intros [= <-]. cbn [fst snd].
  destruct (strTruthy (dateFrom filters)), (strTruthy (dateTo filters));
    reflexivity.
Qed.

(** The clause of [buildFilterConditions] has one [?] for each of its
    parameters. *)
Lemma buildFilterConditions_placeholders cutoff filters conditions :
  buildFilterConditions cutoff filters = Some conditions →
  placeholders (whereClause conditions)
  = length (AdvancedFilters.params conditions).
Proof.
  unfold buildFilterConditions.
  destruct (if strTruthy (dateFrom filters) || _ || _ then _ else _)
    as [dates|] eqn:Hdates; [|done].
  cbn [mbind option_bind]. intros Heq. apply (inj Some) in Heq.
  rewrite <- Heq. clear Heq. cbn [whereClause AdvancedFilters.params].
  assert (Forall balanced dates) as Hd.
  { destruct (_ || _ || _); [|by injection Hdates as <-].
    destruct (buildDateRangeCondition cutoff filters) as [[c ps]|] eqn:Hc;
      [|done].
    apply balanced_dates in Hc. cbn in Hdates, Hc. injection Hdates as <-.
    destruct c; [|done]. by repeat constructor. }
  set (parts := dates ++ _).
  assert (Forall balanced parts) as Hparts.
  { unfold parts. repeat apply Forall_app_2; try done;
      repeat case_match; repeat constructor;
      auto using balanced_status, balanced_deviceType, balanced_brand,
                 balanced_location. }
  destruct (0 <? length (fst <$> parts))%nat eqn:Hlen.
  - rewrite placeholders_app, placeholders_join_parts by done. done.
  - apply Nat.ltb_ge in Hlen. rewrite length_fmap in Hlen.
    by destruct parts; [|cbn in Hlen; lia].
Qed.

Lemma plan_validLimit `{JsBuiltins} (q : gmap string jsstring) :
  1 ≤ validLimit (plan q) ≤ 100.
Proof.
  unfold plan, validatePaginationParams.
  destruct (if strTruthy (q !! "query") then _ else _) as [? ?].
  cbn [validLimit]. lia.
Qed.

Lemma balanced_whereParts `{JsBuiltins} cutoff (q : gmap string jsstring) parts :
  whereParts cutoff (plan q) q = Some parts → Forall balanced parts.
Proof.
  unfold whereParts.
  destruct (advancedParts cutoff q) as [advanced|] eqn:Ha; [|done].
  cbn [mbind option_bind]. intros Heq. apply (inj Some) in Heq.
  rewrite <- Heq. clear Heq parts. apply Forall_app_2.
  - assert (Forall balanced (geographicParts (plan q) q ++ queryParts (plan q)))
      as Hbase.
    { apply Forall_app_2.
      - unfold geographicParts. destruct (useGeospatial (plan q)).
        + repeat constructor.
        + repeat apply Forall_app_2; case_match; by repeat constructor.
      - unfold queryParts. repeat case_match; by repeat constructor. }
    destruct (length _ =? 0)%nat; [by repeat constructor|done].
  - unfold advancedParts in Ha. destruct (hasAdvancedFilters q);
      [|apply (inj Some) in Ha; rewrite <- Ha; constructor].
    destruct (buildFilterConditions cutoff (filtersOf q)) as [conditions|]
      eqn:Hc; [|done].
    cbn [mbind option_bind] in Ha. apply (inj Some) in Ha. rewrite <- Ha.
    destruct (strFalsy (whereClause conditions)); [constructor|].
    repeat constructor. unfold balanced. cbn [fst snd].
    rewrite !placeholders_app, placeholders_replaceFirst by reflexivity.
    rewrite length_fmap, (buildFilterConditions_placeholders _ _ _ Hc).
    change (placeholders (js "(")) with 0%nat.
    change (placeholders (js ")")) with 0%nat. lia.
Qed.

(** X25.  Both statements of the handler, the one on [lost_phones] and the
    one rewritten for [found_phones], contain exactly one [?] for each of
    the parameters they are run with, whatever the request. *)
Theorem buildQueries_placeholders `{JsBuiltins} (cutoff : Z → jsstring)
    (q : gmap string jsstring) (queries : Queries) :
  buildQueries cutoff q = Some queries →
  placeholders (sql queries) = length (QueryText.params queries)
  ∧ placeholders (foundSql queries) = length (QueryText.params queries).
Proof.
  unfold buildQueries.
  destruct (whereParts cutoff (plan q) q) as [parts|] eqn:Hparts; [|done].
  cbn [mbind option_bind]. intros Heq. apply (inj Some) in Heq.
  rewrite <- Heq. clear Heq. cbn [sql foundSql QueryText.params].
  apply balanced_whereParts in Hparts.
  pose proof (plan_validLimit q) as Hlimit.
  set (options := {| orderBy := _; limit := _; useIndex := _ |}).
  assert (placeholders (orderBy options) = 0%nat) as Ho
    by apply placeholders_optimizeOrderBy.
  assert (placeholders (js (pretty (default 0 (limit options)))) = 0%nat)
    as Hl.
  { cbn [limit options default]. unfold Datatypes.id.
    apply placeholders_limit. lia. }
  rewrite !placeholders_optimizeQuery by done.
  rewrite !placeholders_app.
  change (placeholders (js "SELECT * FROM lost_phones WHERE ")) with 0%nat.
  change (placeholders (js "SELECT * FROM found_phones WHERE ")) with 0%nat.
  cbn [Nat.add].
  assert (placeholders (join (js " AND ") (forFound <$> (fst <$> parts)))
          = placeholders (join (js " AND ") (fst <$> parts))) as ->.
  { rewrite !placeholders_join by reflexivity. f_equal.
    rewrite <- list_fmap_compose. apply list_fmap_ext.
    intros ? ? ?. apply placeholders_forFound. }
  split; by apply placeholders_join_parts.
Qed.
End Placeholders.

Lemma buildQueries_placeholders_witness :
  ∃ queries,
    QueryText.buildQueries (H := Engine.builtins) (λ _, js "2026-01-01")
      onlyApple = Some queries
    ∧ placeholders (QueryText.sql queries)
      = length (QueryText.params queries)
    ∧ placeholders (QueryText.foundSql queries)
      = length (QueryText.params queries).
Proof.
  assert (is_Some (QueryText.buildQueries (H := Engine.builtins)
                     (λ _, js "2026-01-01") onlyApple)) as [queries Hq]
    by (eexists; reflexivity).
  exists queries. split; [exact Hq|].
  exact (buildQueries_placeholders (H := Engine.builtins)
           (λ _, js "2026-01-01") onlyApple queries Hq).
Defined.

(* ===================================================================== *)
(** * More on the search handler *)
(* ===================================================================== *)

Section Handler.
Import FuzzySearch QueryOptimizer Server QueryPlanner AdvancedFilters QueryText.
Context `{JsBuiltins}.

Lemma timeRanges_inherited (name : jsstring) :
  name ∈ objectPrototypeKeys →
  strFalsy name = false ∧ timeRanges name = Inherited.
Proof.
  unfold objectPrototypeKeys. intros Hin.
  repeat (apply elem_of_cons in Hin as [->|Hin]; [by vm_compute|]).
  by apply elem_of_nil in Hin.
Qed.

(** X26.  A request whose [timeRange] is the name of a property that every
    object inherits, such as "constructor" or "toString", passes the
    validation and, when it is not answered from the cache, makes the
    handler throw while it builds its first query: no response is
    computed. *)
Theorem searchRoute_inherited_timeRange (cutoff : Z → jsstring) (now : num)
    (cache : Cache) (db : Store) (q : gmap string jsstring)
    (name : jsstring) :
  q !! "timeRange" = Some name →
  name ∈ objectPrototypeKeys →
  Server.validateFilters now (q !! "dateFrom") (q !! "dateTo")
                         (arrayParam (q !! "status")) = [] →
  cachedFor cache q = None →
  searchRoute cutoff now cache db q = None.
Proof.
  intros Hname [Hfalsy Hrange]%timeRanges_inherited Hvalid Hmiss.
  assert (strTruthy (q !! "timeRange") = true) as Htruthy
    by (by rewrite Hname; cbn; rewrite Hfalsy).
  assert (hasAdvancedFilters q = true) as Hadv.
  { unfold hasAdvancedFilters. cbn [existsb]. rewrite Htruthy.
    by rewrite !orb_true_r. }
  assert (missingCriteria q = false) as Hcrit.
  { unfold missingCriteria. rewrite Hadv. cbn [negb]. by rewrite andb_false_r. }
  assert (buildFilterConditions cutoff (filtersOf q) = None) as Hthrow.
  { unfold buildFilterConditions, buildDateRangeCondition.
    cbn [timeRange dateFrom dateTo filtersOf].
    unfold jsstring in *. rewrite Htruthy, Hname. cbn [default].
    unfold Datatypes.id. rewrite Hrange.
    by rewrite !orb_true_r. }
  unfold searchRoute. rewrite Hvalid, Hcrit, Hmiss.
  cbn [length Nat.ltb Nat.leb orb].
  rewrite bool_decide_eq_false_2 by (by intros [? ?]).
  unfold buildQueries, whereParts, advancedParts. rewrite Hadv, Hthrow.
  done.
Qed.

(** X27.  The handler writes to the cache only when it has answered with a
    page computed from both tables, and what it writes is the result set
    that page was cut from: a rejected request, a failed scan and a cache
    hit leave the cache as it was. *)
Theorem search_cache_written (now : num) (cache : Cache) (db : Store)
    (q : gmap string jsstring) :
  (search now cache db q).2 = cache
  ∨ ∃ entry,
      (search now cache db q).2
        = <[generateCacheKey (optimizeSearchParams q) := entry]> cache
      ∧ (search now cache db q).1
        = {| Server.status := 200;
             body := PageBody
                       (paginateResults (combined_results entry)
                          (validPage (plan q)) (validLimit (plan q)))
                       (search_info entry) false |}.
Proof.
  unfold search.
  destruct (0 <? length _)%nat; [by left|].
  destruct (missingCriteria q); [by left|].
  destruct (cachedFor cache q); [by left|].
  unfold runQueries.
  destruct (db LostPhones); [by left|].
  destruct (db FoundPhones); [by left|].
  destruct (useCache (plan q)); [|by left].
  right. by eexists.
Qed.

(** X28.  No page of results holds more than 100 items, whatever limit the
    request asks for and whether the page comes from the tables or from
    the cache. *)
Theorem search_page_size (now : num) (cache : Cache) (db : Store)
    (q : gmap string jsstring) (page : Paginated Row) (info : SearchInfo)
    (hit : bool) :
  body (search now cache db q).1 = PageBody page info hit →
  (length (data page) ≤ 100)%nat.
Proof.
  pose proof (plan_validLimit q) as Hlimit.
  assert (∀ results : list Row,
            (length (data (paginateResults results (validPage (plan q))
                                           (validLimit (plan q)))) ≤ 100)%nat)
    as Hpage.
  { intros results. rewrite paginateResults_data by lia.
    rewrite length_take. lia. }
  unfold search.
  destruct (0 <? length _)%nat; [done|].
  destruct (missingCriteria q); [done|].
  destruct (cachedFor cache q).
  { cbn [fst body]. intros [= <- _ _]. apply Hpage. }
  unfold runQueries.
  destruct (db LostPhones); [done|].
  destruct (db FoundPhones); [done|].
  cbn [fst body]. intros [= <- _ _]. apply Hpage.
Qed.
End Handler.

Lemma searchRoute_inherited_timeRange_witness :
  inheritedRange !! "timeRange" = Some (js "constructor")
  ∧ js "constructor" ∈ AdvancedFilters.objectPrototypeKeys
  ∧ Server.validateFilters (H := Engine.builtins) (Fin 0)
      (inheritedRange !! "dateFrom") (inheritedRange !! "dateTo")
      (Server.arrayParam (inheritedRange !! "status")) = []
  ∧ Server.cachedFor (H := Engine.builtins) ∅ inheritedRange = None
  ∧ QueryText.searchRoute (H := Engine.builtins) (λ _, js "2026-01-01")
      (Fin 0) ∅ bothTables inheritedRange = None.
Proof.
  assert (inheritedRange !! "timeRange" = Some (js "constructor")) as Hname
    by reflexivity.
  assert (js "constructor" ∈ AdvancedFilters.objectPrototypeKeys) as Hin
    by apply list_elem_of_here.
  assert (Server.validateFilters (H := Engine.builtins) (Fin 0)
            (inheritedRange !! "dateFrom") (inheritedRange !! "dateTo")
            (Server.arrayParam (inheritedRange !! "status")) = []) as Hvalid
    by reflexivity.
  assert (Server.cachedFor (H := Engine.builtins) ∅ inheritedRange = None)
    as Hmiss
    by (unfold Server.cachedFor; case_match; [apply lookup_empty|reflexivity]).
  split; [exact Hname|]. split; [exact Hin|]. split; [exact Hvalid|].
  split; [exact Hmiss|].
  exact (searchRoute_inherited_timeRange (H := Engine.builtins)
           (λ _, js "2026-01-01") (Fin 0) ∅ bothTables inheritedRange
           (js "constructor") Hname Hin Hvalid Hmiss).
Defined.

Lemma search_page_size_witness :
  ∃ page info,
    Server.body (Server.search (H := Engine.builtins) (Fin 0) ∅ bothTables
                   byBrand).1
    = Server.PageBody page info false
    ∧ (length (QueryOptimizer.data page) ≤ 100)%nat.
Proof.
  assert (Server.validateFilters (H := Engine.builtins) (Fin 0)
            (byBrand !! "dateFrom") (byBrand !! "dateTo")
            (Server.arrayParam (byBrand !! "status")) = []) as Hvalid
    by reflexivity.
  assert (Server.cachedFor (H := Engine.builtins) ∅ byBrand = None) as Hmiss
    by (unfold Server.cachedFor; case_match; [apply lookup_empty|reflexivity]).
  pose proof (search_both_tables (H := Engine.builtins) (Fin 0) ∅ bothTables
                byBrand [lostReport] [] Hvalid eq_refl Hmiss eq_refl eq_refl)
    as Hsearch.
  cbn zeta in Hsearch.
  pose proof (f_equal (λ answer, Server.body answer.1) Hsearch) as Hbody.
  cbn [fst Server.body] in Hbody.
  do 2 eexists. split; [exact Hbody|].
  exact (search_page_size (H := Engine.builtins) (Fin 0) ∅ bothTables byBrand
           _ _ false Hbody).
Defined.

(* ===================================================================== *)
(** * Fuzzy filtering of a result set *)
(* ===================================================================== *)

Section FuzzyFilter.
Import FuzzySearch FuzzyFilters.
Context `{JsBuiltins}.

Lemma mapM_elem_of {A B} (f : A → option B) (l : list A) (k : list B) (y : B) :
  mapM f l = Some k → y ∈ k ↔ ∃ x, x ∈ l ∧ f x = Some y.
Proof.
  intros Hall%mapM_Some_1. induction Hall as [|x y' l k Hxy _ IH].
  - split; [by intros ?%elem_of_nil|by intros (x & ?%elem_of_nil & _)].
  - rewrite elem_of_cons, IH. split.
    + intros [->|(x' & Hin & Hf)].
      * exists x. split; [apply list_elem_of_here|done].
      * exists x'. split; [by apply list_elem_of_further|done].
    + intros (x' & [->|Hin]%elem_of_cons & Hf).
      * left. congruence.
      * right. by exists x'.
Qed.

Lemma scoreField_kept (searchTerm : jsstring) (fieldName : string)
    (threshold : Q) (row item : Row) :
  scoreField searchTerm fieldName threshold row = Some (Some item) ↔
  ∃ text,
    row !! fieldName = Some (VStr text) ∧ strFalsy text = false
    ∧ (threshold <= calculateSimilarity searchTerm text)%Q
    ∧ item = <["_matchField" := VStr (js fieldName)]>
               (<["_similarity" := VRat (calculateSimilarity searchTerm text)]>
                  row).
Proof.
  unfold scoreField. split.
  - destruct (row !! fieldName) as [[| text | | |]|] eqn:Hfield;
      cbn [truthy negb]; try (by repeat case_match).
    destruct (strFalsy text) eqn:Hempty; [done|]. cbn [negb].
    destruct (Qle_bool threshold _) eqn:Hle; [|done].
    intros [= <-]. exists text. by rewrite <- Qle_bool_iff.
  - intros (text & -> & Hempty & Hle%Qle_bool_iff & ->).
    cbn [truthy]. by rewrite Hempty, Hle.
Qed.

(** A string that is not empty scores 100 against itself. *)
Lemma calculateSimilarity_same (str : jsstring) :
  strFalsy str = false → (calculateSimilarity str str == 100)%Q.
Proof.
  intros Hne. unfold calculateSimilarity. rewrite Hne. cbn [orb].
  destruct str as [|c str]; [done|].
  rewrite Nat.max_id. cbn [length Nat.eqb].
  assert (levenshteinDistance (toLowerCase (c :: str)) (toLowerCase (c :: str))
          = 0%nat) as ->
    by (rewrite levenshteinDistance_lev; by apply lev_zero).
  change (inject_Z (Z.of_nat 0)) with 0%Q.
  generalize (Z.of_nat (S (length str))) (Nat2Z.is_nonneg (S (length str)))
             (Nat2Z.inj_succ (length str)).
  intros m Hm Hs. assert (0 < m) as Hpos by lia.
  assert (¬ (inject_Z m == 0)%Q) as Hnz.
  { unfold Qeq, inject_Z. cbn. lia. }
  field. exact Hnz.
Qed.

(** X29.  For a search term that is not empty, every row that
    [filterFuzzyResults] returns is a row of its input whose field is a
    string that is not empty, with the name of the field and a score
    added, a score that is at least the threshold and at most 100; it
    returns no more rows than it was given; and for a threshold of at
    most 100 it returns, with a score of 100, every row whose field is
    the search term itself. *)
Theorem filterFuzzyResults_items (results : list Row) (searchTerm : jsstring)
    (fieldName : string) (threshold : Q) (kept : list Row) :
  strFalsy searchTerm = false →
  filterFuzzyResults results searchTerm fieldName threshold = Some kept →
  Forall (λ item : Row,
            ∃ (row : Row) (text : jsstring) (score : Q),
              row ∈ results
              ∧ row !! fieldName = Some (VStr text) ∧ strFalsy text = false
              ∧ (threshold <= score)%Q ∧ (score <= 100)%Q
              ∧ item = <["_matchField" := VStr (js fieldName)]>
                         (<["_similarity" := VRat score]> row))
         kept
  ∧ (length kept ≤ length results)%nat
  ∧ Forall (λ row : Row,
              row !! fieldName = Some (VStr searchTerm) →
              (threshold <= 100)%Q →
              ∃ score : Q,
                (score == 100)%Q
                ∧ <["_matchField" := VStr (js fieldName)]>
                    (<["_similarity" := VRat score]> row) ∈ kept)
           results.
Proof.
  intros Hterm. unfold filterFuzzyResults. rewrite Hterm. cbn [orb].
  case_bool_decide as Hempty.
  { intros Heq. apply (inj Some) in Heq. subst kept results.
    split; [constructor|]. split; [done|constructor]. }
  destruct (mapM _ results) as [scored|] eqn:Hscored; [|done].
  cbn [mbind option_bind]. intros Heq. apply (inj Some) in Heq.
  rewrite <- Heq. clear Heq kept.
  assert (∀ item : Row,
            item ∈ sort (λ a b : Row,
                           numSub (toNumberV (b !! "_similarity"))
                                  (toNumberV (a !! "_similarity")))
                        (omap (λ scoredRow : option Row, scoredRow) scored)
            ↔ ∃ row, row ∈ results
                     ∧ scoreField searchTerm fieldName threshold row
                       = Some (Some item)) as Hitems.
  { intros item. rewrite sort_perm, list_elem_of_omap. split.
    - intros (scoredRow & Hin & ->).
      by apply (mapM_elem_of _ _ _ _ Hscored) in Hin.
    - intros Hrow. exists (Some item). split; [|done].
      by apply (mapM_elem_of _ _ _ _ Hscored). }
  split; [|split].
  - apply Forall_forall. intros item (row & Hrow & Hscore)%Hitems.
    apply scoreField_kept in Hscore as (text & Hfield & Htext & Hle & ->).
    exists row, text, (calculateSimilarity searchTerm text).
    repeat split; try done. apply calculateSimilarity_le_100.
  - rewrite sort_perm. apply length_mapM in Hscored. rewrite Hscored.
    clear. induction scored as [|[row|] scored IH]; cbn; lia.
  - apply Forall_forall. intros row Hrow Hfield Hle.
    exists (calculateSimilarity searchTerm searchTerm).
    pose proof (calculateSimilarity_same searchTerm Hterm) as Hsame.
    split; [done|]. apply Hitems. exists row. split; [done|].
    apply scoreField_kept. exists searchTerm.
    repeat split; try done. by rewrite Hsame.
Qed.
End FuzzyFilter.

Lemma filterFuzzyResults_items_witness :
  let item : Row :=
    <["_matchField" := VStr (js "brand")]>
      (<["_similarity" :=
           VRat (FuzzySearch.calculateSimilarity (js "iphone") (js "iPhone"))]>
         lostReport) in
  strFalsy (js "iphone") = false
  ∧ FuzzyFilters.filterFuzzyResults (H := Engine.builtins) [lostReport]
      (js "iphone") "brand" 70 = Some [item]
  ∧ Forall (λ kept : Row,
              ∃ (row : Row) (text : jsstring) (score : Q),
                row ∈ [lostReport]
                ∧ row !! "brand" = Some (VStr text) ∧ strFalsy text = false
                ∧ (70 <= score)%Q ∧ (score <= 100)%Q
                ∧ kept = <["_matchField" := VStr (js "brand")]>
                           (<["_similarity" := VRat score]> row))
           [item]
  ∧ (length [item] ≤ length [lostReport])%nat.
Proof.
  intros item.
  assert (FuzzyFilters.filterFuzzyResults (H := Engine.builtins) [lostReport]
            (js "iphone") "brand" 70 = Some [item]) as Hkept
    by reflexivity.
  split; [reflexivity|]. split; [exact Hkept|].
  destruct (filterFuzzyResults_items (H := Engine.builtins) [lostReport]
              (js "iphone") "brand" 70 [item] eq_refl Hkept)
    as (Hitems & Hlength & _).
  split; [exact Hitems|exact Hlength].
Defined.

(* ===================================================================== *)
(** * The fallback by place names and the filter summary *)
(* ===================================================================== *)

Section Fallback.
Import Nearby Server AdvancedFilters QueryText.

(** X30.  [findNearbyByLocation] applies a criterion to a record only when
    the criterion is given and the record has the field: records to which
    no criterion applies are all returned, in their order.  So it is
    without any criterion, and for records that carry no place names. *)
Theorem findNearbyByLocation_lenient (records : list Row)
    (city region country : option jsstring) :
  Forall (λ record : Row,
            strTruthy city && truthy (record !! "city") = false
            ∧ strTruthy region && truthy (record !! "region_state") = false
            ∧ strTruthy country && truthy (record !! "country") = false)
         records →
  findNearbyByLocation records city region country = Some records.
Proof.
  intros Hall. unfold findNearbyByLocation.
  assert (mapM (matchesLocation city region country) records
          = Some (replicate (length records) true)) as ->.
  { apply mapM_Some. induction Hall as [|record records (Hc & Hr & Hn) _ IH];
      [constructor|].
    constructor; [|done]. unfold matchesLocation, criterion.
    by rewrite Hc, Hr, Hn. }
  cbn [mbind option_bind]. f_equal. clear Hall.
  induction records as [|record records IH]; [done|].
  cbn [length replicate zip zip_with omap list_omap snd fst].
  by rewrite IH.
Qed.

(** The summary counts a filter exactly when the handler takes the request
    to have advanced filters. *)
Lemma generateFilterSummary_active (q : gmap string jsstring) :
  (0 <? activeFilters (generateFilterSummary (filtersOf q)))%nat
  = hasAdvancedFilters q.
Proof.
  unfold generateFilterSummary, hasAdvancedFilters, activeKeys.
  cbn [activeFilters filtersOf dateFrom dateTo timeRange status deviceType
       brand country region city imei phoneNumber existsb].
  destruct (strTruthy (q !! "dateFrom")), (strTruthy (q !! "dateTo")),
    (strTruthy (q !! "timeRange")), (strTruthy (q !! "country")),
    (strTruthy (q !! "region")), (strTruthy (q !! "city")),
    (strTruthy (q !! "imei")), (strTruthy (q !! "phoneNumber")),
    (0 <? length (arrayParam (q !! "status")))%nat,
    (0 <? length (arrayParam (q !! "deviceType")))%nat,
    (0 <? length (arrayParam (q !! "brand")))%nat; reflexivity.
Qed.
End Fallback.

Lemma findNearbyByLocation_lenient_witness :
  Forall (λ record : Row,
            strTruthy (Some (js "Manila")) && truthy (record !! "city") = false
            ∧ strTruthy None && truthy (record !! "region_state") = false
            ∧ strTruthy (Some (js "PH")) && truthy (record !! "country")
              = false)
         [lostReport; cornerReport]
  ∧ Nearby.findNearbyByLocation [lostReport; cornerReport]
      (Some (js "Manila")) None (Some (js "PH"))
    = Some [lostReport; cornerReport].
Proof.
  assert (Forall (λ record : Row,
            strTruthy (Some (js "Manila")) && truthy (record !! "city") = false
            ∧ strTruthy None && truthy (record !! "region_state") = false
            ∧ strTruthy (Some (js "PH")) && truthy (record !! "country")
              = false)
         [lostReport; cornerReport]) as Hall
    by (repeat constructor).
  split; [exact Hall|].
  exact (findNearbyByLocation_lenient [lostReport; cornerReport]
           (Some (js "Manila")) None (Some (js "PH")) Hall).
Defined.
